(** * Wax Encounters: the client-side data-security layer

    A shallow embedding of [js/server-validation.js] (classes
    [ServerValidation] and [WaxEncountersSecurity]) and of the secure storage
    manager (class [SecureStorageManager]), with the properties the design
    document states about them.

    JavaScript strings are sequences of UTF-16 code units; a code unit is a
    natural number ([N]).  Object keys and storage keys, which the program
    writes as literals, are Rocq strings. *)

From Stdlib Require Import ZArith NArith List String Ascii Strings.Byte Bool Lia DecimalString.
From stdpp Require Import base option list gmap strings.

Local Open Scope N_scope.

(** ** JavaScript strings *)

Definition char := N.
Definition str := list N.

(** A string literal of the program, as code units. *)
Fixpoint js (s : string) : str :=
  match s with
  | EmptyString => []
  | String a r => N_of_ascii a :: js r
  end.

Definition in_range (lo hi c : N) : bool := (lo <=? c) && (c <=? hi).

Definition is_digit (c : char) : bool := in_range 48 57 c.     (* [0-9] *)
Definition is_upper (c : char) : bool := in_range 65 90 c.     (* [A-Z] *)
Definition is_lower (c : char) : bool := in_range 97 122 c.    (* [a-z] *)

(** The class [\s] of a regular expression, which is also what [trim]
    strips: WhiteSpace and LineTerminator of ECMA-262. *)
Definition is_space (c : char) : bool :=
  in_range 9 13 c || (c =? 32) || (c =? 160) || (c =? 5760)
  || in_range 8192 8202 c || (c =? 8232) || (c =? 8233) || (c =? 8239)
  || (c =? 8287) || (c =? 12288) || (c =? 65279).

(** [c.toUpperCase()] and [c.toLowerCase()] of an ASCII code unit. *)
Definition upper_ascii (c : char) : char := if is_lower c then c - 32 else c.
Definition lower_ascii (c : char) : char := if is_upper c then c + 32 else c.

(** [n.toString()] of a natural number: its decimal digits. *)
Definition toString10 (n : N) : str := js (NilZero.string_of_uint (N.to_uint n)).

(** One hexadecimal digit, lower case, as [toString(16)] prints it. *)
Definition hex_digit (d : N) : char := if d <? 10 then 48 + d else 87 + d.

(** [n.toString(16)]: the digits of [n] in base 16, most significant first.
    The recursion is on the binary representation, four bits a digit. *)
Fixpoint hex_digits_pos (fuel : nat) (n : N) (acc : str) : str :=
  match fuel with
  | O => acc
  | S f =>
      let acc' := hex_digit (n mod 16) :: acc in
      if n / 16 =? 0 then acc' else hex_digits_pos f (n / 16) acc'
  end.

Definition toString16 (n : N) : str := hex_digits_pos (S (N.to_nat (N.log2 n))) n [].

(** [s.padStart(len, fill)] with a one-character fill string. *)
Definition padStart (len : nat) (fill : char) (s : str) : str :=
  replicate (len - length s) fill ++ s.


(** Program literals are written as Rocq strings. *)
Coercion js : string >-> str.

(** ** JavaScript values

    The values the program handles: what [JSON.parse] returns, the objects
    the program builds, and [undefined] and [NaN].  Numbers are the integers
    (time stamps, counts and lengths are all the program computes with).
    An object is its list of own properties in insertion order, each key
    once. *)

#[warnings="-register-all"]
Inductive value :=
| VUndef
| VNull
| VBool (b : bool)
| VNum (z : Z)
| VNaN
| VStr (s : str)
| VArr (elems : list value)
| VObj (props : list (str * value)).

Abbreviation object := (list (str * value)).

(** [typeof v === 'string'] *)
Definition is_string (v : value) : bool :=
  match v with VStr _ => true | _ => false end.

(** ToBoolean: what [if (v)], [!v] and [v && w] test. *)
Definition truthy (v : value) : bool :=
  match v with
  | VUndef | VNull | VNaN => false
  | VBool b => b
  | VNum z => negb (z =? 0)%Z
  | VStr s => negb (bool_decide (s = []))
  | VArr _ | VObj _ => true
  end.

(** [o[k]] on a property list. *)
Fixpoint lookup_prop (k : str) (o : object) : value :=
  match o with
  | [] => VUndef
  | (k', v) :: r => if bool_decide (k = k') then v else lookup_prop k r
  end.

(** [v[k]] or [v.k], for the keys the program reads (none of them is
    [length], an index, or a name on a prototype): the own property of an
    object, [undefined] on any other value, and a TypeError ([None]) on
    [null] and [undefined]. *)
Definition get_prop (k : str) (v : value) : option value :=
  match v with
  | VUndef | VNull => None
  | VObj o => Some (lookup_prop k o)
  | _ => Some VUndef
  end.

(** [o[k] = v]: an existing key keeps its place. *)
Fixpoint set_prop (k : str) (v : value) (o : object) : object :=
  match o with
  | [] => [(k, v)]
  | (k', v') :: r =>
      if bool_decide (k = k') then (k, v) :: r else (k', v') :: set_prop k v r
  end.

Definition Z_toString (z : Z) : str :=
  if (z <? 0)%Z then 45 :: toString10 (Z.abs_N z) else toString10 (Z.to_N z).

Fixpoint indexed {A} (i : N) (l : list A) : list (str * A) :=
  match l with
  | [] => []
  | x :: r => (toString10 i, x) :: indexed (i + 1) r
  end.

(** The own enumerable properties of a value, as an object spread
    [{...v}] and a rest pattern [{k, ...rest} = v] copy them. *)
Definition own_props (v : value) : object :=
  match v with
  | VObj o => o
  | VArr l => indexed 0 l
  | VStr s => indexed 0 (map (fun c => VStr [c]) s)
  | _ => []
  end.

(** [{...a, ...b}] *)
Definition assign (target : object) (source : object) : object :=
  fold_left (fun o kv => set_prop kv.1 kv.2 o) source target.

Definition spread2 (a b : value) : object :=
  assign (assign [] (own_props a)) (own_props b).

(** The [...rest] of [const {k, ...rest} = v]. *)
Definition rest_without (k : str) (v : value) : object :=
  filter (fun kv => kv.1 <> k) (own_props v).

(** ToString. *)
Fixpoint ToString (v : value) : str :=
  match v with
  | VUndef => "undefined"
  | VNull => "null"
  | VBool true => "true"
  | VBool false => "false"
  | VNum z => Z_toString z
  | VNaN => "NaN"
  | VStr s => s
  | VArr l =>
      (fix join (l : list value) : str :=
         match l with
         | [] => []
         | x :: r =>
             let e := match x with VUndef | VNull => [] | _ => ToString x end in
             match r with [] => e | _ => e ++ 44 :: join r end
         end) l
  | VObj _ => "[object Object]"
  end.

(** What [JSON.parse (JSON.stringify v)] gives for a value other than
    [undefined]: properties whose value is [undefined] are left out, and
    [undefined] in an array and [NaN] become [null]. *)
Fixpoint jsonify (v : value) : value :=
  match v with
  | VNaN => VNull
  | VArr l => VArr (map (fun x => match x with VUndef => VNull | _ => jsonify x end) l)
  | VObj o =>
      VObj ((fix props (o : object) : object :=
               match o with
               | [] => []
               | (k, x) :: r =>
                   match x with
                   | VUndef => props r
                   | _ => (k, jsonify x) :: props r
                   end
               end) o)
  | _ => v
  end.

(** The own property [k] of an object, if it has one. *)
Fixpoint find_prop (k : str) (o : object) : option value :=
  match o with
  | [] => None
  | (k', v) :: r => if bool_decide (k = k') then Some v else find_prop k r
  end.

(** The properties of an object as JSON keeps them, and a property value
    as JSON keeps it: a property that is [undefined] is not kept. *)
Definition json_props (o : object) : object :=
  match jsonify (VObj o) with VObj o' => o' | _ => [] end.

Definition as_json (x : value) : value :=
  match x with VUndef => VUndef | _ => jsonify x end.

(** [s === v] for a string [s]. *)
Definition strict_eq_str (s : str) (v : value) : bool :=
  match v with VStr s' => bool_decide (s = s') | _ => false end.

Definition of_number (n : option Z) : value :=
  match n with Some z => VNum z | None => VNaN end.

(** ** The host environment

    What the browser provides and the repository only calls: Unicode case
    mapping, number parsing, JSON, text encoding, base64, WebCrypto and the
    calendar.  The fields are uninterpreted; the laws that the proofs rely
    on are stated separately, in [HostLaws]. *)

Class Host := {
  (** [String.prototype.toUpperCase] on a string that has a code unit
      outside ASCII. *)
  upper_unicode : str -> str;
  (** ToNumber of a string; [None] is [NaN]. *)
  StringToNumber : str -> option Z;
  (** [JSON.stringify] of a value other than [undefined]. *)
  JSON_stringify : value -> str;
  (** [JSON.parse]; [None] is a SyntaxError. *)
  JSON_parse : str -> option value;
  (** [new TextEncoder().encode] and [new TextDecoder().decode]. *)
  utf8_encode : str -> list byte;
  utf8_decode : list byte -> str;
  (** [btoa] and [atob]; [None] is an InvalidCharacterError. *)
  btoa : str -> option str;
  atob : str -> option str;
  (** [crypto.subtle.deriveKey] with PBKDF2 over SHA-256: password bytes,
      salt, iterations, key length in bits. *)
  pbkdf2_sha256 : list byte -> list byte -> N -> N -> list byte;
  (** [crypto.subtle.encrypt] and [decrypt] with AES-GCM: key, iv, tag
      length in bits, data.  Decryption fails ([None]) when the tag does
      not verify. *)
  aes_gcm_encrypt : list byte -> list byte -> N -> list byte -> list byte;
  aes_gcm_decrypt : list byte -> list byte -> N -> list byte -> option (list byte);
  (** [crypto.subtle.digest('SHA-256', _)]. *)
  sha256 : list byte -> list byte;
  (** [new Date(ms).toISOString()]. *)
  toISOString : Z -> str;
}.

(** A source of random bytes, which [crypto.getRandomValues] reads from. *)
Definition entropy := nat -> byte.

(** [crypto.getRandomValues(new Uint8Array(n))], reading at offset [from]. *)
Definition getRandomValues (rnd : entropy) (from n : nat) : list byte :=
  map rnd (seq from n).

(** [String.fromCharCode(...bytes)] *)
Definition fromCharCode (bytes : list byte) : str := map Byte.to_N bytes.

(** [new Uint8Array(codes)]: each number is taken modulo 256. *)
Definition to_uint8 (c : N) : byte :=
  match Byte.of_N (c mod 256) with Some b => b | None => "000"%byte end.

(** [bytes.map(b => b.toString(16).padStart(2, '0')).join('')] *)
Definition hex (bytes : list byte) : str :=
  flat_map (fun b => padStart 2 48 (toString16 (Byte.to_N b))) bytes.

Section WithHost.
Context `{Host}.

(** [s.toUpperCase()] *)
Definition toUpperCase (s : str) : str :=
  if forallb (fun c => c <? 128) s then map upper_ascii s else upper_unicode s.

(** ToNumber; [None] is [NaN].  An array or a plain object is first turned
    into a string. *)
Definition ToNumber (v : value) : option Z :=
  match v with
  | VUndef | VNaN => None
  | VNull => Some 0%Z
  | VBool b => Some (if b then 1 else 0)%Z
  | VNum z => Some z
  | VStr s => StringToNumber s
  | VArr _ | VObj _ => StringToNumber (ToString v)
  end.

(** [a > b] for a number [b]: false when [a] is not a number. *)
Definition js_gt (a : value) (b : Z) : bool :=
  match ToNumber a with Some x => (b <? x)%Z | None => false end.

(** [a + b] for a number [b]: concatenation when [a] is a string, an array
    or an object, addition otherwise. *)
Definition js_add (a : value) (b : Z) : value :=
  match a with
  | VStr _ | VArr _ | VObj _ => VStr (ToString a ++ Z_toString b)
  | _ => of_number (x ← ToNumber a; Some (x + b)%Z)
  end.

End WithHost.

(** ** Regular expressions

    The patterns of the program are anchored at both ends and have no
    back-references, so [pattern.test(s)] decides whether [s] is in the
    language of the pattern; it is computed with derivatives. *)

Inductive regex :=
| Empty                              (* matches nothing *)
| Eps                                (* the empty string *)
| Class (p : char -> bool)           (* one code unit of a class *)
| Cat (a b : regex)
| Alt (a b : regex)
| Star (a : regex).

Fixpoint nullable (r : regex) : bool :=
  match r with
  | Empty | Class _ => false
  | Eps | Star _ => true
  | Cat a b => nullable a && nullable b
  | Alt a b => nullable a || nullable b
  end.

Definition cat (a b : regex) : regex :=
  match a, b with
  | Empty, _ | _, Empty => Empty
  | Eps, _ => b
  | _, _ => Cat a b
  end.

Definition alt (a b : regex) : regex :=
  match a, b with
  | Empty, _ => b
  | _, Empty => a
  | _, _ => Alt a b
  end.

Fixpoint deriv (c : char) (r : regex) : regex :=
  match r with
  | Empty | Eps => Empty
  | Class p => if p c then Eps else Empty
  | Cat a b =>
      if nullable a then alt (cat (deriv c a) b) (deriv c b) else cat (deriv c a) b
  | Alt a b => alt (deriv c a) (deriv c b)
  | Star a => cat (deriv c a) (Star a)
  end.

(** [/^r$/.test(s)] *)
Definition regex_test (r : regex) (s : str) : bool :=
  nullable (fold_left (fun r c => deriv c r) s r).

Definition Plus (a : regex) : regex := Cat a (Star a).          (* a+ *)
Definition Opt (a : regex) : regex := Alt a Eps.                (* a? *)
Fixpoint Rep (n : nat) (a : regex) : regex :=                   (* a{n} *)
  match n with O => Eps | S n => Cat a (Rep n a) end.
Fixpoint UpTo (n : nat) (a : regex) : regex :=                  (* a{0,n} *)
  match n with O => Eps | S n => Opt (Cat a (UpTo n a)) end.
Definition Lit (c : char) : regex := Class (N.eqb c).
Definition one_of (s : str) (c : char) : bool := existsb (N.eqb c) s.

(** ** Effects

    A method reads and writes [localStorage] and may throw.  The world also
    keeps a journal of the calls made to the security object, which lets a
    property say that a method was not invoked.  [async] methods are
    awaited one after the other, so a method is a plain state transformer. *)

Inductive exn :=
| Error (message : string)       (* [new Error(message)] *)
| TypeError                      (* thrown by the host, with its own message *)
| SyntaxError
| InvalidCharacterError
| OperationError.

Inductive outcome (A : Type) :=
| Return (a : A)
| Throw (e : exn).
Arguments Return {A} a.
Arguments Throw {A} e.

Inductive call :=
| call_prepareSecureData
| call_encryptUserData
| call_decryptUserData
| call_hashPassword
| call_generateDataHash
| call_verifyDataIntegrity.

Record World := {
  localStorage : gmap str str;
  journal : list call;             (* oldest first *)
}.

Definition M (A : Type) : Type := World -> outcome A * World.

Definition ret {A} (a : A) : M A := fun w => (Return a, w).
Definition throw {A} (e : exn) : M A := fun w => (Throw e, w).
Definition bind {A B} (m : M A) (k : A -> M B) : M B :=
  fun w => match m w with
           | (Return a, w') => k a w'
           | (Throw e, w') => (Throw e, w')
           end.
(** [try { m } catch (error) { h error }] *)
Definition try_catch {A} (m : M A) (h : exn -> M A) : M A :=
  fun w => match m w with
           | (Return a, w') => (Return a, w')
           | (Throw e, w') => h e w'
           end.

Notation "'let*' x := m 'in' k" := (bind m (fun x => k))
  (at level 10, x name, m at level 100, k at level 200).
Notation "m ;; k" := (bind m (fun _ => k))
  (at level 100, k at level 200, right associativity).

(** A host function that throws [e] where the model has [None]. *)
Definition or_throw {A} (e : exn) (o : option A) : M A :=
  match o with Some a => ret a | None => throw e end.

Definition getItem (key : str) : M (option str) :=
  fun w => (Return (localStorage w !! key), w).
Definition setItem (key : str) (v : str) : M unit :=
  fun w => (Return tt, {| localStorage := <[key := v]> (localStorage w); journal := journal w |}).
Definition removeItem (key : str) : M unit :=
  fun w => (Return tt, {| localStorage := delete key (localStorage w); journal := journal w |}).
Definition record_call (c : call) : M unit :=
  fun w => (Return tt, {| localStorage := localStorage w; journal := journal w ++ [c] |}).

(** [!s] for what [getItem] returned: [null] or the empty string. *)
Definition absent (s : option str) : bool :=
  match s with None | Some [] => true | _ => false end.

(** The result objects of the storage manager: [{success: true, ...}] with
    its other properties, or [{success: false, error}]. *)
Inductive result :=
| success (props : object)
| failure (error : exn).         (* [error] is the message of this exception *)

(** ** ServerValidation *)

Module ServerValidation.
Section Defs.
Context `{Host}.

(** [s.trim()] *)
Fixpoint trimStart (s : str) : str :=
  match s with
  | c :: r => if is_space c then trimStart r else s
  | [] => []
  end.
Definition trim (s : str) : str := reverse (trimStart (reverse (trimStart s))).

(** [s.replace(/[...]/g, '')] for a character class given by its members. *)
Definition remove_chars (cls : str) (s : str) : str :=
  filter (fun c => one_of cls c = false) s.

(** Whether the literal [w] matches at the start of [s] under the [i] flag:
    code units are compared after upper-casing, which relates an ASCII
    letter of the pattern to its two cases only. *)
Fixpoint starts_with_ci (w s : str) : bool :=
  match w, s with
  | [], _ => true
  | p :: w', c :: s' => (upper_ascii c =? upper_ascii p) && starts_with_ci w' s'
  | _ :: _, [] => false
  end.

(** [s.replace(/w/gi, '')] for a non-empty literal [w]: one pass from the
    left; after a match the scan resumes behind it ([skip] counts the code
    units of the match still to be dropped). *)
Fixpoint remove_word_from (w : str) (skip : nat) (s : str) : str :=
  match s with
  | [] => []
  | c :: s' =>
      match skip with
      | S k => remove_word_from w k s'
      | O =>
          if starts_with_ci w s then remove_word_from w (length w - 1) s'
          else c :: remove_word_from w 0 s'
      end
  end.
Definition remove_word (w : str) (s : str) : str := remove_word_from w 0 s.

(** The words [sanitizeInput] removes, in the order of its [replace] calls. *)
Definition denied_words : list str :=
  [ "script" : str; "javascript" : str; "onload" : str; "onerror" : str;
    "onclick" : str; "onmouseover" : str; "onfocus" : str; "onblur" : str;
    "onchange" : str; "onsubmit" : str; "onreset" : str; "onselect" : str;
    "onkeydown" : str; "onkeyup" : str; "onkeypress" : str ].

Definition sanitize_string (input : str) : str :=
  let s := trim input in
  let s := remove_chars "<>" s in
  let s := remove_chars [39; 34] s in         (* ' and the double quote *)
  let s := remove_chars ";" s in
  let s := remove_chars "()" s in
  let s := remove_chars "{}" s in
  let s := remove_chars "[]" s in
  let s := remove_word "script" s in
  let s := remove_word "javascript" s in
  let s := remove_word "onload" s in
  let s := remove_word "onerror" s in
  let s := remove_word "onclick" s in
  let s := remove_word "onmouseover" s in
  let s := remove_word "onfocus" s in
  let s := remove_word "onblur" s in
  let s := remove_word "onchange" s in
  let s := remove_word "onsubmit" s in
  let s := remove_word "onreset" s in
  let s := remove_word "onselect" s in
  let s := remove_word "onkeydown" s in
  let s := remove_word "onkeyup" s in
  remove_word "onkeypress" s.

Definition sanitizeInput (input : value) : value :=
  match input with
  | VStr s => VStr (sanitize_string s)
  | _ => input
  end.

(** [parseInt(ch)] of a one-character string: a decimal digit, or NaN
    ([None]). *)
Definition parseInt1 (c : char) : option N :=
  if is_digit c then Some (c - 48) else None.

(** One turn of the loop of [validateIBANChecksum],
    [remainder = (remainder * 10 + parseInt(numericString[i])) % 97];
    NaN is absorbing. *)
Definition mod97_step (remainder : option N) (c : char) : option N :=
  match remainder, parseInt1 c with
  | Some r, Some d => Some ((r * 10 + d) mod 97)
  | _, _ => None
  end.

(** [rearranged.replace(/[A-Z]/g, ch => (ch.charCodeAt(0) - 55).toString())] *)
Definition letters_to_numbers (s : str) : str :=
  flat_map (fun c => if is_upper c then toString10 (c - 55) else [c]) s.

Definition validateIBANChecksum (iban : str) : bool :=
  let cleanIban := toUpperCase (filter (fun c => is_space c = false) iban) in
  let rearranged := drop 4 cleanIban ++ take 4 cleanIban in
  let numericString := letters_to_numbers rearranged in
  let remainder := fold_left mod97_step numericString (Some 0) in
  match remainder with
  | Some 1 => true
  | _ => false
  end.

(** [/^[a-f0-9]{64}$/] *)
Definition tokenRegex : regex :=
  Rep 64 (Class (fun c => in_range 97 102 c || is_digit c)).

Definition validateSessionToken (token : value) : bool :=
  if negb (truthy token) || negb (is_string token) then false
  else regex_test tokenRegex (ToString token).

Record rate_limit := {
  allowed : bool;
  remaining : Z;
  resetTime : value;
}.

(** [checkRateLimit(identifier, action, limit, windowMs)], where [now] is
    what [Date.now()] returns. *)
Definition checkRateLimit (identifier action : str) (limit windowMs : Z) (now : Z)
  : M rate_limit :=
  let key : str := js "rate_limit_" ++ action ++ js "_" ++ identifier in
  let windowStart := (now - windowMs)%Z in
  let* stored := getItem key in
  let* parsed := or_throw SyntaxError
                   (JSON_parse (if absent stored then "[]" : str else default [] stored)) in
  match parsed with
  | VArr attempts =>
      let attempts := filter (fun timestamp => js_gt timestamp windowStart = true) attempts in
      if (limit <=? Z.of_nat (length attempts))%Z then
        ret {| allowed := false;
               remaining := 0;
               resetTime := js_add (hd VUndef attempts) windowMs |}
      else
        let attempts := attempts ++ [VNum now] in
        setItem key (JSON_stringify (VArr attempts));;
        ret {| allowed := true;
               remaining := limit - Z.of_nat (length attempts);
               resetTime := VNum (now + windowMs) |}
  | _ => throw TypeError           (* [attempts.filter] is not a function *)
  end.

End Defs.
End ServerValidation.

(** ** WaxEncountersSecurity *)

Module WaxEncountersSecurity.
Section Defs.
Context `{Host}.

Definition algorithm : str := "AES-GCM".
Definition keyLength : N := 256.
Definition ivLength : nat := 12.
Definition tagLength : N := 128.
Definition iterations : N := 100000.
Definition saltLength : nat := 32.

Definition deriveKeyFromPassword (password : str) (salt : list byte) : list byte :=
  pbkdf2_sha256 (utf8_encode password) salt iterations keyLength.

Definition generateSalt (rnd : entropy) (from : nat) : list byte :=
  getRandomValues rnd from saltLength.

Definition generateIV (rnd : entropy) (from : nat) : list byte :=
  getRandomValues rnd from ivLength.

(** [encoder.encode(JSON.stringify(data))]: [JSON.stringify(undefined)] is
    [undefined], which the encoder reads as the empty string. *)
Definition encode_json (data : value) : list byte :=
  match data with
  | VUndef => []
  | _ => utf8_encode (JSON_stringify data)
  end.

(** [encryptUserData(data, password)]; the salt and then the iv are read
    from [rnd]. *)
Definition encryptUserData (rnd : entropy) (data : value) (password : str) : M str :=
  record_call call_encryptUserData;;
  try_catch
    (let salt := generateSalt rnd 0 in
     let iv := generateIV rnd saltLength in
     let key := deriveKeyFromPassword password salt in
     let encryptedData := aes_gcm_encrypt key iv tagLength (encode_json data) in
     let combined := salt ++ iv ++ encryptedData in
     or_throw InvalidCharacterError (btoa (fromCharCode combined)))
    (fun error => throw (Error "Failed to encrypt user data")).

Definition decryptUserData (encryptedData : value) (password : str) : M value :=
  record_call call_decryptUserData;;
  try_catch
    (let* binary := or_throw InvalidCharacterError (atob (ToString encryptedData)) in
     let combined := map to_uint8 binary in
     let salt := take saltLength combined in
     let iv := take ivLength (drop saltLength combined) in
     let encrypted := drop (saltLength + ivLength) combined in
     let key := deriveKeyFromPassword password salt in
     let* decryptedData := or_throw OperationError
                             (aes_gcm_decrypt key iv tagLength encrypted) in
     or_throw SyntaxError (JSON_parse (utf8_decode decryptedData)))
    (fun error => throw (Error "Failed to decrypt user data")).

Definition hashPassword (password : str) : M str :=
  record_call call_hashPassword;;
  ret (hex (sha256 (utf8_encode password))).

Definition generateSessionToken (rnd : entropy) : str :=
  hex (getRandomValues rnd 0 32).

Definition is_alpha (c : char) : bool := is_lower c || is_upper c.
Definition is_alnum (c : char) : bool := is_alpha c || is_digit c.
Definition is_upper_alnum (c : char) : bool := is_upper c || is_digit c.

(** [/^[a-zA-Z0-9._%+-]+@[a-zA-Z0-9.-]+\.[a-zA-Z]{2,}$/] *)
Definition emailRegex : regex :=
  Cat (Plus (Class (fun c => is_alnum c || one_of "._%+-" c)))
 (Cat (Lit 64)
 (Cat (Plus (Class (fun c => is_alnum c || one_of ".-" c)))
 (Cat (Lit 46)
 (Cat (Rep 2 (Class is_alpha)) (Star (Class is_alpha)))))).

(** [/^[A-Z]{2}[0-9]{2}[A-Z0-9]{4}[0-9]{7}([A-Z0-9]?){0,16}$/] *)
Definition ibanRegex : regex :=
  Cat (Rep 2 (Class is_upper))
 (Cat (Rep 2 (Class is_digit))
 (Cat (Rep 4 (Class is_upper_alnum))
 (Cat (Rep 7 (Class is_digit))
      (UpTo 16 (Opt (Class is_upper_alnum)))))).

(** [/^[A-Z]{6}[A-Z0-9]{2}([A-Z0-9]{3})?$/] *)
Definition bicRegex : regex :=
  Cat (Rep 6 (Class is_upper))
 (Cat (Rep 2 (Class is_upper_alnum))
      (Opt (Rep 3 (Class is_upper_alnum)))).

Definition validateEmail (email : str) : bool := regex_test emailRegex email.

Definition validateIBAN (iban : str) : bool :=
  regex_test ibanRegex (filter (fun c => is_space c = false) iban).

Definition validateBIC (bic : str) : bool := regex_test bicRegex bic.

(** [generateDataHash(data)] *)
Definition generateDataHash (data : value) : M str :=
  record_call call_generateDataHash;;
  ret (hex (sha256 (encode_json data))).

(** [verifyDataIntegrity(data, expectedHash)]: [actualHash === expectedHash] *)
Definition verifyDataIntegrity (data expectedHash : value) : M bool :=
  record_call call_verifyDataIntegrity;;
  let* actualHash := generateDataHash data in
  ret (strict_eq_str actualHash expectedHash).

(** [prepareSecureData(userData, password)]; [now] is the time of
    [new Date()].  Reading a property of [null] or [undefined] throws. *)
Definition prepareSecureData (rnd : entropy) (now : Z) (userData : value)
    (password : str) : M object :=
  record_call call_prepareSecureData;;
  let* _ := or_throw TypeError (get_prop "firstName" userData) in
  let field (k : str) := default VUndef (get_prop k userData) in
  let sensitiveData := VObj [
    ("firstName" : str, field "firstName");
    ("lastName" : str, field "lastName");
    ("email" : str, field "email");
    ("phone" : str, field "phone");
    ("shippingAddress" : str, field "shippingAddress");
    ("iban" : str, field "iban");
    ("bic" : str, field "bic");
    ("bankAccountOwner" : str, field "bankAccountOwner") ] in
  let nonSensitiveData := VObj [
    ("registrationDate" : str, VStr (toISOString now));
    ("termsAccepted" : str, field "termsAccepted");
    ("privacyAccepted" : str, field "privacyAccepted");
    ("emailVerified" : str, VBool false);
    ("accountStatus" : str, VStr "pending_verification") ] in
  let* encryptedSensitiveData := encryptUserData rnd sensitiveData password in
  let* hashedPassword := hashPassword password in
  ret [ ("encryptedData" : str, VStr encryptedSensitiveData);
        ("nonSensitiveData" : str, nonSensitiveData);
        ("hashedPassword" : str, VStr hashedPassword);
        ("securityMetadata" : str, VObj [
           ("encryptionAlgorithm" : str, VStr algorithm);
           ("keyDerivation" : str, VStr "PBKDF2");
           ("iterations" : str, VNum (Z.of_N iterations));
           ("saltLength" : str, VNum (Z.of_nat saltLength));
           ("ivLength" : str, VNum (Z.of_nat ivLength));
           ("tagLength" : str, VNum (Z.of_N tagLength));
           ("encryptedAt" : str, VStr (toISOString now)) ]) ].

End Defs.
End WaxEncountersSecurity.

(** ** SecureStorageManager

    [now] is what [Date.now()] returns during the call: the clock does not
    advance within one method. *)

Module SecureStorageManager.
Import WaxEncountersSecurity.
Section Defs.
Context `{Host}.

Definition storagePrefix : str := "wax_encounters_".
Definition sessionKey : str := "user_session".
Definition userDataKey : str := "user_data".
Definition maxStorageAge : Z := 30 * 24 * 60 * 60 * 1000.

(** [JSON.stringify(v)] where a string is expected: [undefined] is printed
    as such. *)
Definition stringify (v : value) : str :=
  match v with VUndef => "undefined" : str | _ => JSON_stringify v end.

Definition setSession (sessionData : value) : M unit :=
  setItem (storagePrefix ++ sessionKey) (stringify sessionData).

Definition getSession : M value :=
  let* sessionData := getItem (storagePrefix ++ sessionKey) in
  if absent sessionData then ret VNull
  else or_throw SyntaxError (JSON_parse (default [] sessionData)).

(** [updateSession(isActive)].  The class body is strict code: assigning
    to a property of a primitive throws; on an array the two properties are
    set but are not part of its JSON text. *)
Definition updateSession (isActive : bool) (now : Z) : M unit :=
  let* session := getSession in
  if truthy session then
    match session with
    | VObj o =>
        let o := set_prop "lastActivity" (VNum now) o in
        let o := set_prop "isActive" (VBool isActive) o in
        setSession (VObj o)
    | VArr l => setSession (VArr l)
    | _ => throw TypeError
    end
  else ret tt.

Definition clearSession : M unit := removeItem (storagePrefix ++ sessionKey).

Definition initializeSession (rnd : entropy) (now : Z) : M unit :=
  let* existingSession := getSession in
  if negb (truthy existingSession) then
    setSession (VObj [
      ("sessionId" : str, VStr (generateSessionToken rnd));
      ("createdAt" : str, VNum now);
      ("lastActivity" : str, VNum now);
      ("isActive" : str, VBool false) ])
  else ret tt.

(** [isSessionValid()]: [session.isActive && sessionAge < 24h], which is
    the value of [session.isActive] when that is falsy. *)
Definition isSessionValid (now : Z) : M value :=
  let* session := getSession in
  if negb (truthy session) then ret (VBool false)
  else
    let* lastActivity := or_throw TypeError (get_prop "lastActivity" session) in
    let sessionAge := (x ← ToNumber lastActivity; Some (now - x)%Z) in
    let* isActive := or_throw TypeError (get_prop "isActive" session) in
    if truthy isActive then
      ret (VBool (match sessionAge with
                  | Some age => (age <? 24 * 60 * 60 * 1000)%Z
                  | None => false
                  end))
    else ret isActive.

Definition requiredFields : list str :=
  [ "firstName" : str; "lastName" : str; "email" : str; "shippingAddress" : str;
    "iban" : str; "bic" : str; "bankAccountOwner" : str; "password" : str ].

(** [validateUserData(userData)].  Past the loop the three fields it
    passes on are strings. *)
Definition validateUserData (userData : value) : M bool :=
  let* _ := or_throw TypeError (get_prop "firstName" userData) in
  let field (k : str) := default VUndef (get_prop k userData) in
  if existsb (fun k => negb (truthy (field k)) || negb (is_string (field k)))
       requiredFields
  then ret false
  else if negb (validateEmail (ToString (field "email"))) then ret false
  else if negb (validateIBAN (ToString (field "iban"))) then ret false
  else if negb (validateBIC (ToString (field "bic"))) then ret false
  else ret true.

Definition storeUserData (rnd : entropy) (now : Z) (userData : value)
    (password : str) : M result :=
  try_catch
    (let* valid := validateUserData userData in
     if negb valid then throw (Error "Invalid user data provided")
     else
       let* secureData := prepareSecureData rnd now userData password in
       let storageObject :=
         set_prop "version" (VStr "1.0")
           (set_prop "storedAt" (VNum now) (assign [] secureData)) in
       let* dataHash := generateDataHash (VObj storageObject) in
       let storageObject := set_prop "dataHash" (VStr dataHash) storageObject in
       let storageKey := storagePrefix ++ userDataKey in
       setItem storageKey (stringify (VObj storageObject));;
       updateSession true now;;
       let* session := getSession in
       let* sessionId := or_throw TypeError (get_prop "sessionId" session) in
       ret (success [ ("sessionId" : str, sessionId);
                      ("message" : str, VStr "User data stored securely") ]))
    (fun error => ret (failure error)).

Definition retrieveUserData (password : str) (now : Z) : M result :=
  try_catch
    (let storageKey := storagePrefix ++ userDataKey in
     let* storedData := getItem storageKey in
     if absent storedData then ret (failure (Error "No user data found"))
     else
       let* parsedData := or_throw SyntaxError (JSON_parse (default [] storedData)) in
       let* dataHash := or_throw TypeError (get_prop "dataHash" parsedData) in
       let dataToVerify := VObj (rest_without "dataHash" parsedData) in
       let* isValid := verifyDataIntegrity dataToVerify dataHash in
       if negb isValid then throw (Error "Data integrity check failed")
       else
         let encryptedData := default VUndef (get_prop "encryptedData" parsedData) in
         let* decryptedData := decryptUserData encryptedData password in
         updateSession true now;;
         let nonSensitiveData := default VUndef (get_prop "nonSensitiveData" parsedData) in
         ret (success [ ("data" : str, VObj (spread2 decryptedData nonSensitiveData)) ]))
    (fun error => ret (failure (Error "Failed to retrieve user data"))).

Definition updateUserData (rnd : entropy) (now : Z) (updatedData : value)
    (password : str) : M result :=
  try_catch
    (let* existingData := retrieveUserData password now in
     match existingData with
     | failure _ => throw (Error "Cannot retrieve existing data")
     | success props =>
         let mergedData := spread2 (lookup_prop "data" props) updatedData in
         storeUserData rnd now (VObj mergedData) password
     end)
    (fun error => ret (failure error)).

Definition deleteUserData : M result :=
  try_catch
    (removeItem (storagePrefix ++ userDataKey);;
     clearSession;;
     ret (success [ ("message" : str, VStr "User data deleted successfully") ]))
    (fun error => ret (failure error)).

End Defs.
End SecureStorageManager.

(** ** What the proofs assume of the host

    The contracts of the platform functions, as their standards state
    them: JSON text parses back to the value it was written from (up to
    what [JSON.stringify] leaves out), the encoder and the decoder are
    inverse on JSON text, [atob] undoes [btoa] on byte strings, and AES-GCM
    decrypts what it encrypted under the same key and iv. *)

Class HostLaws `{Host} : Prop := {
  json_roundtrip : forall v, v <> VUndef -> JSON_parse (JSON_stringify v) = Some (jsonify v);
  json_skips_undefined : forall v, JSON_stringify (jsonify v) = JSON_stringify v;
  json_parse_empty_array : JSON_parse "[]" = Some (VArr []);
  json_parse_empty_text : JSON_parse [] = None;
  utf8_roundtrip : forall v, utf8_decode (utf8_encode (JSON_stringify v)) = JSON_stringify v;
  base64_roundtrip : forall bytes,
    exists text, btoa (fromCharCode bytes) = Some text /\ atob text = Some (fromCharCode bytes);
  aes_gcm_roundtrip : forall key iv tag data,
    aes_gcm_decrypt key iv tag (aes_gcm_encrypt key iv tag data) = Some data;
}.

(** ** The design document's wording

    Definitions that follow the words of the design document, or that the
    statements of the properties need; the properties compare them with the
    program above. *)

Module IBANChecksum.
Section Defs.
Context `{Host}.

(** The procedure as the design document words it: move the first four
    characters to the end, write each letter as the two digits of its code
    minus 55, read the digit string as a decimal number. *)
Definition rearrange (s : str) : str := drop 4 s ++ take 4 s.

Definition two_digits (c : char) : str :=
  [48 + (c - 55) / 10; 48 + (c - 55) mod 10].

Definition digit_string (s : str) : str :=
  flat_map (fun c => if is_upper c then two_digits c else [c]) s.

(** The number a digit string denotes, read after the digits of [acc];
    [None] when a character is not a digit. *)
Fixpoint decimal (acc : N) (s : str) : option N :=
  match s with
  | [] => Some acc
  | c :: r => if is_digit c then decimal (acc * 10 + (c - 48)) r else None
  end.

Definition mod97_is_1 (iban : str) : Prop :=
  let clean := toUpperCase (filter (fun c => is_space c = false) iban) in
  exists n, decimal 0 (digit_string (rearrange clean)) = Some n /\ n mod 97 = 1.

Definition example_iban : str := "DE89370400440532013000".

End Defs.
End IBANChecksum.

Module SessionToken.

Definition is_lower_hex (c : char) : bool := in_range 97 102 c || is_digit c.


End SessionToken.

Module Sanitizer.
Import ServerValidation.

(** The characters the sanitizer removes: angle brackets, quotes,
    semicolon, parentheses, braces, square brackets. *)
Definition denied_chars : str := [60; 62; 39; 34; 59; 40; 41; 123; 125; 91; 93].

(** A case-insensitive occurrence of [w] somewhere in [s]. *)
Fixpoint word_occurs (w s : str) : bool :=
  starts_with_ci w s || match s with [] => false | _ :: r => word_occurs w r end.

(** The characters of [s] that are not denied, in their order. *)
Definition without_denied_chars (s : str) : str :=
  filter (fun c => one_of denied_chars c = false) s.

(** [m] spells the word [w] in some letter case, and [s] begins with the
    word. *)
Definition spells (w m : str) : Prop :=
  Forall2 (fun p c => upper_ascii c = upper_ascii p) w m.

Definition begins_with (w s : str) : Prop :=
  exists m rest, spells w m /\ s = m ++ rest.

(** One pass over a string from the left that deletes the word [w]: where
    what is left of the string begins with the word, that occurrence is
    dropped and the pass goes on behind it; elsewhere the character is kept
    and the pass goes on with the next one.  What a deletion joins is not
    looked at again. *)
Inductive one_pass (w : str) : str -> str -> Prop :=
  | pass_end : one_pass w [] []
  | pass_delete (m rest out : str) :
      spells w m -> one_pass w rest out -> one_pass w (m ++ rest) out
  | pass_keep (c : char) (s out : str) :
      ~ begins_with w (c :: s) -> one_pass w s out -> one_pass w (c :: s) (c :: out).

(** The passes for the words [ws], one after the other. *)
Inductive passes_in_order : list str -> str -> str -> Prop :=
  | passes_nil (s : str) : passes_in_order [] s s
  | passes_cons (w : str) (ws : list str) (s t out : str) :
      one_pass w s t -> passes_in_order ws t out -> passes_in_order (w :: ws) s out.

(** The passes of [sanitize_string] after [trim], in order. *)
Definition passes : list (str -> str) :=
  map remove_chars [ "<>" : str; [39; 34]; ";" : str; "()" : str; "{}" : str; "[]" : str ]
  ++ map remove_word denied_words.

(** A pass only deletes: it keeps whatever holds of every character, it
    does not lengthen, and it changes a string only by shortening it. *)
Record deleting (f : str -> str) : Prop := {
  del_keeps : forall (P : char -> Prop) s, Forall P s -> Forall P (f s);
  del_length : forall s, (length (f s) <= length s)%nat;
  del_fixed : forall s, length (f s) = length s -> f s = s;
}.

End Sanitizer.

Module RateLimiter.
Section Defs.
Context `{Host}.

Definition rate_key (identifier action : str) : str :=
  js "rate_limit_" ++ action ++ js "_" ++ identifier.

(** The attempts recorded under a key are the time stamps [ts]: the key
    holds their JSON array, or nothing when there are none yet. *)
Definition recorded (w : World) (key : str) (ts : list Z) : Prop :=
  localStorage w !! key = Some (JSON_stringify (VArr (VNum <$> ts)))
  \/ (ts = [] /\ localStorage w !! key = None).

Definition record_attempts (w : World) (key : str) (ts : list Z) : World :=
  {| localStorage := <[key := JSON_stringify (VArr (VNum <$> ts))]> (localStorage w);
     journal := journal w |}.

End Defs.
End RateLimiter.

(** ** A model of the host

    The laws of [HostLaws] are consistent: the host below satisfies them.
    Its JSON text is a tagged prefix code rather than JSON syntax, its
    cipher appends the key to the data, and its digest is the identity;
    only the laws matter to the proofs.  The examples that run the program
    on concrete inputs use this host. *)

Module ModelHost.

(** The text of a value: a tag, then the payload; strings, arrays and
    objects announce their length. *)
Definition enc_str (s : str) : list N := N.of_nat (length s) :: s.

Fixpoint enc (v : value) : list N :=
  match v with
  | VUndef => [0]
  | VNull => [1]
  | VBool b => [2; if b then 1 else 0]
  | VNum z => [3; if (z <? 0)%Z then 1 else 0; Z.abs_N z]
  | VNaN => [4]
  | VStr s => 5 :: enc_str s
  | VArr l => 6 :: N.of_nat (length l) :: flat_map enc l
  | VObj o => 7 :: N.of_nat (length o) :: flat_map (fun kv => enc_str kv.1 ++ enc kv.2) o
  end.

Definition dec_str (l : list N) : option (str * list N) :=
  match l with
  | n :: r =>
      if (length r <? N.to_nat n)%nat then None
      else Some (take (N.to_nat n) r, drop (N.to_nat n) r)
  | [] => None
  end.

Fixpoint dec (fuel : nat) (l : list N) : option (value * list N) :=
  match fuel with
  | O => None
  | S f =>
      match l with
      | 0 :: r => Some (VUndef, r)
      | 1 :: r => Some (VNull, r)
      | 2 :: b :: r => Some (VBool (negb (b =? 0)), r)
      | 3 :: s :: n :: r => Some (VNum (if s =? 0 then Z.of_N n else - Z.of_N n), r)
      | 4 :: r => Some (VNaN, r)
      | 5 :: r => match dec_str r with Some (s, r') => Some (VStr s, r') | None => None end
      | 6 :: n :: r =>
          match
            (fix elems (n : nat) (r : list N) : option (list value * list N) :=
               match n with
               | O => Some ([], r)
               | S n' =>
                   match dec f r with
                   | Some (x, r') =>
                       match elems n' r' with
                       | Some (xs, r'') => Some (x :: xs, r'')
                       | None => None
                       end
                   | None => None
                   end
               end) (N.to_nat n) r
          with
          | Some (xs, r') => Some (VArr xs, r')
          | None => None
          end
      | 7 :: n :: r =>
          match
            (fix props (n : nat) (r : list N) : option (object * list N) :=
               match n with
               | O => Some ([], r)
               | S n' =>
                   match dec_str r with
                   | Some (k, r1) =>
                       match dec f r1 with
                       | Some (x, r') =>
                           match props n' r' with
                           | Some (xs, r'') => Some ((k, x) :: xs, r'')
                           | None => None
                           end
                       | None => None
                       end
                   | None => None
                   end
               end) (N.to_nat n) r
          with
          | Some (o, r') => Some (VObj o, r')
          | None => None
          end
      | _ => None
      end
  end.

Definition json_text (v : value) : str := enc (jsonify v).

Definition json_parse (text : str) : option value :=
  if bool_decide (text = js "[]") then Some (VArr [])
  else match dec (length text) text with
       | Some (v, []) => Some v
       | _ => None
       end.

(** Text encoding: a code unit is written in binary, lowest bit first,
    and closed by its highest bit. *)
Fixpoint enc_pos (p : positive) : list byte :=
  match p with
  | xH => [x02]
  | xO q => x00 :: enc_pos q
  | xI q => x01 :: enc_pos q
  end.

Definition enc_char (c : N) : list byte :=
  match c with N0 => [x03] | Npos p => enc_pos p end.

Definition encode (s : str) : list byte := flat_map enc_char s.

Definition dec_step (b : byte) (acc : str) : str :=
  match b, acc with
  | x03, _ => 0 :: acc
  | x02, _ => 1 :: acc
  | x00, c :: r => 2 * c :: r
  | x01, c :: r => 2 * c + 1 :: r
  | _, _ => acc
  end.

Definition decode (bytes : list byte) : str := fold_right dec_step [] bytes.

#[local] Instance byte_eq_decision : EqDecision byte := Byte.byte_eq_dec.

(** The cipher: the key and the iv are appended to the data, and checked
    on the way back. *)
Definition seal (key iv : list byte) (tag : N) (data : list byte) : list byte :=
  data ++ key ++ iv.

Definition unseal (key iv : list byte) (tag : N) (sealed : list byte) : option (list byte) :=
  let n := (length sealed - length (key ++ iv))%nat in
  if bool_decide (drop n sealed = key ++ iv) then Some (take n sealed) else None.

#[export] Instance host : Host := {|
  upper_unicode := fun s => s;
  StringToNumber := fun _ => None;
  JSON_stringify := json_text;
  JSON_parse := json_parse;
  utf8_encode := encode;
  utf8_decode := decode;
  btoa := fun s => if forallb (fun c => c <? 256) s then Some s else None;
  atob := fun s => Some s;
  pbkdf2_sha256 := fun password salt _ _ => password ++ salt;
  aes_gcm_encrypt := seal;
  aes_gcm_decrypt := unseal;
  sha256 := fun data => data;
  toISOString := Z_toString;
|}.

End ModelHost.

Module Crypto.

(** A JSON-serializable value: one that [JSON.stringify] can write and
    that reads back unchanged, that is, a value other than [undefined]
    with no [undefined] member and no [NaN] inside. *)
Definition json_serializable (d : value) : Prop :=
  d <> VUndef /\ jsonify d = d.

(** The world after the given calls were journalled. *)
Definition journalled (w : World) (cs : list call) : World :=
  {| localStorage := localStorage w; journal := journal w ++ cs |}.

End Crypto.

Module Storage.
Import WaxEncountersSecurity SecureStorageManager.
Section Defs.
Context `{Host}.

Definition dataKey : str := storagePrefix ++ userDataKey.
Definition sessKey : str := storagePrefix ++ sessionKey.

(** [r.k], [undefined] when [r] has no such property. *)
Definition field (k : str) (r : value) : value := default VUndef (get_prop k r).

Definition nonempty_string (v : value) : Prop := exists s, v = VStr s /\ s <> [].

(** The format checks of the storage manager on a record. *)
Definition formats_pass (r : value) : Prop :=
  validateEmail (ToString (field "email" r)) = true
  /\ validateIBAN (ToString (field "iban" r)) = true
  /\ validateBIC (ToString (field "bic" r)) = true.

(** The gate of [storeUserData] as the code has it: the eight required
    fields, [password] among them and [phone] not, are non-empty strings,
    and the formats pass. *)
Definition acceptable (r : value) : Prop :=
  (nonempty_string (field "firstName" r)
   /\ nonempty_string (field "lastName" r)
   /\ nonempty_string (field "email" r)
   /\ nonempty_string (field "shippingAddress" r)
   /\ nonempty_string (field "iban" r)
   /\ nonempty_string (field "bic" r)
   /\ nonempty_string (field "bankAccountOwner" r)
   /\ nonempty_string (field "password" r))
  /\ formats_pass r.

(** The gate as the design document words it: the eight sensitive fields,
    [phone] among them, are non-empty strings, and the formats pass. *)
Definition sensitive_fields_valid (r : value) : Prop :=
  (nonempty_string (field "firstName" r)
   /\ nonempty_string (field "lastName" r)
   /\ nonempty_string (field "email" r)
   /\ nonempty_string (field "phone" r)
   /\ nonempty_string (field "shippingAddress" r)
   /\ nonempty_string (field "iban" r)
   /\ nonempty_string (field "bic" r)
   /\ nonempty_string (field "bankAccountOwner" r))
  /\ formats_pass r.

Definition is_failure (r : result) : Prop :=
  match r with failure _ => True | success _ => False end.

(** A session object is stored: the session key holds the JSON text of an
    object. *)
Definition session_stored (w : World) (session : object) : Prop :=
  exists text, localStorage w !! sessKey = Some text
               /\ JSON_parse text = Some (VObj session).

(** What [storeUserData] builds from a record [r], given the text [enc]
    that [encryptUserData] returned: the two halves of the record, the
    secure data, the storage object, and the envelope, which is the storage
    object with its hash. *)
Definition sensitive (r : value) : value :=
  VObj [ ("firstName" : str, field "firstName" r);
         ("lastName" : str, field "lastName" r);
         ("email" : str, field "email" r);
         ("phone" : str, field "phone" r);
         ("shippingAddress" : str, field "shippingAddress" r);
         ("iban" : str, field "iban" r);
         ("bic" : str, field "bic" r);
         ("bankAccountOwner" : str, field "bankAccountOwner" r) ].

Definition non_sensitive (now : Z) (r : value) : value :=
  VObj [ ("registrationDate" : str, VStr (toISOString now));
         ("termsAccepted" : str, field "termsAccepted" r);
         ("privacyAccepted" : str, field "privacyAccepted" r);
         ("emailVerified" : str, VBool false);
         ("accountStatus" : str, VStr "pending_verification") ].

Definition secure_data (enc : str) (now : Z) (r : value) (password : str) : object :=
  [ ("encryptedData" : str, VStr enc);
    ("nonSensitiveData" : str, non_sensitive now r);
    ("hashedPassword" : str, VStr (hex (sha256 (utf8_encode password))));
    ("securityMetadata" : str, VObj [
       ("encryptionAlgorithm" : str, VStr algorithm);
       ("keyDerivation" : str, VStr "PBKDF2");
       ("iterations" : str, VNum (Z.of_N iterations));
       ("saltLength" : str, VNum (Z.of_nat saltLength));
       ("ivLength" : str, VNum (Z.of_nat ivLength));
       ("tagLength" : str, VNum (Z.of_N tagLength));
       ("encryptedAt" : str, VStr (toISOString now)) ]) ].

Definition storage_object (enc : str) (now : Z) (r : value) (password : str) : object :=
  secure_data enc now r password
  ++ [ ("storedAt" : str, VNum now); ("version" : str, VStr "1.0") ].

Definition data_hash (o : object) : str := hex (sha256 (encode_json (VObj o))).

Definition envelope (enc : str) (now : Z) (r : value) (password : str) : object :=
  storage_object enc now r password
  ++ [ ("dataHash" : str, VStr (data_hash (storage_object enc now r password))) ].

(** The world once [storeUserData] has written the envelope. *)
Definition written (w : World) (enc : str) (now : Z) (r : value) (password : str) : World :=
  {| localStorage :=
       <[dataKey := JSON_stringify (VObj (envelope enc now r password))]> (localStorage w);
     journal := journal w ++ [call_prepareSecureData; call_encryptUserData;
                              call_hashPassword; call_generateDataHash] |}.

(** The end of [storeUserData], after the envelope is written. *)
Definition report_session (now : Z) : M result :=
  updateSession true now;;
  let* session := getSession in
  let* sessionId := or_throw TypeError (get_prop "sessionId" session) in
  ret (success [ ("sessionId" : str, sessionId);
                 ("message" : str, VStr "User data stored securely") ]).

(** The rest of [retrieveUserData], once the integrity check has passed. *)
Definition decrypt_and_merge (password : str) (now : Z) (parsedData : value) : M result :=
  let* decryptedData := decryptUserData (field "encryptedData" parsedData) password in
  updateSession true now;;
  ret (success [ ("data" : str,
                  VObj (spread2 decryptedData (field "nonSensitiveData" parsedData))) ]).

(** A typed session is stored: an object whose [isActive] is the boolean
    [b] and whose [lastActivity] is the number [t]. *)
Definition typed_session (w : World) (b : bool) (t : Z) : Prop :=
  exists session, session_stored w session
    /\ lookup_prop "isActive" session = VBool b
    /\ lookup_prop "lastActivity" session = VNum t.

(** The session key holds nothing, or a typed session. *)
Definition session_well_typed (w : World) : Prop :=
  absent (localStorage w !! sessKey) = true \/ exists b t, typed_session w b t.

(** The fields of a stored record that [updateUserData] carries over
    from the merged record, and the ones it sets anew. *)
Definition carried_fields : list str :=
  [ "firstName" : str; "lastName" : str; "email" : str; "phone" : str;
    "shippingAddress" : str; "iban" : str; "bic" : str; "bankAccountOwner" : str;
    "termsAccepted" : str; "privacyAccepted" : str ].

Definition reset_fields : list str :=
  [ "registrationDate" : str; "emailVerified" : str; "accountStatus" : str ].

End Defs.
End Storage.

(** ** Example data

    Concrete inputs, run on the model host. *)

Module Examples.
Import ModelHost SecureStorageManager.

(** Random bytes 0, 1, 2, ... *)
Definition rnd0 : entropy :=
  fun n => match Byte.of_N (N.of_nat n mod 256) with Some b => b | None => x00 end.

Definition empty_world : World := {| localStorage := ∅; journal := [] |}.

(** The world after [initialize()] on an empty storage, at time 1000. *)
Definition fresh_world : World := (initializeSession rnd0 1000 empty_world).2.

(** A registration record: all required fields, no phone number. *)
Definition ada : value := VObj [
  ("firstName" : str, VStr "Ada");
  ("lastName" : str, VStr "Lovelace");
  ("email" : str, VStr "ada@example.com");
  ("shippingAddress" : str, VStr "12 Analytical Row");
  ("iban" : str, VStr "DE89370400440532013000");
  ("bic" : str, VStr "DEUTDEFF");
  ("bankAccountOwner" : str, VStr "Ada Lovelace");
  ("password" : str, VStr "Secret1!");
  ("termsAccepted" : str, VBool true);
  ("privacyAccepted" : str, VBool true) ].

(** The eight sensitive fields, the phone number among them, and no
    [password] property. *)
Definition ada_without_password : value := VObj [
  ("firstName" : str, VStr "Ada");
  ("lastName" : str, VStr "Lovelace");
  ("email" : str, VStr "ada@example.com");
  ("phone" : str, VStr "+441234567");
  ("shippingAddress" : str, VStr "12 Analytical Row");
  ("iban" : str, VStr "DE89370400440532013000");
  ("bic" : str, VStr "DEUTDEFF");
  ("bankAccountOwner" : str, VStr "Ada Lovelace") ].

(** The world after [ada] was stored, at time 2000, with password
    [Secret1!]. *)
Definition stored_world : World :=
  (storeUserData rnd0 2000 ada "Secret1!" fresh_world).2.

(** The session object and the logical record that [stored_world] holds. *)
Definition stored_session : object :=
  match JSON_parse (default [] (localStorage stored_world !! Storage.sessKey)) with
  | Some (VObj o) => o
  | _ => []
  end.

Definition retrieved : outcome result * World :=
  retrieveUserData "Secret1!" 3000 stored_world.

Definition retrieved_props : object :=
  match retrieved.1 with Return (success props) => props | _ => [] end.

(** An update that names the password again, and one that does not. *)
Definition new_phone_and_password : value :=
  VObj [ ("phone" : str, VStr "+4912345"); ("password" : str, VStr "Secret1!") ].

Definition new_phone : value := VObj [ ("phone" : str, VStr "+4912345") ].

(** [stored_world] with the hash of the envelope replaced. *)
Definition tampered_world : World :=
  match JSON_parse (default [] (localStorage stored_world !! Storage.dataKey)) with
  | Some (VObj env) =>
      {| localStorage :=
           <[Storage.dataKey := JSON_stringify (VObj (set_prop "dataHash" (VStr "00") env))]>
             (localStorage stored_world);
         journal := [] |}
  | _ => stored_world
  end.

(** A payload for [encryptUserData]. *)
Definition payload : value :=
  VObj [ ("firstName" : str, VStr "Ada");
         ("visits" : str, VNum 3);
         ("tags" : str, VArr [VNull; VBool true; VStr "vinyl"]) ].

End Examples.

(** ** The rest of the three classes

    The methods of [ServerValidation], [WaxEncountersSecurity] and
    [SecureStorageManager] that the design document's properties do not
    name, with the same conventions as above. *)

(** [s.split(sep)] for a separator of one code unit. *)
Fixpoint js_split (sep : char) (s : str) : list str :=
  match s with
  | [] => [[]]
  | c :: r =>
      if c =? sep then [] :: js_split sep r
      else match js_split sep r with
           | piece :: pieces => (c :: piece) :: pieces
           | [] => [[c]]
           end
  end.

(** [s.startsWith(prefix)] *)
Fixpoint startsWith (prefix s : str) : bool :=
  match prefix, s with
  | [], _ => true
  | a :: prefix', b :: s' => (a =? b) && startsWith prefix' s'
  | _ :: _, [] => false
  end.

(** [/[class]/.test(s)], a pattern without anchors: some code unit of [s]
    is in the class. *)
Definition contains (cls : char -> bool) (s : str) : bool := existsb cls s.

(** The classes of a pattern do not tell the code unit [c] from [d]. *)
Fixpoint indistinct (c d : char) (r : regex) : Prop :=
  match r with
  | Class p => p c = p d
  | Cat a b | Alt a b => indistinct c d a /\ indistinct c d b
  | Star a => indistinct c d a
  | Empty | Eps => True
  end.

(** *** ServerValidation.checkPasswordStrength *)

Module PasswordStrength.

(** The object [score]; its first property is called [length] in the
    program. *)
Record score_details := {
  length_ : Z;
  lowercase : Z;
  uppercase : Z;
  numbers : Z;
  special : Z;
}.

Record password_strength := {
  score : Z;
  strength : str;
  details : score_details;
}.

Definition is_special (c : char) : bool := one_of "@$!%*?&" c.

Definition point (b : bool) : Z := if b then 1%Z else 0%Z.

Definition checkPasswordStrength (password : str) : password_strength :=
  let score :=
    {| length_ := point (8 <=? length password)%nat;
       lowercase := point (contains is_lower password);
       uppercase := point (contains is_upper password);
       numbers := point (contains is_digit password);
       special := point (contains is_special password) |} in
  let totalScore :=
    (0 + length_ score + lowercase score + uppercase score + numbers score
     + special score)%Z in
  let strength : str :=
    if (4 <=? totalScore)%Z then "strong" : str
    else if (3 <=? totalScore)%Z then "medium" : str
    else "weak" : str in
  {| score := totalScore; strength := strength; details := score |}.

End PasswordStrength.

(** *** ServerValidation.validateEmailDomain and isValidCustomDomain *)

Module EmailDomain.
Import WaxEncountersSecurity.

Definition validDomains : list str :=
  [ "gmail.com" : str; "yahoo.com" : str; "hotmail.com" : str; "outlook.com" : str;
    "icloud.com" : str; "protonmail.com" : str; "tutanota.com" : str;
    "fastmail.com" : str; "zoho.com" : str; "mail.com" : str; "yandex.com" : str;
    "aol.com" : str ].

Definition is_alnum_hyphen (c : char) : bool := is_alnum c || (c =? 45).

(** [[a-zA-Z0-9]([a-zA-Z0-9\-]{0,61}[a-zA-Z0-9])?], one label of a domain. *)
Definition label : regex :=
  Cat (Class is_alnum)
      (Opt (Cat (UpTo 61 (Class is_alnum_hyphen)) (Class is_alnum))).

(** [/^label(\.label)*$/] *)
Definition domainRegex : regex := Cat label (Star (Cat (Lit 46) label)).

(** [domainRegex.test(domain)]: the argument is turned into a string. *)
Definition isValidCustomDomain (domain : value) : bool :=
  regex_test domainRegex (ToString domain).

(** [email.split('@')[1]] *)
Definition domain_of (email : str) : value :=
  match js_split 64 email !! 1%nat with
  | Some d => VStr d
  | None => VUndef
  end.

Definition validateEmailDomain (email : str) : bool :=
  let domain := domain_of email in
  existsb (fun d => strict_eq_str d domain) validDomains
  || isValidCustomDomain domain.

End EmailDomain.

(** *** ServerValidation: card number, expiry date, CVV *)

Module Payment.
Import ServerValidation.

(** [/^[0-9]{13,19}$/] *)
Definition cardRegex : regex :=
  Cat (Rep 13 (Class is_digit)) (UpTo 6 (Class is_digit)).

(** One turn of the Luhn loop, which runs from the last character to the
    first; [None] is NaN, which [parseInt] gives on a character that is
    not a digit. *)
Definition luhn_digit (isEven : bool) (digit : N) : N :=
  if isEven then (if 9 <? digit * 2 then digit * 2 - 9 else digit * 2) else digit.

Definition luhn_step (state : option N * bool) (c : char) : option N * bool :=
  let '(sum, isEven) := state in
  (s ← sum; d ← parseInt1 c; Some (s + luhn_digit isEven d), negb isEven).

Definition validateCardNumber (cardNumber : str) : bool :=
  let cleanNumber := filter (fun c => is_space c = false) cardNumber in
  if negb (regex_test cardRegex cleanNumber) then false
  else
    match (fold_left luhn_step (reverse cleanNumber) (Some 0, false)).1 with
    | Some sum => sum mod 10 =? 0
    | None => false
    end.

(** The sum the Luhn loop adds up over a string of digits, read in the
    order of the loop. *)
Fixpoint luhn_total (isEven : bool) (l : str) : N :=
  match l with
  | [] => 0
  | c :: r => luhn_digit isEven (c - 48) + luhn_total (negb isEven) r
  end.

(** [/^(0[1-9]|1[0-2])\/([0-9]{2})$/] *)
Definition expiryRegex : regex :=
  Cat (Alt (Cat (Lit 48) (Class (in_range 49 57)))
           (Cat (Lit 49) (Class (in_range 48 50))))
 (Cat (Lit 47) (Rep 2 (Class is_digit))).

(** [parseInt(s)] of a string that starts with a decimal digit: the number
    its leading digits denote.  The pattern lets nothing else through. *)
Fixpoint leading_digits (acc : N) (s : str) : N :=
  match s with
  | c :: r => if is_digit c then leading_digits (acc * 10 + (c - 48)) r else acc
  | [] => acc
  end.

Definition parseInt (s : str) : option Z :=
  match s with
  | c :: _ => if is_digit c then Some (Z.of_N (leading_digits 0 s)) else None
  | [] => None
  end.

(** [a < b] and [a === b] for a number [b]; false when [a] is NaN. *)
Definition js_lt (a : option Z) (b : Z) : bool :=
  match a with Some x => (x <? b)%Z | None => false end.
Definition js_eq (a : option Z) (b : Z) : bool :=
  match a with Some x => (x =? b)%Z | None => false end.

(** [validateExpiryDate(expiryDate)] for a string; [fullYear] and
    [monthIndex] are what [getFullYear()] and [getMonth()] of the current
    date return. *)
Definition validateExpiryDate (fullYear monthIndex : Z) (expiryDate : str) : bool :=
  if negb (regex_test expiryRegex expiryDate) then false
  else
    let parts := js_split 47 expiryDate in
    let month := default [] (parts !! 0%nat) in
    let year := default [] (parts !! 1%nat) in
    let currentYear := Z.rem fullYear 100 in
    let currentMonth := (monthIndex + 1)%Z in
    let expiryYear := parseInt year in
    let expiryMonth := parseInt month in
    if js_lt expiryYear currentYear
       || (js_eq expiryYear currentYear && js_lt expiryMonth currentMonth)
    then false
    else true.

(** [/^[0-9]{3,4}$/] *)
Definition cvvRegex : regex := Cat (Rep 3 (Class is_digit)) (UpTo 1 (Class is_digit)).

Definition validateCVV (cvv : value) : bool := regex_test cvvRegex (ToString cvv).

End Payment.

(** *** WaxEncountersSecurity: storeSecureData, retrieveSecureData,
    clearSecureData *)

Module SecureData.
Import WaxEncountersSecurity.
Section Defs.
Context `{Host}.

Definition storeSecureData (rnd : entropy) (now : Z) (key : str) (data : value)
    (password : str) : M bool :=
  try_catch
    (let* encryptedData := encryptUserData rnd data password in
     let storageData := VObj [
       ("encrypted" : str, VStr encryptedData);
       ("timestamp" : str, VNum now);
       ("version" : str, VStr "1.0") ] in
     setItem key (JSON_stringify storageData);;
     ret true)
    (fun error => ret false).

Definition retrieveSecureData (key : str) (password : str) : M value :=
  try_catch
    (let* storedData := getItem key in
     if absent storedData then ret VNull
     else
       let* parsedData := or_throw SyntaxError (JSON_parse (default [] storedData)) in
       let* encrypted := or_throw TypeError (get_prop "encrypted" parsedData) in
       decryptUserData encrypted password)
    (fun error => ret VNull).

Definition clearSecureData (key : str) : M unit := removeItem key.

(** The entry that [storeSecureData] writes, given the text that
    [encryptUserData] returned. *)
Definition entry (text : str) (now : Z) : value :=
  VObj [ ("encrypted" : str, VStr text); ("timestamp" : str, VNum now);
         ("version" : str, VStr "1.0") ].

End Defs.
End SecureData.

(** *** SecureStorageManager: initialize, cleanupExpiredData, exportUserData,
    hasUserData, getUserDataMetadata *)

Module StorageMaintenance.
Import WaxEncountersSecurity SecureStorageManager.
Section Defs.
Context `{Host}.

(** [l.forEach(f)] *)
Fixpoint for_each {A} (l : list A) (f : A -> M unit) : M unit :=
  match l with
  | [] => ret tt
  | x :: r => f x;; for_each r f
  end.

(** The elements for which the loop body [p] answers true, in order. *)
Fixpoint collect {A} (p : A -> M bool) (l : list A) : M (list A) :=
  match l with
  | [] => ret []
  | x :: r =>
      let* b := p x in
      let* rest := collect p r in
      ret (if b then x :: rest else rest)
  end.

(** [localStorage.key(0)], ..., [localStorage.key(localStorage.length - 1)];
    the order is the browser's. *)
Definition storage_keys : M (list str) :=
  fun w => (Return (map_to_list (localStorage w)).*1, w).

(** Writing to the storage never fails here: the quota is not modelled. *)
Definition isStorageAvailable : M bool :=
  try_catch
    (let test : str := "__storage_test__" in
     setItem test test;;
     removeItem test;;
     ret true)
    (fun e => ret false).

(** [now - v] for a number [now]; [None] is NaN. *)
Definition js_minus (now : Z) (v : value) : option Z :=
  x ← ToNumber v; Some (now - x)%Z.

(** One turn of the loop of [cleanupExpiredData]: whether [key] is pushed
    on [keysToRemove].  [JSON.parse(null)] reads the text [null]. *)
Definition to_remove (now : Z) (key : str) : M bool :=
  if negb (bool_decide (key = [])) && startsWith storagePrefix key then
    try_catch
      (let* text := getItem key in
       let* data := or_throw SyntaxError (JSON_parse (default ("null" : str) text)) in
       let* storedAt := or_throw TypeError (get_prop "storedAt" data) in
       ret (truthy storedAt
            && match js_minus now storedAt with
               | Some age => (maxStorageAge <? age)%Z
               | None => false
               end))
      (fun e => ret true)
  else ret false.

Definition cleanupExpiredData (now : Z) : M unit :=
  try_catch
    (let* keys := storage_keys in
     let* keysToRemove := collect (to_remove now) keys in
     for_each keysToRemove removeItem)
    (fun error => ret tt).

Definition initialize (rnd : entropy) (now : Z) : M bool :=
  try_catch
    (let* available := isStorageAvailable in
     if negb available then throw (Error "Local storage not available")
     else
       cleanupExpiredData now;;
       initializeSession rnd now;;
       ret true)
    (fun error => ret false).

Definition exportUserData (password : str) (now : Z) : M result :=
  try_catch
    (let* userData := retrieveUserData password now in
     match userData with
     | failure _ => throw (Error "Cannot retrieve user data")
     | success props =>
         let exportData := VObj [
           ("userData" : str, lookup_prop "data" props);
           ("exportDate" : str, VStr (toISOString now));
           ("version" : str, VStr "1.0");
           ("format" : str, VStr "JSON") ] in
         ret (success [ ("data" : str, exportData) ])
     end)
    (fun error => ret (failure error)).

(** [localStorage.getItem(storageKey) !== null] *)
Definition hasUserData : M bool :=
  let* stored := getItem (storagePrefix ++ userDataKey) in
  ret (match stored with Some _ => true | None => false end).

Definition getUserDataMetadata : M value :=
  try_catch
    (let* storedData := getItem (storagePrefix ++ userDataKey) in
     if absent storedData then ret VNull
     else
       let* parsedData := or_throw SyntaxError (JSON_parse (default [] storedData)) in
       let* storedAt := or_throw TypeError (get_prop "storedAt" parsedData) in
       let field (k : str) := default VUndef (get_prop k parsedData) in
       ret (VObj [
         ("storedAt" : str, storedAt);
         ("version" : str, field "version");
         ("nonSensitiveData" : str, field "nonSensitiveData");
         ("securityMetadata" : str, field "securityMetadata") ]))
    (fun error => ret VNull).

(** For the statements: the key that [isStorageAvailable] probes and the
    world after the probe, what the loop of the clean-up decides for a key
    that holds [text], the session that [initializeSession] creates, and
    the [securityMetadata] that [prepareSecureData] writes at time [t]. *)
Definition test_key : str := "__storage_test__".

Definition probed (w : World) : World :=
  {| localStorage := delete test_key (<[test_key := test_key]> (localStorage w));
     journal := journal w |}.

Definition removed_by_cleanup (now : Z) (key text : str) : bool :=
  negb (bool_decide (key = [])) && startsWith storagePrefix key
  && match JSON_parse text with
     | None => true
     | Some data =>
         match get_prop "storedAt" data with
         | None => true
         | Some storedAt =>
             truthy storedAt
             && match js_minus now storedAt with
                | Some age => (maxStorageAge <? age)%Z
                | None => false
                end
         end
     end.

Definition new_session (rnd : entropy) (now : Z) : object :=
  [ ("sessionId" : str, VStr (generateSessionToken rnd));
    ("createdAt" : str, VNum now);
    ("lastActivity" : str, VNum now);
    ("isActive" : str, VBool false) ].

Definition security_metadata (t : Z) : value :=
  VObj [ ("encryptionAlgorithm" : str, VStr algorithm);
         ("keyDerivation" : str, VStr "PBKDF2");
         ("iterations" : str, VNum (Z.of_N iterations));
         ("saltLength" : str, VNum (Z.of_nat saltLength));
         ("ivLength" : str, VNum (Z.of_nat ivLength));
         ("tagLength" : str, VNum (Z.of_N tagLength));
         ("encryptedAt" : str, VStr (toISOString t)) ].

End Defs.
End StorageMaintenance.

(** *** Further example data *)

Module MoreExamples.
Import ModelHost SecureStorageManager.

(** [Examples.ada] with another [password] property and a property that
    the program does not know. *)
Definition ada_with_extras : value := VObj [
  ("firstName" : str, VStr "Ada");
  ("lastName" : str, VStr "Lovelace");
  ("email" : str, VStr "ada@example.com");
  ("shippingAddress" : str, VStr "12 Analytical Row");
  ("iban" : str, VStr "DE89370400440532013000");
  ("bic" : str, VStr "DEUTDEFF");
  ("bankAccountOwner" : str, VStr "Ada Lovelace");
  ("password" : str, VStr "another password");
  ("termsAccepted" : str, VBool true);
  ("privacyAccepted" : str, VBool true);
  ("newsletter" : str, VBool true) ].

(** [Examples.ada] with the last digit of the IBAN changed. *)
Definition ada_mistyped_iban : value := VObj [
  ("firstName" : str, VStr "Ada");
  ("lastName" : str, VStr "Lovelace");
  ("email" : str, VStr "ada@example.com");
  ("shippingAddress" : str, VStr "12 Analytical Row");
  ("iban" : str, VStr "DE89370400440532013007");
  ("bic" : str, VStr "DEUTDEFF");
  ("bankAccountOwner" : str, VStr "Ada Lovelace");
  ("password" : str, VStr "Secret1!");
  ("termsAccepted" : str, VBool true);
  ("privacyAccepted" : str, VBool true) ].

(** A storage whose session entry is not JSON, and which holds a stale
    probe. *)
Definition corrupt_world : World :=
  {| localStorage := {[ Storage.sessKey := js "{not json" ;
                        StorageMaintenance.test_key := js "stale" ]};
     journal := [] |}.

End MoreExamples.

(** * Properties *)

(** ** The model host satisfies the laws *)

Module ModelHostLaws.
Import ModelHost.

(** Induction on values that reaches the members of arrays and objects. *)
Lemma value_nested_ind (P : value -> Prop) :
  P VUndef -> P VNull -> (forall b, P (VBool b)) -> (forall z, P (VNum z)) -> P VNaN ->
  (forall s, P (VStr s)) ->
  (forall l, Forall P l -> P (VArr l)) ->
  (forall o, Forall (fun kv => P kv.2) o -> P (VObj o)) ->
  forall v, P v.
Proof.
  intros HU HN HB HZ HNaN HS HA HO.
  fix IH 1. intros [| |b|z| |s|l|o].
  - exact HU.
  - exact HN.
  - apply HB.
  - apply HZ.
  - exact HNaN.
  - apply HS.
  - apply HA. induction l as [|x l IHl]; constructor; [apply IH | exact IHl].
  - apply HO. induction o as [|[k x] o IHo]; constructor; [apply IH | exact IHo].
Qed.

Lemma dec_enc_str (s : str) (rest : list N) : dec_str (enc_str s ++ rest) = Some (s, rest).
Proof.
  unfold dec_str, enc_str. cbn [app]. rewrite Nat2N.id.
  destruct (Nat.ltb_spec (length (s ++ rest)) (length s)) as [Hlt|_].
  - rewrite length_app in Hlt. lia.
  - now rewrite take_app_length, drop_app_length.
Qed.

Lemma dec_enc (v : value) : forall fuel rest,
  (length (enc v) <= fuel)%nat -> dec fuel (enc v ++ rest) = Some (v, rest).
Proof.
  induction v as [| |b|z| |s|l IHl|o IHo] using value_nested_ind;
    intros [|f] rest Hf; try (cbn in Hf; lia).
  - reflexivity.
  - reflexivity.
  - destruct b; reflexivity.
  - cbn. destruct (Z.ltb_spec z 0); cbn; rewrite N2Z.inj_abs_N; repeat f_equal; lia.
  - reflexivity.
  - cbn [enc app dec]. now rewrite dec_enc_str.
  - cbn [enc app dec]. rewrite Nat2N.id.
    cbn [enc length] in Hf.
    assert (Hl : (length (flat_map enc l) <= f)%nat) by lia. clear Hf.
    match goal with |- match ?e with _ => _ end = _ =>
      assert (E : e = Some (l, rest)); [|now rewrite E] end.
    induction IHl as [|x l Hx _ IH]; [reflexivity|].
    cbn [flat_map length] in *. rewrite length_app in Hl.
    rewrite <- app_assoc, Hx by lia. rewrite IH by lia. reflexivity.
  - cbn [enc app dec]. rewrite Nat2N.id.
    cbn [enc length] in Hf.
    assert (Hl : (length (flat_map (fun kv => enc_str kv.1 ++ enc kv.2) o) <= f)%nat) by lia.
    clear Hf.
    match goal with |- match ?e with _ => _ end = _ =>
      assert (E : e = Some (o, rest)); [|now rewrite E] end.
    induction IHo as [|[k x] o Hx _ IH]; [reflexivity|].
    cbn [flat_map length fst snd] in *. rewrite !length_app in Hl.
    rewrite <- !app_assoc, dec_enc_str, Hx by lia. rewrite IH by lia. reflexivity.
Qed.

Lemma jsonify_not_undefined v : v <> VUndef -> jsonify v <> VUndef.
Proof. destruct v; intros Hv; try discriminate; contradiction. Qed.

Lemma jsonify_idempotent v : jsonify (jsonify v) = jsonify v.
Proof.
  induction v as [| |b|z| |s|l IHl|o IHo] using value_nested_ind; try reflexivity.
  - cbn [jsonify]. f_equal. induction IHl as [|x l Hx _ IH]; [reflexivity|].
    cbn [map]. f_equal; [|exact IH].
    destruct x; try reflexivity; try exact Hx.
  - cbn [jsonify]. f_equal. induction IHo as [|[k x] o Hx _ IH]; [reflexivity|].
    cbn [snd] in Hx.
    destruct x; try exact IH; (rewrite Hx; f_equal; exact IH).
Qed.

Lemma enc_tag v : exists t r, enc v = t :: r /\ t < 8.
Proof. destruct v; do 2 eexists; (split; [reflexivity | lia]). Qed.

Lemma json_parse_text v : json_parse (json_text v) = Some (jsonify v).
Proof.
  unfold json_parse, json_text.
  destruct (enc_tag (jsonify v)) as (t & r & E & Ht).
  rewrite bool_decide_eq_false_2.
  - pose proof (dec_enc (jsonify v) (length (enc (jsonify v))) [] (Nat.le_refl _)) as D.
    rewrite app_nil_r in D. now rewrite D.
  - rewrite E. intros [= -> _]. lia.
Qed.

Lemma decode_encode s : decode (encode s) = s.
Proof.
  unfold decode, encode. induction s as [|c s IH]; [reflexivity|].
  cbn [flat_map]. rewrite fold_right_app, IH.
  destruct c as [|p]; [reflexivity|]. cbn [enc_char].
  induction p as [p IHp|p IHp|]; cbn [enc_pos fold_right]; try rewrite IHp; reflexivity.
Qed.

Lemma unseal_seal key iv tag data : unseal key iv tag (seal key iv tag data) = Some data.
Proof.
  unfold unseal, seal.
  replace (length (data ++ key ++ iv) - length (key ++ iv))%nat with (length data)
    by (rewrite !length_app; lia).
  rewrite drop_app_length, take_app_length.
  now rewrite bool_decide_eq_true_2.
Qed.

#[export] Instance laws : HostLaws.
Proof.
  split.
  - intros v _. apply json_parse_text.
  - intros v. cbn. unfold json_text. now rewrite jsonify_idempotent.
  - reflexivity.
  - reflexivity.
  - intros v. apply decode_encode.
  - intros bytes. exists (fromCharCode bytes). split; [|reflexivity].
    cbn. replace (forallb _ _) with true; [reflexivity|].
    symmetry. unfold fromCharCode. induction bytes as [|b bytes IH]; [reflexivity|].
    cbn [map forallb]. rewrite IH, andb_true_r.
    apply N.ltb_lt. pose proof (Byte.to_N_bounded b). lia.
  - apply unseal_seal.
Defined.

End ModelHostLaws.

(** The examples below run on the model host. *)
#[global] Existing Instance ModelHost.host | 100.
#[global] Existing Instance ModelHostLaws.laws | 100.

(** ** The IBAN checksum *)

Module IBANChecksumFacts.
Import ServerValidation IBANChecksum.
Section Facts.
Context `{Host}.

Lemma toString10_letter c : is_upper c = true -> toString10 (c - 55) = two_digits c.
Proof.
  unfold is_upper, in_range. intros Hc.
  apply andb_prop in Hc as [Hlo Hhi].
  apply N.leb_le in Hlo, Hhi.
  assert (exists k : nat, (k < 26)%nat /\ c = 65 + N.of_nat k) as (k & Hk & ->).
  { exists (N.to_nat (c - 65)). lia. }
  do 26 (destruct k as [|k]; [reflexivity|]). lia.
Qed.

Lemma letters_to_numbers_digits s : letters_to_numbers s = digit_string s.
Proof.
  unfold letters_to_numbers, digit_string.
  induction s as [|c s IH]; simpl; [reflexivity|].
  rewrite IH. destruct (is_upper c) eqn:E; [|reflexivity].
  now rewrite toString10_letter.
Qed.

(** The loop keeps the remainder of the number read so far. *)
Lemma fold_mod97 s n :
  fold_left mod97_step s (Some (n mod 97)) = (fun m => m mod 97) <$> decimal n s.
Proof.
  revert n. induction s as [|c s IH]; intros n; [reflexivity|].
  cbn [fold_left decimal].
  replace (mod97_step (Some (n mod 97)) c)
    with (if is_digit c then Some ((n * 10 + (c - 48)) mod 97) else None).
  - destruct (is_digit c); [apply IH|].
    clear. induction s as [|c' s IH]; [reflexivity | exact IH].
  - unfold mod97_step, parseInt1. destruct (is_digit c); [|reflexivity].
    f_equal. rewrite (N.Div0.add_mod (n mod 97 * 10)), N.Div0.mul_mod_idemp_l.
    now rewrite <- N.Div0.add_mod.
Qed.

Lemma validateIBANChecksum_spec iban :
  validateIBANChecksum iban = true <-> mod97_is_1 iban.
Proof.
  unfold validateIBANChecksum, mod97_is_1. cbv zeta.
  rewrite letters_to_numbers_digits.
  change (Some 0) with (Some (0 mod 97)). rewrite fold_mod97.
  fold (rearrange (toUpperCase (filter (fun c => is_space c = false) iban))).
  destruct (decimal 0 _) as [n|]; simpl.
  - split.
    + intros Hr. exists n. split; [reflexivity|].
      destruct (n mod 97) as [|p]; [discriminate|].
      destruct p; try discriminate; reflexivity.
    + intros (m & [= <-] & ->). reflexivity.
  - split; [discriminate | intros (m & Hm & _); discriminate].
Qed.

Lemma example_iban_single_digit (i : nat) (c d : char) :
  example_iban !! i = Some c -> is_digit c = true -> is_digit d = true -> d <> c ->
  validateIBANChecksum (<[i := d]> example_iban) = false.
Proof.
  intros Hi Hc Hd Hne.
  assert (exists k : nat, (k < 10)%nat /\ d = 48 + N.of_nat k) as (k & Hk & ->).
  { unfold is_digit, in_range in Hd. apply andb_prop in Hd as [Hlo Hhi].
    apply N.leb_le in Hlo, Hhi. exists (N.to_nat (d - 48)). lia. }
  do 22 (destruct i as [|i];
    [ injection Hi as <-; try discriminate Hc;
      do 10 (destruct k as [|k]; [first [ reflexivity | exfalso; apply Hne; reflexivity ] |]);
      lia
    | ]).
  discriminate Hi.
Qed.

End Facts.
End IBANChecksumFacts.

(** C6. [validateIBANChecksum] returns true exactly when the ISO 7064
    MOD 97-10 procedure (spaces removed, upper case, first four characters
    moved to the end, letters written as the two digits of code - 55, the
    digit string read as a decimal number) leaves remainder 1; it accepts
    DE89370400440532013000 and rejects that string with any one digit
    replaced by another digit. *)
Theorem iban_checksum_mod97 `{Host} :
  (forall iban : str,
     ServerValidation.validateIBANChecksum iban = true <-> IBANChecksum.mod97_is_1 iban)
  /\ ServerValidation.validateIBANChecksum IBANChecksum.example_iban = true
  /\ (forall (i : nat) (c d : char),
        IBANChecksum.example_iban !! i = Some c ->
        is_digit c = true -> is_digit d = true -> d <> c ->
        ServerValidation.validateIBANChecksum (<[i := d]> IBANChecksum.example_iban) = false).
Proof.
  split; [|split].
  - apply IBANChecksumFacts.validateIBANChecksum_spec.
  - reflexivity.
  - apply IBANChecksumFacts.example_iban_single_digit.
Qed.

(** ** Regular expressions: fixed-length runs of one class *)

Section RegexFacts.

Lemma deriv_Empty_all (s : str) : fold_left (fun r c => deriv c r) s Empty = Empty.
Proof. induction s as [|c s IH]; [reflexivity | exact IH]. Qed.

Lemma cat_Eps_l (r : regex) : cat Eps r = r.
Proof. destruct r; reflexivity. Qed.

Lemma regex_test_Rep_Class (p : char -> bool) (n : nat) (s : str) :
  regex_test (Rep n (Class p)) s = (length s =? n)%nat && forallb p s.
Proof.
  unfold regex_test. revert n. induction s as [|c s IH]; intros n.
  - destruct n; reflexivity.
  - destruct n as [|n]; cbn [fold_left Rep deriv nullable length].
    + now rewrite deriv_Empty_all.
    + destruct (p c) eqn:Hp; cbn [forallb]; rewrite Hp.
      * rewrite cat_Eps_l, IH. reflexivity.
      * cbn [cat]. rewrite deriv_Empty_all, andb_false_r. reflexivity.
Qed.

End RegexFacts.

(** ** Session tokens *)

Module SessionTokenFacts.
Import ServerValidation WaxEncountersSecurity SessionToken.

Lemma hex_of_byte (b : byte) :
  exists c1 c2, padStart 2 48 (toString16 (Byte.to_N b)) = [c1; c2]
                /\ is_lower_hex c1 = true /\ is_lower_hex c2 = true.
Proof. destruct b; do 2 eexists; (split; [reflexivity | split; reflexivity]). Qed.

Lemma hex_length (bytes : list byte) : length (hex bytes) = (2 * length bytes)%nat.
Proof.
  unfold hex. induction bytes as [|b bytes IH]; [reflexivity|].
  destruct (hex_of_byte b) as (c1 & c2 & E & _).
  cbn [flat_map]. rewrite E. cbn [app length]. rewrite IH. lia.
Qed.

Lemma hex_lower (bytes : list byte) : forallb is_lower_hex (hex bytes) = true.
Proof.
  unfold hex. induction bytes as [|b bytes IH]; [reflexivity|].
  destruct (hex_of_byte b) as (c1 & c2 & E & H1 & H2).
  cbn [flat_map]. rewrite E. cbn [app forallb]. now rewrite H1, H2, IH.
Qed.

Lemma getRandomValues_length rnd from n : length (getRandomValues rnd from n) = n.
Proof. unfold getRandomValues. now rewrite length_map, length_seq. Qed.

End SessionTokenFacts.

(** C10. Whatever the 32 random bytes are, [generateSessionToken] returns
    64 characters, each a lower-case hexadecimal digit, and
    [validateSessionToken] accepts the token. *)
Theorem generated_token_is_valid (rnd : entropy) :
  let token := WaxEncountersSecurity.generateSessionToken rnd in
  length token = 64%nat
  /\ forallb SessionToken.is_lower_hex token = true
  /\ ServerValidation.validateSessionToken (VStr token) = true.
Proof.
  intros token.
  assert (Hlen : length token = 64%nat).
  { unfold token, WaxEncountersSecurity.generateSessionToken.
    now rewrite SessionTokenFacts.hex_length, SessionTokenFacts.getRandomValues_length. }
  assert (Hhex : forallb SessionToken.is_lower_hex token = true)
    by apply SessionTokenFacts.hex_lower.
  split; [exact Hlen | split; [exact Hhex|]].
  unfold ServerValidation.validateSessionToken.
  assert (Ht : truthy (VStr token) = true).
  { destruct token; [discriminate Hlen | reflexivity]. }
  rewrite Ht. cbn [negb is_string orb ToString].
  unfold ServerValidation.tokenRegex.
  rewrite regex_test_Rep_Class, Hlen. exact Hhex.
Qed.

(** ** The sanitizer *)

Module SanitizerFacts.
Import ServerValidation Sanitizer.

Lemma sanitize_string_passes (s : str) :
  sanitize_string s = fold_left (fun x f => f x) passes (trim s).
Proof. reflexivity. Qed.

Lemma remove_chars_deleting cls : deleting (remove_chars cls).
Proof.
  unfold remove_chars. split.
  - intros P s Hs. rewrite Forall_forall in Hs |- *.
    intros c Hc. apply list_elem_of_filter in Hc as [_ Hc]. now apply Hs.
  - intros s. apply length_filter.
  - intros s. induction s as [|c s IH]; [reflexivity|].
    unfold str, char in *. rewrite filter_cons. destruct (decide (one_of cls c = false)); cbn [length]; intros Hlen.
    + f_equal. apply IH. lia.
    + pose proof (length_filter (fun c => one_of cls c = false) s) as Hle.
      unfold str, char in *. lia.
Qed.

Lemma remove_word_from_keeps w (P : char -> Prop) s :
  Forall P s -> forall k, Forall P (remove_word_from w k s).
Proof.
  induction 1 as [|c s Hc Hs IH]; intros k; [constructor|].
  cbn [remove_word_from]. destruct k; [|apply IH].
  destruct (starts_with_ci w (c :: s)); [apply IH | constructor; [exact Hc | apply IH]].
Qed.

Lemma remove_word_from_length w s : forall k, (length (remove_word_from w k s) <= length s)%nat.
Proof.
  induction s as [|c s IH]; intros k; [reflexivity|].
  cbn [remove_word_from]. destruct k.
  - destruct (starts_with_ci w (c :: s)); cbn [length].
    + specialize (IH (length w - 1)%nat). lia.
    + specialize (IH 0%nat). lia.
  - specialize (IH k). cbn [length]. lia.
Qed.

(** A pass that deletes no character found no occurrence of the word. *)
Lemma remove_word_unchanged w s :
  w <> [] -> length (remove_word w s) = length s ->
  remove_word w s = s /\ word_occurs w s = false.
Proof.
  intros Hw. unfold remove_word. induction s as [|c s IH].
  - intros _. split; [reflexivity|]. destruct w; [contradiction | reflexivity].
  - cbn [remove_word_from word_occurs].
    destruct (starts_with_ci w (c :: s)); cbn [length]; intros Hlen.
    + pose proof (remove_word_from_length w s (length w - 1)). lia.
    + destruct IH as [IH1 IH2]; [lia|]. rewrite IH1, IH2. split; reflexivity.
Qed.

Lemma remove_word_deleting w : w <> [] -> deleting (remove_word w).
Proof.
  intros Hw. split.
  - intros P s Hs. now apply remove_word_from_keeps.
  - intros s. apply remove_word_from_length.
  - intros s Hlen. now apply remove_word_unchanged.
Qed.

Lemma passes_deleting : Forall deleting passes.
Proof.
  unfold passes. apply Forall_app. split.
  - apply Forall_map, Forall_forall. intros cls _. apply remove_chars_deleting.
  - apply Forall_map. unfold denied_words.
    repeat (constructor; [apply remove_word_deleting; discriminate|]). constructor.
Qed.

Lemma fold_deleting_keeps (fs : list (str -> str)) (P : char -> Prop) s :
  Forall deleting fs -> Forall P s -> Forall P (fold_left (fun x f => f x) fs s).
Proof.
  intros Hfs. revert s. induction Hfs as [|f fs Hf _ IH]; intros s Hs; [exact Hs|].
  cbn [fold_left]. apply IH. now apply (del_keeps f Hf).
Qed.

Lemma fold_deleting_length (fs : list (str -> str)) s :
  Forall deleting fs -> (length (fold_left (fun x f => f x) fs s) <= length s)%nat.
Proof.
  intros Hfs. revert s. induction Hfs as [|f fs Hf _ IH]; intros s; [reflexivity|].
  cbn [fold_left]. pose proof (IH (f s)). pose proof (del_length f Hf s). lia.
Qed.

(** When the passes together delete nothing, none of them does. *)
Lemma fold_deleting_fixed (fs : list (str -> str)) s :
  Forall deleting fs -> length (fold_left (fun x f => f x) fs s) = length s ->
  Forall (fun f => f s = s) fs.
Proof.
  intros Hfs. revert s. induction Hfs as [|f fs Hf Hfs IH]; intros s Hlen; [constructor|].
  cbn [fold_left] in Hlen.
  pose proof (fold_deleting_length fs (f s) Hfs).
  pose proof (del_length f Hf s).
  assert (Hf1 : f s = s) by (apply (del_fixed f Hf); lia).
  constructor; [exact Hf1|]. apply IH. rewrite Hf1 in Hlen. exact Hlen.
Qed.

(** After the pass for a class, no character of the class is left, and
    the later passes bring none back. *)
Lemma class_removed (cls : str) (before after : list (str -> str)) s :
  Forall deleting after ->
  Forall (fun c => one_of cls c = false)
    (fold_left (fun x f => f x) (before ++ remove_chars cls :: after) s).
Proof.
  intros Hafter. rewrite fold_left_app. cbn [fold_left].
  apply fold_deleting_keeps; [exact Hafter|].
  unfold remove_chars. apply Forall_forall. intros c Hc.
  now apply list_elem_of_filter in Hc as [Hc _].
Qed.

Lemma class_removed_by_passes (cls : str) (before after : list (str -> str)) s :
  passes = before ++ remove_chars cls :: after ->
  Forall (fun c => one_of cls c = false) (fold_left (fun x f => f x) passes s).
Proof.
  intros E. pose proof passes_deleting as Hd. rewrite E in Hd |- *.
  apply class_removed. apply Forall_app in Hd as [_ Hd]. now inversion Hd.
Qed.

Lemma no_denied_chars (s : str) :
  Forall (fun c => one_of denied_chars c = false) (sanitize_string s).
Proof.
  rewrite sanitize_string_passes. generalize (trim s) as t. intros t.
  set (out := fold_left (fun x f => f x) passes t).
  assert (H1 : Forall (fun c => one_of [60; 62] c = false) out)
    by exact (class_removed_by_passes "<>" [] _ t eq_refl).
  assert (H2 : Forall (fun c => one_of [39; 34] c = false) out)
    by exact (class_removed_by_passes [39; 34] (take 1 passes) _ t eq_refl).
  assert (H3 : Forall (fun c => one_of [59] c = false) out)
    by exact (class_removed_by_passes ";" (take 2 passes) _ t eq_refl).
  assert (H4 : Forall (fun c => one_of [40; 41] c = false) out)
    by exact (class_removed_by_passes "()" (take 3 passes) _ t eq_refl).
  assert (H5 : Forall (fun c => one_of [123; 125] c = false) out)
    by exact (class_removed_by_passes "{}" (take 4 passes) _ t eq_refl).
  assert (H6 : Forall (fun c => one_of [91; 93] c = false) out)
    by exact (class_removed_by_passes "[]" (take 5 passes) _ t eq_refl).
  clearbody out. rewrite Forall_forall in *. intros c Hc.
  specialize (H1 c Hc). specialize (H2 c Hc). specialize (H3 c Hc).
  specialize (H4 c Hc). specialize (H5 c Hc). specialize (H6 c Hc).
  unfold one_of, denied_chars in *. cbn [existsb] in *.
  repeat match goal with
         | H : (_ || _) = false |- _ => apply orb_false_iff in H as [? ?]
         end.
  rewrite !orb_false_iff. repeat split; assumption.
Qed.

Lemma trimStart_deleting : deleting trimStart.
Proof.
  split.
  - intros P s Hs. induction Hs as [|c s Hc Hs IH]; [constructor|].
    cbn [trimStart]. destruct (is_space c); [exact IH | now constructor].
  - intros s. induction s as [|c s IH]; [reflexivity|].
    cbn [trimStart]. destruct (is_space c); cbn [length]; lia.
  - intros s. destruct s as [|c s]; [reflexivity|].
    cbn [trimStart]. destruct (is_space c); [|reflexivity].
    cbn [length]. intros Hlen.
    assert (length (trimStart s) <= length s)%nat; [|lia].
    clear. induction s as [|c s IH]; [reflexivity|].
    cbn [trimStart]. destruct (is_space c); cbn [length]; lia.
Qed.

Lemma trim_deleting : deleting trim.
Proof.
  destruct trimStart_deleting as [Hk Hl Hf]. unfold trim. split.
  - intros P s Hs. apply Forall_reverse, Hk, Forall_reverse, Hk, Hs.
  - intros s. rewrite length_reverse.
    pose proof (Hl (reverse (trimStart s))) as H1. rewrite length_reverse in H1.
    pose proof (Hl s). lia.
  - intros s. rewrite length_reverse. intros Hlen.
    pose proof (Hl (reverse (trimStart s))) as H1. rewrite length_reverse in H1.
    pose proof (Hl s) as H2.
    assert (E1 : trimStart s = s) by (apply Hf; lia).
    rewrite E1 in Hlen |- *.
    rewrite Hf by (now rewrite length_reverse). apply reverse_involutive.
Qed.

(** A string the sanitizer leaves as it is holds none of the words. *)
Lemma fixed_point_has_no_word (s : str) :
  sanitize_string s = s -> Forall (fun w => word_occurs w s = false) denied_words.
Proof.
  intros Hfix.
  assert (Hlen : length (fold_left (fun x f => f x) (trim :: passes) s) = length s)
    by (cbn [fold_left]; rewrite <- sanitize_string_passes; now rewrite Hfix).
  apply fold_deleting_fixed in Hlen;
    [| constructor; [apply trim_deleting | apply passes_deleting]].
  apply Forall_cons in Hlen as [_ Hlen].
  unfold passes in Hlen. apply Forall_app in Hlen as [_ Hlen].
  rewrite Forall_map in Hlen.
  rewrite Forall_forall in Hlen |- *. intros w Hw.
  apply remove_word_unchanged.
  - intros ->. revert Hw. unfold denied_words. rewrite !elem_of_cons.
    intros Hw. repeat (destruct Hw as [Hw|Hw]; [discriminate Hw|]).
    now apply elem_of_nil in Hw.
  - now rewrite (Hlen w Hw).
Qed.

(** *** The word passes as one scan from the left *)

Lemma starts_with_ci_begins w s : starts_with_ci w s = true <-> begins_with w s.
Proof.
  revert s. induction w as [|p w IH]; intros s.
  - split; [|reflexivity]. intros _. exists [], s. split; [constructor | reflexivity].
  - destruct s as [|c s]; cbn [starts_with_ci].
    + split; [discriminate|]. intros (m & rest & Hm & E).
      inversion Hm; subst. discriminate E.
    + rewrite andb_true_iff, N.eqb_eq, IH. split.
      * intros [Hc (m & rest & Hm & ->)]. exists (c :: m), rest.
        split; [now constructor | reflexivity].
      * intros (m & rest & Hm & E). inversion Hm as [|p' c' w' m' Hc Hm']; subst.
        injection E as -> ->. split; [exact Hc | now exists m', rest].
Qed.

Lemma spells_length w m : spells w m -> length m = length w.
Proof. intros Hm. symmetry. exact (Forall2_length _ _ _ Hm). Qed.

(** Dropping the code units of a match one by one is dropping them. *)
Lemma remove_word_from_skip w k s :
  remove_word_from w k s = remove_word w (drop k s).
Proof.
  revert k. induction s as [|c s IH]; intros k.
  - now destruct k.
  - destruct k; [reflexivity|]. cbn [remove_word_from drop]. apply IH.
Qed.

Lemma remove_word_match w m rest :
  w <> [] -> spells w m -> remove_word w (m ++ rest) = remove_word w rest.
Proof.
  intros Hw Hm.
  assert (Hb : starts_with_ci w (m ++ rest) = true)
    by (apply starts_with_ci_begins; now exists m, rest).
  pose proof (spells_length w m Hm) as Hlen.
  destruct m as [|c m]; [destruct w; [contradiction | discriminate Hlen]|].
  unfold remove_word at 1. cbn [app remove_word_from]. cbn [app] in Hb. rewrite Hb.
  rewrite remove_word_from_skip. f_equal.
  cbn [length] in Hlen. replace (length w - 1)%nat with (length m) by lia.
  apply drop_app_length.
Qed.

Lemma remove_word_other w c s :
  ~ begins_with w (c :: s) -> remove_word w (c :: s) = c :: remove_word w s.
Proof.
  intros Hb. unfold remove_word. cbn [remove_word_from].
  destruct (starts_with_ci w (c :: s)) eqn:E; [|reflexivity].
  now apply starts_with_ci_begins in E.
Qed.

(** [remove_word] is the pass. *)
Lemma remove_word_one_pass w s : w <> [] -> one_pass w s (remove_word w s).
Proof.
  intros Hw. remember (length s) as n eqn:Hn. revert s Hn.
  induction n as [n IH] using lt_wf_ind. intros s Hn.
  destruct s as [|c s]; [constructor|].
  destruct (starts_with_ci w (c :: s)) eqn:E.
  - apply starts_with_ci_begins in E as (m & rest & Hm & E).
    rewrite E, (remove_word_match w m rest Hw Hm).
    apply pass_delete; [exact Hm|].
    apply (IH (length rest)); [|reflexivity].
    pose proof (spells_length w m Hm) as Hlen.
    assert (length w <> 0)%nat by (destruct w; [contradiction | discriminate]).
    rewrite Hn, E, length_app. lia.
  - assert (Hb : ~ begins_with w (c :: s))
      by (intros Hb; apply starts_with_ci_begins in Hb; congruence).
    rewrite (remove_word_other w c s Hb).
    apply pass_keep; [exact Hb|].
    apply (IH (length s)); [subst n; cbn [length]; lia | reflexivity].
Qed.

(** The pass has one result. *)
Lemma one_pass_unique w s a b : w <> [] -> one_pass w s a -> one_pass w s b -> a = b.
Proof.
  intros Hw Ha Hb.
  assert (Hf : forall s a, one_pass w s a -> a = remove_word w s).
  { clear s a b Ha Hb. intros s a Ha.
    induction Ha as [|m rest out Hm Ha IH|c s out Hn Ha IH].
    - reflexivity.
    - now rewrite (remove_word_match w m rest Hw Hm).
    - rewrite IH. symmetry. exact (remove_word_other w c s Hn). }
  now rewrite (Hf s a Ha), (Hf s b Hb).
Qed.

Lemma remove_chars_app (cls1 cls2 s : str) :
  remove_chars cls2 (remove_chars cls1 s) = remove_chars (cls1 ++ cls2) s.
Proof.
  unfold remove_chars, one_of. induction s as [|c s IH]; [reflexivity|].
  unfold str, char in *. rewrite !filter_cons, existsb_app.
  destruct (existsb (N.eqb c) cls1) eqn:E1; cbn [orb].
  - rewrite decide_False by discriminate. rewrite decide_False by discriminate. exact IH.
  - rewrite decide_True by reflexivity. rewrite filter_cons.
    destruct (existsb (N.eqb c) cls2) eqn:E2.
    + rewrite !decide_False by discriminate. exact IH.
    + rewrite !decide_True by reflexivity. now rewrite IH.
Qed.

Lemma fold_word_passes (ws : list str) (s : str) :
  Forall (fun w => w <> []) ws ->
  passes_in_order ws s (fold_left (fun x f => f x) (map remove_word ws) s).
Proof.
  intros Hws. revert s. induction Hws as [|w ws Hw _ IH]; intros s; [constructor|].
  cbn [map fold_left]. econstructor; [now apply remove_word_one_pass | apply IH].
Qed.

Lemma passes_in_order_unique (ws : list str) (s a b : str) :
  Forall (fun w => w <> []) ws ->
  passes_in_order ws s a -> passes_in_order ws s b -> a = b.
Proof.
  intros Hws Ha. revert b. induction Ha as [s|w ws s t out Hw Ha IH]; intros b Hb.
  - now inversion Hb.
  - inversion Hb as [|w' ws' s' t' out' Hw' Hb']; subst.
    apply Forall_cons in Hws as [Hne Hws].
    rewrite <- (one_pass_unique w s t t' Hne Hw Hw') in Hb'. now apply IH.
Qed.

Lemma denied_words_nonempty : Forall (fun w : str => w <> []) denied_words.
Proof. unfold denied_words. repeat (constructor; [discriminate|]). constructor. Qed.

(** [sanitize_string] trims, removes the denied characters, and then runs
    the word passes in their order. *)
Lemma sanitize_string_in_order (s : str) :
  passes_in_order denied_words (without_denied_chars (trim s)) (sanitize_string s).
Proof.
  rewrite sanitize_string_passes. unfold passes. rewrite fold_left_app.
  cbn [map fold_left]. rewrite !remove_chars_app.
  change (remove_chars _ (trim s)) with (without_denied_chars (trim s)).
  apply fold_word_passes, denied_words_nonempty.
Qed.

End SanitizerFacts.

(** C8, as the code has it.  [sanitizeInput] trims its input, removes
    every angle bracket, quote, semicolon, parenthesis, brace and square
    bracket, and then deletes the words in the order of the list, each in
    one pass from the left that does not look again at what a deletion has
    joined; the passes leave one result, and that is the string returned.
    The result holds none of the characters.  An occurrence of a word may
    be left where a deletion joins its two parts; a string that
    [sanitizeInput] leaves unchanged holds none of the words, in any
    letter case. *)
Theorem sanitizeInput_removes_characters (s : str) :
  exists s', ServerValidation.sanitizeInput (VStr s) = VStr s'
    /\ Sanitizer.passes_in_order ServerValidation.denied_words
         (Sanitizer.without_denied_chars (ServerValidation.trim s)) s'
    /\ (forall t, Sanitizer.passes_in_order ServerValidation.denied_words
                    (Sanitizer.without_denied_chars (ServerValidation.trim s)) t ->
                  t = s')
    /\ Forall (fun c => one_of Sanitizer.denied_chars c = false) s'
    /\ (s' = s ->
        Forall (fun w => Sanitizer.word_occurs w s = false) ServerValidation.denied_words).
Proof.
  exists (ServerValidation.sanitize_string s).
  split; [reflexivity | split; [| split; [| split]]].
  - apply SanitizerFacts.sanitize_string_in_order.
  - intros t Ht. symmetry.
    exact (SanitizerFacts.passes_in_order_unique _ _ _ _
             SanitizerFacts.denied_words_nonempty
             (SanitizerFacts.sanitize_string_in_order s) Ht).
  - apply SanitizerFacts.no_denied_chars.
  - apply SanitizerFacts.fixed_point_has_no_word.
Qed.

(** C8 as stated fails: the pass that deletes [script] from
    [scrscriptipt] leaves [script], which no later pass touches. *)
Lemma sanitizeInput_leaves_script :
  ServerValidation.sanitizeInput (VStr "scrscriptipt") = VStr "script"
  /\ In ("script" : str) ServerValidation.denied_words
  /\ Sanitizer.word_occurs "script" "script" = true.
Proof. split; [reflexivity | split; [left; reflexivity | reflexivity]]. Qed.

(** ** The rate limiter *)

Module RateLimiterFacts.
Import ServerValidation RateLimiter.
Section Facts.
Context `{HostLaws}.

Lemma stringify_not_empty v : v <> VUndef -> JSON_stringify v <> [].
Proof.
  intros Hv E. pose proof (json_roundtrip v Hv) as R.
  rewrite E, json_parse_empty_text in R. discriminate.
Qed.

Lemma jsonify_numbers (ts : list Z) : jsonify (VArr (VNum <$> ts)) = VArr (VNum <$> ts).
Proof.
  cbn [jsonify]. f_equal. induction ts as [|t ts IH]; [reflexivity|].
  cbn. f_equal. exact IH.
Qed.

Lemma filter_numbers (ws : Z) (ts : list Z) :
  filter (fun timestamp => js_gt timestamp ws = true) (VNum <$> ts)
  = VNum <$> filter (fun t => (ws < t)%Z) ts.
Proof.
  induction ts as [|t ts IH]; [reflexivity|].
  rewrite fmap_cons, !filter_cons, IH.
  unfold js_gt at 1. cbn [ToNumber].
  destruct (decide ((ws <? t)%Z = true)) as [E|E], (decide (ws < t)%Z) as [L|L];
    try reflexivity; exfalso.
  - apply Z.ltb_lt in E. contradiction.
  - apply Z.ltb_lt in L. contradiction.
Qed.

Lemma parse_recorded (stored : option str) (ts : list Z) :
  stored = Some (JSON_stringify (VArr (VNum <$> ts))) \/ (ts = [] /\ stored = None) ->
  JSON_parse (if absent stored then js "[]" else default [] stored)
  = Some (VArr (VNum <$> ts)).
Proof.
  intros [-> | [-> ->]].
  - destruct (JSON_stringify (VArr (VNum <$> ts))) eqn:E.
    + now apply stringify_not_empty in E.
    + simpl. rewrite <- E, json_roundtrip by discriminate.
      now rewrite jsonify_numbers.
  - apply json_parse_empty_array.
Qed.

(** What a call does, in terms of the recorded time stamps. *)
Lemma checkRateLimit_recorded identifier action limit windowMs now w ts :
  recorded w (rate_key identifier action) ts ->
  let live := filter (fun t => (now - windowMs < t)%Z) ts in
  checkRateLimit identifier action limit windowMs now w =
    if (limit <=? Z.of_nat (length live))%Z then
      (Return {| allowed := false; remaining := 0;
                 resetTime := js_add (hd VUndef (VNum <$> live)) windowMs |}, w)
    else
      (Return {| allowed := true;
                 remaining := limit - Z.of_nat (length (live ++ [now]));
                 resetTime := VNum (now + windowMs) |},
       record_attempts w (rate_key identifier action) (live ++ [now])).
Proof.
  intros Hrec live. unfold checkRateLimit. fold (rate_key identifier action).
  unfold bind at 1, getItem.
  rewrite (parse_recorded _ ts Hrec). unfold bind at 1, or_throw, ret.
  rewrite filter_numbers. fold live.
  rewrite !length_fmap.
  destruct (limit <=? Z.of_nat (length live))%Z; [reflexivity|].
  unfold bind, setItem, ret, record_attempts.
  rewrite fmap_app, !length_app, length_fmap. reflexivity.
Qed.

Lemma recorded_after w key ts : recorded (record_attempts w key ts) key ts.
Proof. left. unfold record_attempts. cbn. apply lookup_insert_eq. Qed.

End Facts.
End RateLimiterFacts.

(** C7. With limit 3 and a window of 1000 ms, starting with no attempt
    recorded for the key, four calls at times [t1 <= t2 <= t3 <= t4] within
    one window ([t4 < t1 + 1000]) are allowed, allowed, allowed and denied;
    the denied call leaves the storage as it was; and a call at a time
    [t5] when all three recorded attempts are older than the window is
    allowed again. *)
Theorem rate_limit_three_per_window `{HostLaws}
    (identifier action : str) (w0 : World) (t1 t2 t3 t4 t5 : Z) :
  localStorage w0 !! RateLimiter.rate_key identifier action = None ->
  (t1 <= t2 <= t3)%Z -> (t3 <= t4 < t1 + 1000)%Z -> (t3 + 1000 <= t5)%Z ->
  exists r1 r2 r3 r4 r5 w1 w2 w3 w5,
    ServerValidation.checkRateLimit identifier action 3 1000 t1 w0 = (Return r1, w1)
    /\ ServerValidation.checkRateLimit identifier action 3 1000 t2 w1 = (Return r2, w2)
    /\ ServerValidation.checkRateLimit identifier action 3 1000 t3 w2 = (Return r3, w3)
    /\ ServerValidation.checkRateLimit identifier action 3 1000 t4 w3 = (Return r4, w3)
    /\ ServerValidation.checkRateLimit identifier action 3 1000 t5 w3 = (Return r5, w5)
    /\ ServerValidation.allowed r1 = true
    /\ ServerValidation.allowed r2 = true
    /\ ServerValidation.allowed r3 = true
    /\ ServerValidation.allowed r4 = false
    /\ ServerValidation.allowed r5 = true.
Proof.
  intros Hfresh H123 H4 H5.
  set (key := RateLimiter.rate_key identifier action) in *.
  pose (w1 := RateLimiter.record_attempts w0 key [t1]).
  pose (w2 := RateLimiter.record_attempts w1 key [t1; t2]).
  pose (w3 := RateLimiter.record_attempts w2 key [t1; t2; t3]).
  assert (R0 : RateLimiter.recorded w0 key []) by (right; split; [reflexivity | exact Hfresh]).
  pose proof (RateLimiterFacts.recorded_after w0 key [t1]) as R1. fold w1 in R1.
  pose proof (RateLimiterFacts.recorded_after w1 key [t1; t2]) as R2. fold w2 in R2.
  pose proof (RateLimiterFacts.recorded_after w2 key [t1; t2; t3]) as R3. fold w3 in R3.
  pose proof (RateLimiterFacts.checkRateLimit_recorded identifier action 3 1000 t1 w0 [] R0) as C1.
  pose proof (RateLimiterFacts.checkRateLimit_recorded identifier action 3 1000 t2 w1 _ R1) as C2.
  pose proof (RateLimiterFacts.checkRateLimit_recorded identifier action 3 1000 t3 w2 _ R2) as C3.
  pose proof (RateLimiterFacts.checkRateLimit_recorded identifier action 3 1000 t4 w3 _ R3) as C4.
  pose proof (RateLimiterFacts.checkRateLimit_recorded identifier action 3 1000 t5 w3 _ R3) as C5.
  cbv zeta in C1, C2, C3, C4, C5. fold key in C1, C2, C3, C4, C5.
  rewrite filter_nil in C1.
  rewrite !filter_cons_True, filter_nil in C2 by lia.
  rewrite !filter_cons_True, filter_nil in C3 by lia.
  rewrite !filter_cons_True, filter_nil in C4 by lia.
  rewrite !filter_cons_False, filter_nil in C5 by lia.
  cbn in C1, C2, C3, C4, C5.
  fold w1 in C1. fold w2 in C2. fold w3 in C3.
  do 9 eexists.
  split; [exact C1 | split; [exact C2 | split; [exact C3 | split; [exact C4 |
    split; [exact C5 | repeat split ]]]]].
Qed.

Lemma rate_limit_three_per_window_witness :
  exists r1 r2 r3 r4 r5 w1 w2 w3 w5,
    ServerValidation.checkRateLimit "ada@example.com" "register" 3 1000 0
      Examples.empty_world = (Return r1, w1)
    /\ ServerValidation.checkRateLimit "ada@example.com" "register" 3 1000 100 w1
       = (Return r2, w2)
    /\ ServerValidation.checkRateLimit "ada@example.com" "register" 3 1000 200 w2
       = (Return r3, w3)
    /\ ServerValidation.checkRateLimit "ada@example.com" "register" 3 1000 300 w3
       = (Return r4, w3)
    /\ ServerValidation.checkRateLimit "ada@example.com" "register" 3 1000 1200 w3
       = (Return r5, w5)
    /\ ServerValidation.allowed r1 = true
    /\ ServerValidation.allowed r2 = true
    /\ ServerValidation.allowed r3 = true
    /\ ServerValidation.allowed r4 = false
    /\ ServerValidation.allowed r5 = true.
Proof.
  apply (rate_limit_three_per_window "ada@example.com" "register" Examples.empty_world
           0 100 200 300 1200); [reflexivity | lia | lia | lia].
Defined.

(** ** Encryption and decryption *)

Module CryptoFacts.
Import WaxEncountersSecurity Crypto.
Section Facts.
Context `{HostLaws}.

Lemma to_uint8_byte (b : byte) : to_uint8 (Byte.to_N b) = b.
Proof.
  unfold to_uint8. pose proof (Byte.to_N_bounded b).
  rewrite N.mod_small by lia. now rewrite Byte.of_to_N.
Qed.

Lemma to_uint8_fromCharCode (bytes : list byte) : map to_uint8 (fromCharCode bytes) = bytes.
Proof.
  unfold fromCharCode. induction bytes as [|b bytes IH]; [reflexivity|].
  cbn [map]. now rewrite to_uint8_byte, IH.
Qed.

(** What [encryptUserData] returns: the base64 text of salt, iv and
    ciphertext, in this order. *)
Definition sealed_bytes (rnd : entropy) (data : value) (password : str) : list byte :=
  let salt := generateSalt rnd 0 in
  let iv := generateIV rnd saltLength in
  salt ++ iv ++ aes_gcm_encrypt (deriveKeyFromPassword password salt) iv tagLength
                  (encode_json data).

Lemma encryptUserData_returns rnd data password w :
  exists text,
    btoa (fromCharCode (sealed_bytes rnd data password)) = Some text
    /\ atob text = Some (fromCharCode (sealed_bytes rnd data password))
    /\ encryptUserData rnd data password w
       = (Return text, journalled w [call_encryptUserData]).
Proof.
  destruct (base64_roundtrip (sealed_bytes rnd data password)) as (text & Hb & Ha).
  exists text. split; [exact Hb | split; [exact Ha|]].
  unfold encryptUserData, bind, record_call, try_catch.
  fold (sealed_bytes rnd data password). rewrite Hb. reflexivity.
Qed.

(** Decrypting, with the same password, a text that [encryptUserData]
    produced gives back the data as JSON keeps it. *)
Lemma decryptUserData_sealed rnd data password text w :
  data <> VUndef ->
  atob text = Some (fromCharCode (sealed_bytes rnd data password)) ->
  decryptUserData (VStr text) password w
  = (Return (jsonify data), journalled w [call_decryptUserData]).
Proof.
  intros Hdata Ha.
  unfold decryptUserData, bind at 1, record_call, try_catch.
  cbn [ToString]. unfold bind at 1. rewrite Ha. cbn [or_throw ret].
  rewrite to_uint8_fromCharCode.
  unfold sealed_bytes. cbv zeta.
  set (salt := generateSalt rnd 0). set (iv := generateIV rnd saltLength).
  assert (Hsalt : length salt = saltLength)
    by apply SessionTokenFacts.getRandomValues_length.
  assert (Hiv : length iv = ivLength)
    by apply SessionTokenFacts.getRandomValues_length.
  rewrite <- Hsalt at 1 2. rewrite take_app_length, drop_app_length.
  replace (saltLength + ivLength)%nat with (length salt + length iv)%nat by lia.
  rewrite <- Hiv at 1. rewrite take_app_length.
  rewrite <- drop_drop, drop_app_length, drop_app_length.
  unfold bind. rewrite aes_gcm_roundtrip. cbn [or_throw ret].
  unfold encode_json. destruct data; try contradiction;
    rewrite utf8_roundtrip, json_roundtrip by discriminate; reflexivity.
Qed.

End Facts.
End CryptoFacts.

(** C1. For a JSON-serializable value [d] and a password [p],
    [encryptUserData] returns a text, and [decryptUserData] with the same
    password returns [d] from it. *)
Theorem decrypt_encrypt_identity `{HostLaws}
    (rnd : entropy) (d : value) (p : str) (w : World) :
  Crypto.json_serializable d ->
  exists text w1 w2,
    WaxEncountersSecurity.encryptUserData rnd d p w = (Return text, w1)
    /\ WaxEncountersSecurity.decryptUserData (VStr text) p w1 = (Return d, w2).
Proof.
  intros [Hd Hjson].
  destruct (CryptoFacts.encryptUserData_returns rnd d p w) as (text & _ & Ha & He).
  exists text. do 2 eexists. split; [exact He|].
  rewrite (CryptoFacts.decryptUserData_sealed rnd d p text _ Hd Ha), Hjson. reflexivity.
Qed.

Lemma decrypt_encrypt_identity_witness :
  Crypto.json_serializable Examples.payload
  /\ exists text w1 w2,
       WaxEncountersSecurity.encryptUserData Examples.rnd0 Examples.payload "Secret1!"
         Examples.empty_world = (Return text, w1)
       /\ WaxEncountersSecurity.decryptUserData (VStr text) "Secret1!" w1
          = (Return Examples.payload, w2).
Proof.
  assert (Hp : Crypto.json_serializable Examples.payload)
    by (split; [discriminate | reflexivity]).
  split; [exact Hp|].
  exact (decrypt_encrypt_identity Examples.rnd0 Examples.payload "Secret1!"
           Examples.empty_world Hp).
Defined.

(** ** Objects: lookup, assignment, JSON *)

Section ObjectFacts.

Lemma lookup_find_prop k (o : object) : lookup_prop k o = default VUndef (find_prop k o).
Proof.
  induction o as [|[k' v] o IH]; [reflexivity|].
  cbn [lookup_prop find_prop]. destruct (bool_decide (k = k')); [reflexivity | exact IH].
Qed.

Lemma find_prop_None k (o : object) : find_prop k o = None <-> k ∉ o.*1.
Proof.
  induction o as [|[k' v] o IH]; cbn [find_prop fmap list_fmap fst].
  - split; [intros _; apply not_elem_of_nil | reflexivity].
  - rewrite not_elem_of_cons. destruct (bool_decide_reflect (k = k')) as [->|Hne].
    + split; [discriminate | intros [? _]; contradiction].
    + rewrite IH. tauto.
Qed.

Lemma find_set_prop k k' v (o : object) :
  find_prop k (set_prop k' v o) = if bool_decide (k = k') then Some v else find_prop k o.
Proof.
  induction o as [|[k'' v''] o IH]; cbn [set_prop find_prop].
  - reflexivity.
  - destruct (bool_decide_reflect (k' = k'')) as [<-|Hne]; cbn [find_prop].
    + destruct (bool_decide (k = k')); reflexivity.
    + rewrite IH. destruct (bool_decide_reflect (k = k'')) as [->|Hne'];
        [|reflexivity].
      now rewrite bool_decide_eq_false_2 by congruence.
Qed.

Lemma set_prop_keys k v (o : object) :
  (set_prop k v o).*1 = if bool_decide (k ∈ o.*1) then o.*1 else o.*1 ++ [k].
Proof.
  induction o as [|[k' v'] o IH]; [reflexivity|].
  cbn [set_prop fmap list_fmap fst]. fold (o.*1).
  destruct (bool_decide_reflect (k = k')) as [->|Hne].
  - rewrite bool_decide_eq_true_2 by (apply elem_of_cons; now left). reflexivity.
  - cbn [fmap list_fmap fst]. fold ((set_prop k v o).*1). rewrite IH.
    destruct (bool_decide_reflect (k ∈ o.*1)) as [Hin|Hnin].
    + rewrite bool_decide_eq_true_2 by (apply elem_of_cons; now right). reflexivity.
    + rewrite bool_decide_eq_false_2; [reflexivity|].
      rewrite elem_of_cons. tauto.
Qed.

Lemma set_prop_NoDup k v (o : object) : NoDup o.*1 -> NoDup (set_prop k v o).*1.
Proof.
  intros Hnd. rewrite set_prop_keys. destruct (bool_decide_reflect (k ∈ o.*1)); [exact Hnd|].
  apply NoDup_app. split; [exact Hnd | split].
  - intros x Hx Hx'. apply list_elem_of_singleton in Hx' as ->. contradiction.
  - apply NoDup_singleton.
Qed.

Lemma assign_NoDup (s t : object) : NoDup t.*1 -> NoDup (assign t s).*1.
Proof.
  unfold assign. revert t. induction s as [|[k v] s IH]; intros t Ht; [exact Ht|].
  cbn [fold_left]. apply IH. now apply set_prop_NoDup.
Qed.

(** In [{...t, ...s}] a property of [s] overrides the one of [t]. *)
Lemma find_assign k (s t : object) :
  NoDup s.*1 ->
  find_prop k (assign t s)
  = match find_prop k s with Some v => Some v | None => find_prop k t end.
Proof.
  unfold assign. revert t. induction s as [|[k' v] s IH]; intros t Hnd; [reflexivity|].
  cbn [fmap list_fmap fst] in Hnd. apply NoDup_cons in Hnd as [Hk' Hnd].
  cbn [fold_left find_prop fst snd]. rewrite IH by exact Hnd. rewrite find_set_prop.
  destruct (bool_decide_reflect (k = k')) as [->|Hne]; [|reflexivity].
  apply find_prop_None in Hk'. now rewrite Hk'.
Qed.

Lemma json_props_nil : json_props [] = [].
Proof. reflexivity. Qed.

Lemma json_props_cons k x (o : object) :
  json_props ((k, x) :: o)
  = match x with VUndef => json_props o | _ => (k, jsonify x) :: json_props o end.
Proof. destruct x; reflexivity. Qed.

Lemma jsonify_VObj (o : object) : jsonify (VObj o) = VObj (json_props o).
Proof. reflexivity. Qed.

Lemma json_props_keys k (o : object) : k ∈ (json_props o).*1 -> k ∈ o.*1.
Proof.
  induction o as [|[k' x] o IH]; [now rewrite json_props_nil|].
  rewrite json_props_cons. cbn [fmap list_fmap fst]. rewrite elem_of_cons.
  destruct x; cbn [fmap list_fmap fst]; rewrite ?elem_of_cons; tauto.
Qed.

Lemma json_props_NoDup (o : object) : NoDup o.*1 -> NoDup (json_props o).*1.
Proof.
  induction o as [|[k x] o IH]; [intros _; rewrite json_props_nil; constructor|].
  cbn [fmap list_fmap fst]. intros Hnd. apply NoDup_cons in Hnd as [Hk Hnd].
  rewrite json_props_cons.
  assert (Hk' : k ∉ (json_props o).*1) by (intros Hin; apply Hk, json_props_keys, Hin).
  destruct x; cbn [fmap list_fmap fst]; try (apply NoDup_cons; split; [exact Hk' | now apply IH]).
  now apply IH.
Qed.

(** JSON keeps a property unless its value is [undefined]. *)
Lemma find_json_props k (o : object) :
  NoDup o.*1 ->
  find_prop k (json_props o)
  = match find_prop k o with
    | Some VUndef | None => None
    | Some x => Some (jsonify x)
    end.
Proof.
  induction o as [|[k' x] o IH]; [reflexivity|].
  cbn [fmap list_fmap fst]. intros Hnd. apply NoDup_cons in Hnd as [Hk Hnd].
  rewrite json_props_cons. cbn [find_prop].
  destruct (bool_decide_reflect (k = k')) as [->|Hne].
  - destruct x; cbn [find_prop]; rewrite ?bool_decide_eq_true_2 by reflexivity;
      try reflexivity.
    rewrite IH by exact Hnd. apply find_prop_None in Hk. now rewrite Hk.
  - destruct x; cbn [find_prop]; rewrite ?bool_decide_eq_false_2 by exact Hne;
      now apply IH.
Qed.

Lemma lookup_json_props k (o : object) :
  NoDup o.*1 -> lookup_prop k (json_props o) = as_json (lookup_prop k o).
Proof.
  intros Hnd. rewrite !lookup_find_prop, find_json_props by exact Hnd.
  destruct (find_prop k o) as [[]|]; reflexivity.
Qed.

Lemma json_props_app (a b : object) : json_props (a ++ b) = json_props a ++ json_props b.
Proof.
  induction a as [|[k x] a IH]; [reflexivity|].
  cbn [app]. rewrite !json_props_cons, IH. destruct x; reflexivity.
Qed.

Lemma filter_other_keys k (o : object) :
  k ∉ o.*1 -> filter (fun kv : str * value => kv.1 <> k) o = o.
Proof.
  induction o as [|[k' v] o IH]; [reflexivity|].
  cbn [fmap list_fmap fst]. rewrite not_elem_of_cons. intros [Hne Hk].
  rewrite filter_cons_True by (cbn; congruence). f_equal. now apply IH.
Qed.

(** A property of [{...a, ...b}], for two objects read back from JSON. *)
Lemma lookup_spread_json k (a b : object) :
  NoDup a.*1 -> NoDup b.*1 ->
  lookup_prop k (spread2 (VObj (json_props a)) (VObj (json_props b)))
  = match find_prop k b with
    | Some VUndef | None => as_json (lookup_prop k a)
    | Some x => jsonify x
    end.
Proof.
  intros Ha Hb. unfold spread2. cbn [own_props].
  rewrite lookup_find_prop, !find_assign by (now apply json_props_NoDup).
  rewrite !find_json_props by assumption. cbn [find_prop].
  rewrite (lookup_find_prop k a).
  destruct (find_prop k b) as [[]|]; try reflexivity;
    destruct (find_prop k a) as [[]|]; reflexivity.
Qed.

(** A property of [{...d, ...u}]: the one of [u] if it has one. *)
Lemma lookup_spread k (d : object) (u : value) :
  NoDup d.*1 -> NoDup (own_props u).*1 ->
  lookup_prop k (spread2 (VObj d) u)
  = match find_prop k (own_props u) with
    | Some v => v
    | None => lookup_prop k d
    end.
Proof.
  intros Hd Hu. unfold spread2. cbn [own_props].
  rewrite lookup_find_prop, !find_assign by assumption. cbn [find_prop].
  rewrite (lookup_find_prop k d).
  destruct (find_prop k (own_props u)); [reflexivity|].
  destruct (find_prop k d); reflexivity.
Qed.

End ObjectFacts.

(** ** The storage manager *)

Module StorageFacts.
Import WaxEncountersSecurity SecureStorageManager Crypto Storage.
Section Facts.
Context `{HostLaws}.

Lemma bind_Return {A B} (m : M A) (k : A -> M B) w a w' :
  m w = (Return a, w') -> bind m k w = k a w'.
Proof. unfold bind. now intros ->. Qed.

Lemma bind_Throw {A B} (m : M A) (k : A -> M B) w e w' :
  m w = (Throw e, w') -> bind m k w = (Throw e, w').
Proof. unfold bind. now intros ->. Qed.

Lemma try_Return {A} (m : M A) h w a w' :
  m w = (Return a, w') -> try_catch m h w = (Return a, w').
Proof. unfold try_catch. now intros ->. Qed.

Lemma try_Throw {A} (m : M A) h w e w' :
  m w = (Throw e, w') -> try_catch m h w = h e w'.
Proof. unfold try_catch. now intros ->. Qed.

Lemma nonempty_string_test (v : value) :
  nonempty_string v <-> negb (truthy v) || negb (is_string v) = false.
Proof.
  split.
  - intros (s & -> & Hs). cbn. now rewrite bool_decide_eq_false_2.
  - destruct v; cbn; try discriminate;
      try (rewrite orb_true_r; discriminate).
    rewrite orb_false_r. intros Ht. exists s. split; [reflexivity|].
    intros ->. discriminate Ht.
Qed.

(** [validateUserData] decides the gate, and touches nothing. *)
Lemma validateUserData_spec (r : value) (w : World) :
  (r = VUndef \/ r = VNull -> validateUserData r w = (Throw TypeError, w))
  /\ (r <> VUndef -> r <> VNull ->
      exists b, validateUserData r w = (Return b, w) /\ (b = true <-> acceptable r)).
Proof.
  split.
  - intros [-> | ->]; reflexivity.
  - intros HU HN. unfold validateUserData.
    assert (Hget : exists x, get_prop "firstName" r = Some x)
      by (destruct r; try contradiction; eexists; reflexivity).
    destruct Hget as [x Hx]. rewrite Hx.
    unfold bind at 1, or_throw, ret. fold (field "firstName" r).
    unfold acceptable, formats_pass, field.
    setoid_rewrite nonempty_string_test.
    unfold requiredFields. cbn [existsb].
    repeat match goal with
    | |- context [negb (truthy ?v) || negb (is_string ?v) || _] =>
        destruct (negb (truthy v) || negb (is_string v));
        [eexists; split; [reflexivity | intuition discriminate] | cbn [orb]]
    end.
    repeat match goal with
    | |- context [if negb ?c then _ else _] =>
        destruct c; cbn [negb];
        [| eexists; split; [reflexivity | intuition discriminate]]
    end.
    eexists; split; [reflexivity | intuition].
Qed.

Lemma acceptable_not_nullish r : acceptable r -> r <> VUndef /\ r <> VNull.
Proof.
  intros [[(s & E & _) _] _]. split; intros ->; discriminate E.
Qed.

Lemma try_catch_ext {A} (m m' : M A) h w w' :
  m w = m' w' -> try_catch m h w = try_catch m' h w'.
Proof. unfold try_catch. now intros ->. Qed.

Lemma prepareSecureData_returns rnd now r password w enc :
  r <> VUndef -> r <> VNull ->
  btoa (fromCharCode (CryptoFacts.sealed_bytes rnd (sensitive r) password)) = Some enc ->
  prepareSecureData rnd now r password w
  = (Return (secure_data enc now r password),
     journalled w [call_prepareSecureData; call_encryptUserData; call_hashPassword]).
Proof.
  intros HU HN Henc.
  assert (Hget : exists x, get_prop "firstName" r = Some x)
    by (destruct r; try contradiction; eexists; reflexivity).
  destruct Hget as [x Hx].
  destruct (CryptoFacts.encryptUserData_returns rnd (sensitive r) password
              (journalled w [call_prepareSecureData])) as (enc' & Hb & _ & He).
  rewrite Henc in Hb. injection Hb as <-.
  unfold prepareSecureData.
  erewrite bind_Return by reflexivity.
  erewrite bind_Return by (rewrite Hx; reflexivity).
  erewrite bind_Return by exact He.
  unfold hashPassword. erewrite bind_Return by reflexivity.
  unfold bind, record_call, ret, journalled, secure_data, non_sensitive, field.
  cbn [localStorage journal]. rewrite <- !app_assoc. reflexivity.
Qed.

(** Up to the write of the envelope, [storeUserData] on an acceptable
    record cannot fail; what is left is the update of the session. *)
Lemma storeUserData_acceptable rnd now r password w enc :
  acceptable r ->
  btoa (fromCharCode (CryptoFacts.sealed_bytes rnd (sensitive r) password)) = Some enc ->
  storeUserData rnd now r password w
  = try_catch (report_session now) (fun error => ret (failure error))
      (written w enc now r password).
Proof.
  intros Hok Henc. destruct (acceptable_not_nullish r Hok) as [HU HN].
  destruct (proj2 (validateUserData_spec r w) HU HN) as (b & Hv & Hb).
  apply Hb in Hok. subst b.
  unfold storeUserData. apply try_catch_ext.
  erewrite bind_Return by exact Hv. cbn [negb].
  erewrite bind_Return by (apply prepareSecureData_returns; eassumption).
  unfold generateDataHash.
  erewrite bind_Return by reflexivity.
  unfold bind at 1, ret at 1, record_call.
  unfold bind at 1, setItem.
  unfold report_session, written, journalled. cbn [localStorage journal].
  rewrite <- !app_assoc. reflexivity.
Qed.

Lemma dataKey_sessKey : dataKey <> sessKey.
Proof. discriminate. Qed.

(** [getSession] on a world that holds no session, and on one that holds
    a session object. *)
Lemma getSession_none w :
  absent (localStorage w !! sessKey) = true -> getSession w = (Return VNull, w).
Proof.
  intros Ha. unfold getSession, bind, getItem. fold sessKey. now rewrite Ha.
Qed.

Lemma getSession_object w session :
  session_stored w session -> getSession w = (Return (VObj session), w).
Proof.
  intros (text & Hl & Hp). unfold getSession, bind, getItem. fold sessKey.
  rewrite Hl. destruct text as [|c text].
  - rewrite json_parse_empty_text in Hp. discriminate.
  - simpl. now rewrite Hp.
Qed.

(** With no session stored, the end of [storeUserData] throws: the
    session is not created, and [getSession()] is [null]. *)
Lemma report_session_none now w :
  absent (localStorage w !! sessKey) = true ->
  report_session now w = (Throw TypeError, w).
Proof.
  intros Ha. unfold report_session, updateSession.
  erewrite bind_Return; cycle 1.
  { erewrite bind_Return by (apply getSession_none; exact Ha). reflexivity. }
  erewrite bind_Return by (apply getSession_none; exact Ha).
  reflexivity.
Qed.

Definition refreshed (now : Z) (session : object) : object :=
  set_prop "isActive" (VBool true) (set_prop "lastActivity" (VNum now) session).

Definition session_written (w : World) (now : Z) (session : object) : World :=
  {| localStorage := <[sessKey := JSON_stringify (VObj (refreshed now session))]> (localStorage w);
     journal := journal w |}.

Lemma updateSession_object now w session :
  session_stored w session ->
  updateSession true now w = (Return tt, session_written w now session).
Proof.
  intros Hs. unfold updateSession.
  erewrite bind_Return by (apply getSession_object; exact Hs).
  reflexivity.
Qed.

Lemma session_stored_written w now session :
  exists session',
    jsonify (VObj (refreshed now session)) = VObj session'
    /\ session_stored (session_written w now session) session'.
Proof.
  eexists. split; [reflexivity|].
  exists (JSON_stringify (VObj (refreshed now session))). split.
  - cbn. apply lookup_insert_eq.
  - now rewrite json_roundtrip.
Qed.

(** With a session object stored, the end of [storeUserData] succeeds. *)
Lemma report_session_object now w session :
  session_stored w session ->
  exists sessionId,
    report_session now w
    = (Return (success [ ("sessionId" : str, sessionId);
                         ("message" : str, VStr "User data stored securely") ]),
       session_written w now session).
Proof.
  intros Hs. destruct (session_stored_written w now session) as (session' & _ & Hs').
  exists (lookup_prop "sessionId" session').
  unfold report_session.
  erewrite bind_Return by (apply updateSession_object; exact Hs).
  erewrite bind_Return by (apply getSession_object; exact Hs').
  reflexivity.
Qed.

Lemma session_stored_after_write w enc now r password session :
  session_stored w session -> session_stored (written w enc now r password) session.
Proof.
  intros (text & Hl & Hp). exists text. split; [|exact Hp].
  cbn. rewrite lookup_insert_ne by apply dataKey_sessKey. exact Hl.
Qed.

(** [storeUserData] always returns a result; with a session object stored
    it fails exactly on the records that are not acceptable. *)
Lemma storeUserData_fails_iff rnd now r password w session :
  session_stored w session ->
  exists res w',
    storeUserData rnd now r password w = (Return res, w')
    /\ (is_failure res <-> ~ acceptable r).
Proof.
  intros Hs.
  destruct (validateUserData_spec r w) as [Hnull Hval].
  destruct r as [| |b|z| |s|l|o] eqn:Er;
    try (destruct Hval as (b' & Hv & Hb); [discriminate | discriminate |]);
    try (rewrite <- Er in *).
  1, 2: (exists (failure TypeError), w; split;
         [ unfold storeUserData; erewrite try_Throw;
           [reflexivity | erewrite bind_Throw; [reflexivity | apply Hnull; subst; auto]]
         | split; [intros _ Hok; apply acceptable_not_nullish in Hok as [? ?]; subst; contradiction
                  | intros _; exact I] ]).
  all: destruct b' as [|].
  all: try (
    (* not acceptable *)
    exists (failure (Error "Invalid user data provided")), w; split;
    [ unfold storeUserData; erewrite try_Throw;
      [reflexivity | erewrite bind_Return by exact Hv; reflexivity]
    | split; [intros _ Hok; apply Hb in Hok; discriminate | intros _; exact I] ]).
  all: (
    (* acceptable *)
    assert (Hok : acceptable r) by (now apply Hb);
    destruct (CryptoFacts.encryptUserData_returns rnd (sensitive r) password w)
      as (enc & Henc & _ & _);
    destruct (report_session_object now (written w enc now r password) session
                (session_stored_after_write _ _ _ _ _ _ Hs)) as (sid & Hrep);
    do 2 eexists; split;
    [ rewrite (storeUserData_acceptable rnd now r password w enc Hok Henc);
      erewrite try_Return by exact Hrep; reflexivity
    | split; [intros [] | intros Hn; apply Hn, Hok] ]).
Qed.

(** *** Retrieval *)

Lemma retrieveUserData_absent password now w :
  absent (localStorage w !! dataKey) = true ->
  retrieveUserData password now w = (Return (failure (Error "No user data found")), w).
Proof.
  intros Ha. unfold retrieveUserData, try_catch, bind, getItem. fold dataKey.
  now rewrite Ha.
Qed.

(** With an envelope stored, [retrieveUserData] first verifies its hash;
    it goes on to decrypt only when the hash matches. *)
Lemma retrieveUserData_present password now w text env :
  localStorage w !! dataKey = Some text ->
  JSON_parse text = Some (VObj env) ->
  retrieveUserData password now w =
    if strict_eq_str (data_hash (rest_without "dataHash" (VObj env)))
         (lookup_prop "dataHash" env)
    then try_catch (decrypt_and_merge password now (VObj env))
           (fun error => ret (failure (Error "Failed to retrieve user data")))
           (journalled w [call_verifyDataIntegrity; call_generateDataHash])
    else (Return (failure (Error "Failed to retrieve user data")),
          journalled w [call_verifyDataIntegrity; call_generateDataHash]).
Proof.
  intros Hl Hp. unfold retrieveUserData. fold dataKey.
  assert (Ha : absent (Some text) = false).
  { destruct text; [|reflexivity]. rewrite json_parse_empty_text in Hp. discriminate. }
  assert (Hverify :
    verifyDataIntegrity (VObj (rest_without "dataHash" (VObj env)))
      (lookup_prop "dataHash" env) w
    = (Return (strict_eq_str (data_hash (rest_without "dataHash" (VObj env)))
                 (lookup_prop "dataHash" env)),
       journalled w [call_verifyDataIntegrity; call_generateDataHash])).
  { unfold verifyDataIntegrity, generateDataHash, bind, record_call, ret, journalled.
    cbn [localStorage journal]. rewrite <- app_assoc. reflexivity. }
  destruct (strict_eq_str _ _) eqn:Heq.
  - apply try_catch_ext.
    erewrite bind_Return by (unfold getItem; rewrite Hl; reflexivity).
    rewrite Ha.
    erewrite bind_Return by (cbn; rewrite Hp; reflexivity).
    erewrite bind_Return by reflexivity.
    erewrite bind_Return by exact Hverify.
    reflexivity.
  - erewrite try_Throw; [reflexivity|].
    erewrite bind_Return by (unfold getItem; rewrite Hl; reflexivity).
    rewrite Ha.
    erewrite bind_Return by (cbn; rewrite Hp; reflexivity).
    erewrite bind_Return by reflexivity.
    erewrite bind_Return by exact Hverify.
    reflexivity.
Qed.

Lemma getSession_world w : exists o, getSession w = (o, w).
Proof.
  unfold getSession, bind, getItem.
  destruct (absent _); [eexists; reflexivity|].
  destruct (JSON_parse _); eexists; reflexivity.
Qed.

Lemma updateSession_journal b now w :
  exists o w', updateSession b now w = (o, w') /\ journal w' = journal w.
Proof.
  unfold updateSession. destruct (getSession_world w) as ([v|e] & Hg).
  - erewrite bind_Return by exact Hg.
    destruct (truthy v); [|do 2 eexists; split; reflexivity].
    destruct v; do 2 eexists; split; reflexivity.
  - erewrite bind_Throw by exact Hg. do 2 eexists; split; reflexivity.
Qed.

Lemma decryptUserData_journal x password w :
  exists o, decryptUserData x password w = (o, journalled w [call_decryptUserData]).
Proof.
  unfold decryptUserData, bind at 1, record_call, try_catch.
  fold (journalled w [call_decryptUserData]).
  unfold bind at 1. destruct (atob _); cbn [or_throw]; [|eexists; reflexivity].
  unfold ret at 1, bind. destruct (aes_gcm_decrypt _ _ _ _); cbn [or_throw];
    [|eexists; reflexivity].
  unfold ret at 1. destruct (JSON_parse _); eexists; reflexivity.
Qed.

(** Once the hash matched, decryption is invoked, whatever comes of it. *)
Lemma decrypt_and_merge_journal password now parsed w :
  exists res w',
    try_catch (decrypt_and_merge password now parsed)
      (fun error => ret (failure (Error "Failed to retrieve user data"))) w
    = (Return res, w')
    /\ journal w' = journal w ++ [call_decryptUserData].
Proof.
  unfold decrypt_and_merge.
  destruct (decryptUserData_journal (field "encryptedData" parsed) password w) as ([v|e] & Hd).
  - destruct (updateSession_journal true now (journalled w [call_decryptUserData]))
      as ([[]|e] & w' & Hu & Hj).
    + do 2 eexists. split.
      * erewrite try_Return; [reflexivity|].
        erewrite bind_Return by exact Hd. erewrite bind_Return by exact Hu. reflexivity.
      * exact Hj.
    + do 2 eexists. split.
      * erewrite try_Throw; [reflexivity|].
        erewrite bind_Return by exact Hd. erewrite bind_Throw by exact Hu. reflexivity.
      * exact Hj.
  - do 2 eexists. split.
    + erewrite try_Throw; [reflexivity|]. erewrite bind_Throw by exact Hd. reflexivity.
    + reflexivity.
Qed.

(** *** Session validity *)

Lemma session_stored_unique w o o' : session_stored w o -> session_stored w o' -> o = o'.
Proof.
  intros (t & Hl & Hp) (t' & Hl' & Hp'). rewrite Hl in Hl'. injection Hl' as <-.
  rewrite Hp in Hp'. now injection Hp'.
Qed.

Lemma isSessionValid_none now w :
  absent (localStorage w !! sessKey) = true ->
  isSessionValid now w = (Return (VBool false), w).
Proof.
  intros Ha. unfold isSessionValid.
  erewrite bind_Return by (apply getSession_none; exact Ha). reflexivity.
Qed.

Lemma isSessionValid_typed now w b t :
  typed_session w b t ->
  isSessionValid now w = (Return (VBool (b && (now - t <? 24 * 60 * 60 * 1000)%Z)), w).
Proof.
  intros (o & Hs & Hb & Ht). unfold isSessionValid.
  erewrite bind_Return by (apply getSession_object; exact Hs).
  cbn [truthy negb get_prop or_throw]. unfold bind, ret.
  rewrite Hb, Ht. cbn [ToNumber truthy]. destruct b; reflexivity.
Qed.

(** *** Retrieval after a store *)

Lemma NoDup_keys_decide (ks : list str) : bool_decide (NoDup ks) = true -> NoDup ks.
Proof. apply bool_decide_eq_true_1. Qed.

Lemma envelope_parts enc now r password :
  let so := storage_object enc now r password in
  let env := envelope enc now r password in
  NoDup env.*1
  /\ rest_without "dataHash" (VObj (json_props env)) = json_props so
  /\ lookup_prop "dataHash" (json_props env) = VStr (data_hash so)
  /\ field "encryptedData" (VObj (json_props env)) = VStr enc
  /\ field "nonSensitiveData" (VObj (json_props env)) = jsonify (non_sensitive now r).
Proof.
  intros so env.
  assert (Hnd : NoDup env.*1) by (apply NoDup_keys_decide; reflexivity).
  split; [exact Hnd | split; [| split; [| split]]].
  - unfold env, envelope. fold so. rewrite json_props_app.
    unfold rest_without. cbn [own_props]. rewrite filter_app.
    rewrite filter_other_keys.
    + rewrite json_props_cons, json_props_nil. cbn [jsonify].
      rewrite filter_cons_False by (cbn; tauto). rewrite filter_nil. apply app_nil_r.
    + intros Hin. apply json_props_keys in Hin. revert Hin.
      apply (bool_decide_eq_false_1 ((js "dataHash") ∈ so.*1)). reflexivity.
  - rewrite lookup_json_props by exact Hnd. reflexivity.
  - unfold field. cbn [get_prop default]. rewrite lookup_json_props by exact Hnd. reflexivity.
  - unfold field. cbn [get_prop default]. rewrite lookup_json_props by exact Hnd. reflexivity.
Qed.

Lemma data_hash_json_props (o : object) : data_hash (json_props o) = data_hash o.
Proof.
  unfold data_hash, encode_json. rewrite <- jsonify_VObj. now rewrite json_skips_undefined.
Qed.

Lemma session_stored_journalled w cs session :
  session_stored w session -> session_stored (journalled w cs) session.
Proof. intros Hs. exact Hs. Qed.

(** After a store that succeeded, [retrieveUserData] with the same
    password returns the sensitive fields and the non-sensitive fields that
    were stored, as JSON keeps them. *)
Lemma retrieve_after_store rnd now now' r password w session enc :
  r <> VUndef ->
  btoa (fromCharCode (CryptoFacts.sealed_bytes rnd (sensitive r) password)) = Some enc ->
  atob enc = Some (fromCharCode (CryptoFacts.sealed_bytes rnd (sensitive r) password)) ->
  session_stored w session ->
  exists w',
    retrieveUserData password now'
      (session_written (written w enc now r password) now session)
    = (Return (success
         [ ("data" : str,
            VObj (spread2 (jsonify (sensitive r)) (jsonify (non_sensitive now r)))) ]),
       w').
Proof.
  intros Hr Hb Ha Hs.
  set (w2 := session_written (written w enc now r password) now session).
  destruct (envelope_parts enc now r password) as (Hnd & Hrest & Hhash & Henc & Hns).
  cbv zeta in Hrest, Hhash.
  assert (Hl : localStorage w2 !! dataKey
               = Some (JSON_stringify (VObj (envelope enc now r password)))).
  { cbn. rewrite lookup_insert_ne by (intros E; symmetry in E; now apply dataKey_sessKey in E).
    apply lookup_insert_eq. }
  assert (Hp : JSON_parse (JSON_stringify (VObj (envelope enc now r password)))
               = Some (VObj (json_props (envelope enc now r password))))
    by (now rewrite json_roundtrip).
  rewrite (retrieveUserData_present password now' w2 _ _ Hl Hp).
  rewrite Hrest, Hhash, data_hash_json_props.
  cbn [strict_eq_str]. rewrite bool_decide_eq_true_2 by reflexivity.
  destruct (session_stored_written (written w enc now r password) now session)
    as (session2 & _ & Hs2). fold w2 in Hs2.
  eexists. erewrite try_Return; [reflexivity|].
  unfold decrypt_and_merge. rewrite Henc, Hns.
  assert (Hsens : sensitive r <> VUndef) by discriminate.
  erewrite bind_Return by (apply (CryptoFacts.decryptUserData_sealed rnd); eassumption).
  erewrite bind_Return by (apply updateSession_object, session_stored_journalled,
                            session_stored_journalled; exact Hs2).
  reflexivity.
Qed.

(** The record that [retrieveUserData] puts together from the two
    stored halves. *)
Lemma stored_record_fields (f1 f2 f3 f4 f5 f6 f7 f8 terms privacy : value) (iso : str) :
  let half1 : object :=
    [ ("firstName" : str, f1); ("lastName" : str, f2); ("email" : str, f3);
      ("phone" : str, f4); ("shippingAddress" : str, f5); ("iban" : str, f6);
      ("bic" : str, f7); ("bankAccountOwner" : str, f8) ] in
  let half2 : object :=
    [ ("registrationDate" : str, VStr iso); ("termsAccepted" : str, terms);
      ("privacyAccepted" : str, privacy); ("emailVerified" : str, VBool false);
      ("accountStatus" : str, VStr "pending_verification") ] in
  let record := spread2 (VObj (json_props half1)) (VObj (json_props half2)) in
  (forall k, k ∈ carried_fields ->
     lookup_prop k record = as_json (lookup_prop k (half1 ++ half2)))
  /\ lookup_prop "registrationDate" record = VStr iso
  /\ lookup_prop "emailVerified" record = VBool false
  /\ lookup_prop "accountStatus" record = VStr "pending_verification"
  /\ (forall k, k ∉ carried_fields ++ reset_fields -> lookup_prop k record = VUndef).
Proof.
  intros half1 half2 record.
  assert (N1 : NoDup half1.*1) by (apply NoDup_keys_decide; vm_compute; reflexivity).
  assert (N2 : NoDup half2.*1) by (apply NoDup_keys_decide; vm_compute; reflexivity).
  assert (L : forall k, lookup_prop k record
                = match find_prop k half2 with
                  | Some VUndef | None => as_json (lookup_prop k half1)
                  | Some x => jsonify x
                  end)
    by (intros k; exact (lookup_spread_json k half1 half2 N1 N2)).
  clearbody record.
  split; [| split; [| split; [| split]]].
  - intros k Hk. rewrite L. unfold carried_fields in Hk.
    repeat (apply elem_of_cons in Hk as [-> | Hk];
            [ first [ vm_compute; reflexivity
                    | destruct terms; vm_compute; reflexivity
                    | destruct privacy; vm_compute; reflexivity ]
            | ]).
    now apply elem_of_nil in Hk.
  - rewrite L. vm_compute. reflexivity.
  - rewrite L. vm_compute. reflexivity.
  - rewrite L. vm_compute. reflexivity.
  - intros k Hk. rewrite L.
    assert (Hkeys : (k ∉ half1.*1) /\ (k ∉ half2.*1)).
    { split; intros Hin; apply Hk; revert Hin;
        unfold half1, half2, carried_fields, reset_fields;
        cbn [fmap list_fmap fst app];
        rewrite !elem_of_cons, !elem_of_nil; tauto. }
    destruct Hkeys as [H1 H2].
    apply find_prop_None in H1, H2.
    rewrite H2, lookup_find_prop, H1. reflexivity.
Qed.

(** *** What a successful retrieval tells *)

Lemma verifyDataIntegrity_undefined data w :
  exists w', verifyDataIntegrity data VUndef w = (Return false, w').
Proof. eexists. reflexivity. Qed.

Lemma retrieveUserData_not_object password now w (text : str) parsed :
  localStorage w !! dataKey = Some text ->
  text <> [] ->
  JSON_parse text = parsed ->
  (forall env, parsed <> Some (VObj env)) ->
  exists w', retrieveUserData password now w
             = (Return (failure (Error "Failed to retrieve user data")), w').
Proof.
  intros Hl Hne Hp Hno.
  assert (Hbody : forall e w',
    (let* parsedData := or_throw SyntaxError parsed in
     let* dataHash := or_throw TypeError (get_prop "dataHash" parsedData) in
     let* isValid := verifyDataIntegrity (VObj (rest_without "dataHash" parsedData))
                       dataHash in
     if negb isValid then throw (Error "Data integrity check failed")
     else
       let* decryptedData :=
         decryptUserData (default VUndef (get_prop "encryptedData" parsedData)) password in
       updateSession true now;;
       ret (success [ ("data" : str,
                       VObj (spread2 decryptedData
                               (default VUndef (get_prop "nonSensitiveData" parsedData)))) ]))
      w = (Throw e, w') ->
    retrieveUserData password now w
    = (Return (failure (Error "Failed to retrieve user data")), w')).
  { intros e w' Hb. unfold retrieveUserData. fold dataKey.
    erewrite try_Throw; [reflexivity|].
    erewrite bind_Return by (unfold getItem; rewrite Hl; reflexivity).
    replace (absent (Some text)) with false by (now destruct text).
    change (default [] (Some text)) with text. rewrite Hp. exact Hb. }
  destruct parsed as [v|]; [|eexists; eapply Hbody; reflexivity].
  destruct v; try (now exfalso; eapply Hno);
    eexists; eapply Hbody; reflexivity.
Qed.

(** A retrieval that succeeded returned one property, [data], which is a
    merge of two values; and a session that was stored is still stored. *)
Lemma retrieveUserData_success password now w session props w' :
  session_stored w session ->
  retrieveUserData password now w = (Return (success props), w') ->
  exists x y session',
    props = [ ("data" : str, VObj (spread2 x y)) ] /\ session_stored w' session'.
Proof.
  intros Hs Hr.
  destruct (localStorage w !! dataKey) as [text|] eqn:Hl;
    [| rewrite retrieveUserData_absent in Hr by (now rewrite Hl); discriminate Hr].
  destruct (decide (text = [])) as [->|Hne];
    [rewrite retrieveUserData_absent in Hr by (now rewrite Hl); discriminate Hr|].
  destruct (JSON_parse text) as [parsed|] eqn:Hp.
  2: { destruct (retrieveUserData_not_object password now w text None Hl Hne Hp) as (w2 & E);
         [discriminate | rewrite E in Hr; discriminate Hr]. }
  destruct parsed as [| |b|z| |s|l|env];
    try (destruct (retrieveUserData_not_object password now w text _ Hl Hne Hp) as (w2 & E);
         [discriminate | rewrite E in Hr; discriminate Hr]).
  rewrite (retrieveUserData_present password now w _ env Hl Hp) in Hr.
  destruct (strict_eq_str _ _); [|discriminate Hr].
  set (wj := journalled w [call_verifyDataIntegrity; call_generateDataHash]) in Hr.
  destruct (decryptUserData_journal (field "encryptedData" (VObj env)) password wj)
    as ([v|e] & Hd).
  - destruct (session_stored_written (journalled wj [call_decryptUserData]) now session)
      as (session' & _ & Hs').
    erewrite try_Return in Hr; cycle 1.
    { unfold decrypt_and_merge. erewrite bind_Return by exact Hd.
      erewrite bind_Return by (apply updateSession_object; exact Hs). reflexivity. }
    injection Hr as <- <-. do 3 eexists. split; [reflexivity | exact Hs'].
  - erewrite try_Throw in Hr; cycle 1.
    { unfold decrypt_and_merge. erewrite bind_Throw by exact Hd. reflexivity. }
    discriminate Hr.
Qed.

Lemma spread2_NoDup x y : NoDup (spread2 x y).*1.
Proof. unfold spread2. apply assign_NoDup, assign_NoDup. constructor. Qed.

(** *** Update *)

(** [updateUserData] is a retrieval followed by a store of the merged
    record. *)
Lemma updateUserData_merges rnd now u password w props w1 session :
  session_stored w session ->
  retrieveUserData password now w = (Return (success props), w1) ->
  let merged := VObj (spread2 (lookup_prop "data" props) u) in
  acceptable merged ->
  exists sessionId session1 enc,
    atob enc = Some (fromCharCode (CryptoFacts.sealed_bytes rnd (sensitive merged) password))
    /\ btoa (fromCharCode (CryptoFacts.sealed_bytes rnd (sensitive merged) password)) = Some enc
    /\ session_stored w1 session1
    /\ updateUserData rnd now u password w
       = (Return (success [ ("sessionId" : str, sessionId);
                            ("message" : str, VStr "User data stored securely") ]),
          session_written (written w1 enc now merged password) now session1).
Proof.
  intros Hs Hr merged Hok.
  destruct (retrieveUserData_success password now w session props w1 Hs Hr)
    as (x & y & session1 & _ & Hs1).
  destruct (CryptoFacts.encryptUserData_returns rnd (sensitive merged) password w1)
    as (enc & Hb & Ha & _).
  destruct (report_session_object now (written w1 enc now merged password) session1
              (session_stored_after_write _ _ _ _ _ _ Hs1)) as (sid & Hrep).
  exists sid, session1, enc. split; [exact Ha | split; [exact Hb | split; [exact Hs1|]]].
  unfold updateUserData. erewrite try_Return; [reflexivity|].
  erewrite bind_Return by exact Hr. cbv beta iota. fold merged.
  rewrite (storeUserData_acceptable rnd now merged password w1 enc Hok Hb).
  erewrite try_Return by exact Hrep. reflexivity.
Qed.

End Facts.
End StorageFacts.

(** C3, as the code has it.  With a session object in storage,
    [storeUserData] returns a failure exactly when one of the eight
    required fields (firstName, lastName, email, shippingAddress, iban,
    bic, bankAccountOwner, password) is missing or is not a non-empty
    string, or the email, the IBAN or the BIC fails its format check;
    otherwise it returns a success. *)
Theorem store_fails_iff_not_acceptable `{HostLaws}
    (rnd : entropy) (now : Z) (r : value) (password : str) (w : World)
    (session : object) :
  Storage.session_stored w session ->
  exists res w',
    SecureStorageManager.storeUserData rnd now r password w = (Return res, w')
    /\ (Storage.is_failure res <-> ~ Storage.acceptable r).
Proof. apply StorageFacts.storeUserData_fails_iff. Qed.

Lemma store_fails_iff_not_acceptable_witness :
  exists res w',
    SecureStorageManager.storeUserData Examples.rnd0 2000 Examples.ada "Secret1!"
      Examples.fresh_world = (Return res, w')
    /\ (Storage.is_failure res <-> ~ Storage.acceptable Examples.ada).
Proof.
  apply (store_fails_iff_not_acceptable Examples.rnd0 2000
           Examples.ada "Secret1!" Examples.fresh_world
           [ ("sessionId" : str, VStr (WaxEncountersSecurity.generateSessionToken Examples.rnd0));
             ("createdAt" : str, VNum 1000);
             ("lastActivity" : str, VNum 1000);
             ("isActive" : str, VBool false) ]).
  exists (default [] (localStorage Examples.fresh_world !! Storage.sessKey)).
  split; vm_compute; reflexivity.
Defined.

(** C3 as stated fails in both directions.  A record with the eight
    sensitive fields of the design document, all well formed, and no
    [password] is rejected; a record with no [phone] is stored. *)
Lemma store_gate_is_not_the_sensitive_fields :
  (Storage.sensitive_fields_valid Examples.ada_without_password
   /\ (SecureStorageManager.storeUserData Examples.rnd0 2000 Examples.ada_without_password
         "Secret1!" Examples.fresh_world).1
      = Return (failure (Error "Invalid user data provided")))
  /\ ((Storage.sensitive_fields_valid Examples.ada -> False)
      /\ exists props,
           (SecureStorageManager.storeUserData Examples.rnd0 2000 Examples.ada
              "Secret1!" Examples.fresh_world).1
           = Return (success props)).
Proof.
  split; [split | split].
  - split; [|repeat split; vm_compute; reflexivity].
    repeat split; (eexists; split; [vm_compute; reflexivity | discriminate]).
  - vm_compute. reflexivity.
  - intros [(_ & _ & _ & (s & Hs & _) & _) _]. vm_compute in Hs. discriminate Hs.
  - eexists. vm_compute. reflexivity.
Qed.

(** C5 fails on the code.  When no session is in storage (before
    [initialize()], or after [deleteUserData()]), [storeUserData] on an
    acceptable record writes the envelope and then returns a failure:
    reading [sessionId] of the missing session throws. *)
Theorem store_fails_after_writing `{HostLaws}
    (rnd : entropy) (now : Z) (r : value) (password : str) (w : World) :
  Storage.acceptable r ->
  absent (localStorage w !! Storage.sessKey) = true ->
  exists enc w',
    SecureStorageManager.storeUserData rnd now r password w
    = (Return (failure TypeError), w')
    /\ localStorage w' !! Storage.dataKey
       = Some (JSON_stringify (VObj (Storage.envelope enc now r password))).
Proof.
  intros Hok Hnone.
  destruct (CryptoFacts.encryptUserData_returns rnd (Storage.sensitive r) password w)
    as (enc & Henc & _ & _).
  exists enc, (Storage.written w enc now r password). split.
  - rewrite (StorageFacts.storeUserData_acceptable rnd now r password w enc Hok Henc).
    erewrite StorageFacts.try_Throw; [reflexivity|].
    apply StorageFacts.report_session_none.
    cbn. rewrite lookup_insert_ne by apply StorageFacts.dataKey_sessKey. exact Hnone.
  - cbn. apply lookup_insert_eq.
Qed.

Lemma store_fails_after_writing_witness :
  localStorage Examples.empty_world !! Storage.dataKey = None
  /\ exists enc w',
       SecureStorageManager.storeUserData Examples.rnd0 2000 Examples.ada "Secret1!"
         Examples.empty_world = (Return (failure TypeError), w')
       /\ localStorage w' !! Storage.dataKey
          = Some (JSON_stringify
                    (VObj (Storage.envelope enc 2000 Examples.ada "Secret1!"))).
Proof.
  split; [reflexivity|].
  apply store_fails_after_writing.
  - split; [|repeat split; vm_compute; reflexivity].
    repeat split; (eexists; split; [vm_compute; reflexivity | discriminate]).
  - reflexivity.
Defined.

(** C2. With nothing stored under the user-data key, [retrieveUserData]
    returns the failure [No user data found] and touches nothing.  With an
    envelope stored, it first recomputes the hash over the envelope without
    its [dataHash] and compares it with the stored [dataHash]: on a
    mismatch it returns the (other) failure [Failed to retrieve user data]
    and [decryptUserData] was not called; on a match it calls
    [decryptUserData] next. *)
Theorem retrieve_checks_integrity_first `{HostLaws}
    (password : str) (now : Z) (w : World) :
  (absent (localStorage w !! Storage.dataKey) = true ->
   SecureStorageManager.retrieveUserData password now w
   = (Return (failure (Error "No user data found")), w))
  /\ (forall text env,
        localStorage w !! Storage.dataKey = Some text ->
        JSON_parse text = Some (VObj env) ->
        let actual := Storage.data_hash (rest_without "dataHash" (VObj env)) in
        let expected := lookup_prop "dataHash" env in
        (strict_eq_str actual expected = false ->
         SecureStorageManager.retrieveUserData password now w
         = (Return (failure (Error "Failed to retrieve user data")),
            Crypto.journalled w [call_verifyDataIntegrity; call_generateDataHash]))
        /\ (strict_eq_str actual expected = true ->
            exists res w',
              SecureStorageManager.retrieveUserData password now w = (Return res, w')
              /\ journal w' = journal w ++ [call_verifyDataIntegrity; call_generateDataHash;
                                            call_decryptUserData])).
Proof.
  split.
  - apply StorageFacts.retrieveUserData_absent.
  - intros text env Hl Hp actual expected.
    pose proof (StorageFacts.retrieveUserData_present password now w text env Hl Hp) as R.
    fold actual expected in R. split; intros E; rewrite E in R.
    + exact R.
    + destruct (StorageFacts.decrypt_and_merge_journal password now (VObj env)
                  (Crypto.journalled w [call_verifyDataIntegrity; call_generateDataHash]))
        as (res & w' & Hd & Hj).
      exists res, w'. split; [now rewrite R|].
      rewrite Hj. cbn [Crypto.journalled journal]. now rewrite <- app_assoc.
Qed.

(** A tampered hash on the model host: the failure, and a journal without
    a call of [decryptUserData]. *)
Example tampered_envelope_not_decrypted :
  (SecureStorageManager.retrieveUserData "Secret1!" 3000 Examples.tampered_world).1
  = Return (failure (Error "Failed to retrieve user data"))
  /\ journal (SecureStorageManager.retrieveUserData "Secret1!" 3000
                Examples.tampered_world).2
     = [call_verifyDataIntegrity; call_generateDataHash].
Proof. split; vm_compute; reflexivity. Qed.

Lemma retrieve_checks_integrity_first_witness :
  (absent (localStorage Examples.tampered_world !! Storage.dataKey) = true ->
   SecureStorageManager.retrieveUserData "Secret1!" 3000 Examples.tampered_world
   = (Return (failure (Error "No user data found")), Examples.tampered_world))
  /\ (forall text env,
        localStorage Examples.tampered_world !! Storage.dataKey = Some text ->
        JSON_parse text = Some (VObj env) ->
        let actual := Storage.data_hash (rest_without "dataHash" (VObj env)) in
        let expected := lookup_prop "dataHash" env in
        (strict_eq_str actual expected = false ->
         SecureStorageManager.retrieveUserData "Secret1!" 3000 Examples.tampered_world
         = (Return (failure (Error "Failed to retrieve user data")),
            Crypto.journalled Examples.tampered_world
              [call_verifyDataIntegrity; call_generateDataHash]))
        /\ (strict_eq_str actual expected = true ->
            exists res w',
              SecureStorageManager.retrieveUserData "Secret1!" 3000 Examples.tampered_world
              = (Return res, w')
              /\ journal w' = journal Examples.tampered_world
                              ++ [call_verifyDataIntegrity; call_generateDataHash;
                                  call_decryptUserData])).
Proof.
  exact (retrieve_checks_integrity_first "Secret1!" 3000 Examples.tampered_world).
Defined.

(** C9. With the session key empty or holding a typed session,
    [isSessionValid] returns true exactly when a session is stored whose
    [isActive] is true and whose [lastActivity] is less than 24 hours
    before now; a session last active 25 hours ago is not valid, one last
    active 23 hours ago is. *)
Theorem session_valid_iff_fresh `{HostLaws} (now : Z) (w : World) :
  Storage.session_well_typed w ->
  (SecureStorageManager.isSessionValid now w = (Return (VBool true), w)
   <-> exists t, Storage.typed_session w true t /\ (now - t < 24 * 60 * 60 * 1000)%Z)
  /\ (Storage.typed_session w true (now - 25 * 60 * 60 * 1000) ->
      SecureStorageManager.isSessionValid now w = (Return (VBool false), w))
  /\ (Storage.typed_session w true (now - 23 * 60 * 60 * 1000) ->
      SecureStorageManager.isSessionValid now w = (Return (VBool true), w)).
Proof.
  intros Hwt. split; [|split].
  - split.
    + destruct Hwt as [Hnone | (b & t & Hs)].
      * rewrite StorageFacts.isSessionValid_none by exact Hnone. discriminate.
      * rewrite (StorageFacts.isSessionValid_typed now w b t Hs).
        intros [= Hb]. apply andb_prop in Hb as [-> Hlt].
        exists t. split; [exact Hs | now apply Z.ltb_lt].
    + intros (t & Hs & Hlt).
      rewrite (StorageFacts.isSessionValid_typed now w true t Hs).
      apply Z.ltb_lt in Hlt. now rewrite Hlt.
  - intros Hs. rewrite (StorageFacts.isSessionValid_typed now w true _ Hs).
    replace (now - (now - 25 * 60 * 60 * 1000))%Z with (25 * 60 * 60 * 1000)%Z by lia.
    reflexivity.
  - intros Hs. rewrite (StorageFacts.isSessionValid_typed now w true _ Hs).
    replace (now - (now - 23 * 60 * 60 * 1000))%Z with (23 * 60 * 60 * 1000)%Z by lia.
    reflexivity.
Qed.

Lemma session_valid_iff_fresh_witness :
  Storage.session_well_typed Examples.stored_world
  /\ (SecureStorageManager.isSessionValid 5000 Examples.stored_world
      = (Return (VBool true), Examples.stored_world)
      <-> exists t, Storage.typed_session Examples.stored_world true t
                    /\ (5000 - t < 24 * 60 * 60 * 1000)%Z).
Proof.
  assert (Hwt : Storage.session_well_typed Examples.stored_world).
  { right. exists true, 2000%Z, Examples.stored_session.
    split; [| split; vm_compute; reflexivity].
    exists (default [] (localStorage Examples.stored_world !! Storage.sessKey)).
    split; vm_compute; reflexivity. }
  split; [exact Hwt|].
  exact (proj1 (session_valid_iff_fresh 5000 Examples.stored_world Hwt)).
Defined.

(** An update whose merged record passes the gate.  In a world that holds
    a session and where [retrieveUserData] with password [p] succeeds, if
    the stored record merged with [u] passes the gate of [storeUserData]
    (so it has a [password] field, among others), then [updateUserData(u,
    p)] succeeds, and the record retrievable afterwards has the eight
    sensitive fields, [termsAccepted] and [privacyAccepted] of the merged
    record, as JSON keeps them; [registrationDate], [emailVerified] and
    [accountStatus] are set anew, and it has no other field.  In the merged
    record a field of [u] overrides the stored one. *)
Theorem update_carries_merged_fields `{HostLaws}
    (rnd : entropy) (now now' : Z) (u : value) (p : str)
    (w w1 : World) (session props : object) :
  Storage.session_stored w session ->
  SecureStorageManager.retrieveUserData p now w = (Return (success props), w1) ->
  let stored := lookup_prop "data" props in
  let merged := VObj (spread2 stored u) in
  Storage.acceptable merged ->
  (exists props2 w2 record w3,
     SecureStorageManager.updateUserData rnd now u p w = (Return (success props2), w2)
     /\ SecureStorageManager.retrieveUserData p now' w2
        = (Return (success [ ("data" : str, VObj record) ]), w3)
     /\ (forall k, k ∈ Storage.carried_fields ->
           lookup_prop k record = as_json (Storage.field k merged))
     /\ lookup_prop "registrationDate" record = VStr (toISOString now)
     /\ lookup_prop "emailVerified" record = VBool false
     /\ lookup_prop "accountStatus" record = VStr "pending_verification"
     /\ (forall k, k ∉ Storage.carried_fields ++ Storage.reset_fields ->
           lookup_prop k record = VUndef))
  /\ (NoDup (own_props u).*1 ->
      forall k, Storage.field k merged
                = match find_prop k (own_props u) with
                  | Some v => v
                  | None => Storage.field k stored
                  end).
Proof.
  intros Hs Hr stored merged Hok. split.
  - destruct (StorageFacts.updateUserData_merges rnd now u p w props w1 session Hs Hr Hok)
      as (sid & session1 & enc & Ha & Hb & Hs1 & Hu).
    fold stored merged in Ha, Hb, Hu.
    destruct (StorageFacts.retrieve_after_store rnd now now' merged p w1 session1 enc
                ltac:(discriminate) Hb Ha Hs1) as (w3 & Hr').
    unfold Storage.sensitive, Storage.non_sensitive in Hr'.
    rewrite !jsonify_VObj in Hr'.
    destruct (StorageFacts.stored_record_fields
                (Storage.field "firstName" merged) (Storage.field "lastName" merged)
                (Storage.field "email" merged) (Storage.field "phone" merged)
                (Storage.field "shippingAddress" merged) (Storage.field "iban" merged)
                (Storage.field "bic" merged) (Storage.field "bankAccountOwner" merged)
                (Storage.field "termsAccepted" merged)
                (Storage.field "privacyAccepted" merged) (toISOString now))
      as (Hcarried & Hreg & Hmail & Hstatus & Hother).
    do 4 eexists. split; [exact Hu | split; [exact Hr' | split; [| split; [| split; [| split]]]]].
    + intros k Hk. rewrite (Hcarried k Hk). f_equal.
      unfold Storage.carried_fields in Hk.
      repeat (apply elem_of_cons in Hk as [-> | Hk]; [reflexivity|]).
      now apply elem_of_nil in Hk.
    + exact Hreg.
    + exact Hmail.
    + exact Hstatus.
    + exact Hother.
  - intros Hnd k.
    destruct (StorageFacts.retrieveUserData_success p now w session props w1 Hs Hr)
      as (x & y & _ & Hprops & _).
    unfold merged, stored. rewrite Hprops.
    change (lookup_prop "data" [("data" : str, VObj (spread2 x y))])
      with (VObj (spread2 x y)).
    unfold Storage.field. cbn [get_prop default].
    apply lookup_spread; [apply StorageFacts.spread2_NoDup | exact Hnd].
Qed.

Lemma update_carries_merged_fields_witness :
  Storage.session_stored Examples.stored_world Examples.stored_session
  /\ SecureStorageManager.retrieveUserData "Secret1!" 3000 Examples.stored_world
     = (Return (success Examples.retrieved_props), Examples.retrieved.2)
  /\ Storage.acceptable
       (VObj (spread2 (lookup_prop "data" Examples.retrieved_props)
                Examples.new_phone_and_password))
  /\ exists props2 w2 record w3,
       SecureStorageManager.updateUserData Examples.rnd0 3000
         Examples.new_phone_and_password "Secret1!" Examples.stored_world
       = (Return (success props2), w2)
       /\ SecureStorageManager.retrieveUserData "Secret1!" 4000 w2
          = (Return (success [ ("data" : str, VObj record) ]), w3)
       /\ lookup_prop "phone" record = VStr "+4912345"
       /\ lookup_prop "firstName" record = VStr "Ada".
Proof.
  assert (Hs : Storage.session_stored Examples.stored_world Examples.stored_session)
    by (exists (default [] (localStorage Examples.stored_world !! Storage.sessKey));
        split; vm_compute; reflexivity).
  assert (Hr : SecureStorageManager.retrieveUserData "Secret1!" 3000 Examples.stored_world
               = (Return (success Examples.retrieved_props), Examples.retrieved.2))
    by (vm_compute; reflexivity).
  assert (Hok : Storage.acceptable
                  (VObj (spread2 (lookup_prop "data" Examples.retrieved_props)
                           Examples.new_phone_and_password))).
  { split; [|repeat split; vm_compute; reflexivity].
    repeat split; (eexists; split; [vm_compute; reflexivity | discriminate]). }
  split; [exact Hs | split; [exact Hr | split; [exact Hok|]]].
  destruct (proj1 (update_carries_merged_fields Examples.rnd0 3000 4000
                     Examples.new_phone_and_password "Secret1!" Examples.stored_world
                     Examples.retrieved.2 Examples.stored_session Examples.retrieved_props
                     Hs Hr Hok))
    as (props2 & w2 & record & w3 & Hu & Hr' & Hcarried & _).
  exists props2, w2, record, w3. split; [exact Hu | split; [exact Hr' | split]].
  - rewrite (Hcarried "phone")
      by (do 3 (apply elem_of_cons; right); apply elem_of_cons; left; reflexivity).
    vm_compute. reflexivity.
  - rewrite (Hcarried "firstName") by (apply elem_of_cons; left; reflexivity).
    vm_compute. reflexivity.
Defined.


(** * Further properties of the program

    Properties of the methods around the ones the design document names:
    what they accept, what they leave alone, and how they compose. *)

(** ** Regular expressions: runs with bounds *)

Section RegexRuns.

Lemma alt_Empty_r (r : regex) : alt r Empty = r.
Proof. destruct r; reflexivity. Qed.

Lemma regex_test_Eps_Cat (r : regex) (s : str) : regex_test (Cat Eps r) s = regex_test r s.
Proof. destruct s as [|c s]; reflexivity. Qed.

Lemma regex_test_UpTo_Class (p : char -> bool) (n : nat) (s : str) :
  regex_test (UpTo n (Class p)) s = (length s <=? n)%nat && forallb p s.
Proof.
  unfold regex_test. revert n. induction s as [|c s IH]; intros n.
  - destruct n; reflexivity.
  - destruct n as [|n]; cbn [fold_left UpTo Opt deriv nullable length].
    + now rewrite deriv_Empty_all.
    + rewrite alt_Empty_r. destruct (p c) eqn:Hp; cbn [forallb]; rewrite Hp.
      * rewrite cat_Eps_l, IH. reflexivity.
      * cbn [cat]. rewrite deriv_Empty_all. cbn [andb]. now rewrite andb_false_r.
Qed.

Lemma regex_test_Rep_Alt (p : char -> bool) (n : nat) (x y : regex) (s : str) :
  regex_test (Cat (Rep n (Class p)) (Alt x y)) s
  = (n <=? length s)%nat && forallb p (take n s) && regex_test (Alt x y) (drop n s).
Proof.
  revert s. induction n as [|n IH]; intros s.
  - cbn [Rep]. rewrite regex_test_Eps_Cat. now rewrite take_0, drop_0.
  - destruct s as [|c s]; [reflexivity|].
    specialize (IH s). unfold regex_test in *.
    cbn [fold_left Rep deriv nullable andb length firstn skipn forallb take drop].
    destruct (p c) eqn:Hp; cbn [andb].
    + rewrite cat_Eps_l. destruct n as [|n].
      * cbn [Rep cat]. cbn [Rep] in IH. now rewrite take_0, drop_0.
      * cbn [Rep cat]. cbn [Rep] in IH. exact IH.
    + cbn [cat]. rewrite deriv_Empty_all. now rewrite andb_false_r.
Qed.

(** [/^[p]{n,n+m+1}$/] *)
Lemma regex_test_between (p : char -> bool) (n m : nat) (s : str) :
  regex_test (Cat (Rep n (Class p)) (UpTo (S m) (Class p))) s
  = (n <=? length s)%nat && (length s <=? n + S m)%nat && forallb p s.
Proof.
  change (UpTo (S m) (Class p)) with (Alt (Cat (Class p) (UpTo m (Class p))) Eps).
  rewrite regex_test_Rep_Alt.
  change (Alt (Cat (Class p) (UpTo m (Class p))) Eps) with (UpTo (S m) (Class p)).
  rewrite regex_test_UpTo_Class.
  assert (Hf : forallb p s = forallb p (take n s) && forallb p (drop n s))
    by (now rewrite <- forallb_app, take_drop).
  rewrite Hf.
  destruct (n <=? length s)%nat eqn:Hn; [|reflexivity].
  apply Nat.leb_le in Hn. rewrite length_drop.
  replace (length s - n <=? S m)%nat with (length s <=? n + S m)%nat.
  - cbn [andb]. destruct (forallb p (take n s)), (length s <=? n + S m)%nat; reflexivity.
  - destruct (length s <=? n + S m)%nat eqn:E1, (length s - n <=? S m)%nat eqn:E2;
      try reflexivity;
      repeat match goal with
      | H : (_ <=? _)%nat = true |- _ => apply Nat.leb_le in H
      | H : (_ <=? _)%nat = false |- _ => apply Nat.leb_gt in H
      end; lia.
Qed.

End RegexRuns.

(** ** Session tokens, password strength, e-mail domains *)

(** X1. [validateSessionToken] accepts exactly the strings of 64 lower-case
    hexadecimal digits; a value that is not a string is refused. *)
Theorem session_token_format (token : value) :
  ServerValidation.validateSessionToken token = true
  <-> exists s, token = VStr s /\ length s = 64%nat
                /\ forallb SessionToken.is_lower_hex s = true.
Proof.
  unfold ServerValidation.validateSessionToken, ServerValidation.tokenRegex.
  split.
  - destruct token as [| |b|z| |s|l|o]; cbn [truthy is_string negb orb];
      try discriminate; try (destruct b; discriminate);
      try (rewrite orb_true_r; discriminate).
    rewrite orb_false_r. destruct (negb (negb (bool_decide (s = [])))); [discriminate|].
    cbn [ToString]. rewrite regex_test_Rep_Class.
    intros Ht. apply andb_prop in Ht as [Hl Hh]. apply Nat.eqb_eq in Hl.
    exists s. split; [reflexivity | split; [exact Hl | exact Hh]].
  - intros (s & -> & Hl & Hh). cbn [truthy is_string negb orb ToString].
    rewrite bool_decide_eq_false_2 by (intros ->; discriminate Hl).
    cbn [negb orb]. rewrite regex_test_Rep_Class, Hl. exact Hh.
Qed.

Module PasswordStrengthFacts.
Import PasswordStrength.

Lemma point_range b : (0 <= point b <= 1)%Z.
Proof. destruct b; cbn; lia. Qed.

Lemma point_le (b b' : bool) : (b = true -> b' = true) -> (point b <= point b')%Z.
Proof. destruct b, b'; cbn; intros Hb; try lia; discriminate (Hb eq_refl). Qed.

Lemma contains_grows cls (a b c : str) :
  contains cls b = true -> contains cls (a ++ b ++ c) = true.
Proof.
  unfold contains, str, char in *. intros Hb. rewrite !existsb_app, Hb. now rewrite orb_true_r.
Qed.

End PasswordStrengthFacts.

(** X2. The score of [checkPasswordStrength] is between 0 and 5, and it
    never decreases when characters are added before or after the
    password.  A password with a lower-case letter, an upper-case letter, a
    digit and one of [@$!%*?&] is rated [strong] whatever its length: the
    length is one point among five. *)
Theorem password_score_grows (a b c : str) :
  let check := PasswordStrength.checkPasswordStrength in
  (0 <= PasswordStrength.score (check b) <= 5)%Z
  /\ (PasswordStrength.score (check b) <= PasswordStrength.score (check (a ++ b ++ c)))%Z
  /\ (contains is_lower b = true -> contains is_upper b = true ->
      contains is_digit b = true -> contains PasswordStrength.is_special b = true ->
      PasswordStrength.strength (check b) = ("strong" : str)).
Proof.
  intros check. unfold check, PasswordStrength.checkPasswordStrength.
  cbn [PasswordStrength.score PasswordStrength.strength PasswordStrength.length_
       PasswordStrength.lowercase PasswordStrength.uppercase PasswordStrength.numbers
       PasswordStrength.special].
  split; [|split].
  - pose proof (PasswordStrengthFacts.point_range (8 <=? length b)%nat).
    pose proof (PasswordStrengthFacts.point_range (contains is_lower b)).
    pose proof (PasswordStrengthFacts.point_range (contains is_upper b)).
    pose proof (PasswordStrengthFacts.point_range (contains is_digit b)).
    pose proof (PasswordStrengthFacts.point_range (contains PasswordStrength.is_special b)).
    lia.
  - assert (Hlen : (PasswordStrength.point (8 <=? length b)%nat
                    <= PasswordStrength.point (8 <=? length (a ++ b ++ c))%nat)%Z).
    { apply PasswordStrengthFacts.point_le. intros Hb. apply Nat.leb_le in Hb.
      apply Nat.leb_le. rewrite !length_app. lia. }
    pose proof (PasswordStrengthFacts.point_le _ _
                  (PasswordStrengthFacts.contains_grows is_lower a b c)).
    pose proof (PasswordStrengthFacts.point_le _ _
                  (PasswordStrengthFacts.contains_grows is_upper a b c)).
    pose proof (PasswordStrengthFacts.point_le _ _
                  (PasswordStrengthFacts.contains_grows is_digit a b c)).
    pose proof (PasswordStrengthFacts.point_le _ _
                  (PasswordStrengthFacts.contains_grows PasswordStrength.is_special a b c)).
    lia.
  - intros -> -> -> ->. cbn [PasswordStrength.point].
    destruct (8 <=? length b)%nat; reflexivity.
Qed.

Lemma password_score_grows_witness :
  PasswordStrength.strength (PasswordStrength.checkPasswordStrength "aB3!") = ("strong" : str).
Proof.
  apply (proj2 (proj2 (password_score_grows [] "aB3!" []))); reflexivity.
Defined.

Module EmailDomainFacts.
Import EmailDomain.

Lemma validDomains_match :
  Forall (fun d => regex_test domainRegex d = true) validDomains.
Proof. repeat constructor; vm_compute; reflexivity. Qed.

Lemma js_split_no_separator (sep : char) (s : str) :
  Forall (fun c => c <> sep) s -> js_split sep s = [s].
Proof.
  induction 1 as [|c s Hc _ IH]; [reflexivity|].
  cbn [js_split]. apply N.eqb_neq in Hc. now rewrite Hc, IH.
Qed.

End EmailDomainFacts.

(** X3. The list of well-known domains in [validateEmailDomain] has no
    effect: the answer is that of [isValidCustomDomain] on the text
    between the first and the second [@].  An address without [@] passes,
    because the pattern is then applied to the text [undefined]. *)
Theorem email_domain_list_is_redundant (email : str) :
  EmailDomain.validateEmailDomain email
  = EmailDomain.isValidCustomDomain (EmailDomain.domain_of email)
  /\ (Forall (fun c => c <> 64) email -> EmailDomain.validateEmailDomain email = true).
Proof.
  assert (Hlist : forall v,
            existsb (fun d => strict_eq_str d v) EmailDomain.validDomains = true ->
            EmailDomain.isValidCustomDomain v = true).
  { intros v Hex. apply existsb_exists in Hex as (d & Hin & Heq).
    destruct v; try discriminate Heq. cbn [strict_eq_str] in Heq.
    apply bool_decide_eq_true_1 in Heq. subst s.
    pose proof EmailDomainFacts.validDomains_match as Hall.
    rewrite List.Forall_forall in Hall. exact (Hall d Hin). }
  assert (Hfirst : EmailDomain.validateEmailDomain email
                   = EmailDomain.isValidCustomDomain (EmailDomain.domain_of email)).
  { unfold EmailDomain.validateEmailDomain.
    destruct (existsb _ EmailDomain.validDomains) eqn:Hex; [|reflexivity].
    cbn [orb]. symmetry. now apply Hlist. }
  split; [exact Hfirst|].
  intros Hno. rewrite Hfirst. unfold EmailDomain.domain_of.
  rewrite (EmailDomainFacts.js_split_no_separator 64 email Hno).
  vm_compute. reflexivity.
Qed.

Lemma email_domain_list_is_redundant_witness :
  EmailDomain.validateEmailDomain "not-an-address" = true.
Proof.
  apply (proj2 (email_domain_list_is_redundant "not-an-address")).
  repeat constructor; discriminate.
Defined.

(** ** Payment data *)

Module PaymentFacts.
Import ServerValidation Payment.

Lemma digit_not_space (c : char) : is_digit c = true -> is_space c = false.
Proof.
  unfold is_digit, in_range. intros Hc. apply andb_prop in Hc as [H1 H2].
  apply N.leb_le in H1, H2.
  assert (Hcases : c = 48 \/ c = 49 \/ c = 50 \/ c = 51 \/ c = 52 \/ c = 53
                   \/ c = 54 \/ c = 55 \/ c = 56 \/ c = 57) by lia.
  repeat (destruct Hcases as [-> | Hcases]; [reflexivity|]). subst c. reflexivity.
Qed.

Lemma luhn_fold (l : str) : forall sum isEven,
  forallb is_digit l = true ->
  (fold_left luhn_step l (Some sum, isEven)).1 = Some (sum + luhn_total isEven l).
Proof.
  induction l as [|c l IH]; intros sum isEven Hd.
  - cbn. now rewrite N.add_0_r.
  - cbn [forallb] in Hd. apply andb_prop in Hd as [Hc Hl].
    cbn [fold_left luhn_step luhn_total]. unfold parseInt1. rewrite Hc.
    cbn [mbind option_bind]. rewrite IH by exact Hl. f_equal. lia.
Qed.

Lemma luhn_total_split (x : str) : forall isEven,
  exists e, forall c y,
    luhn_total isEven (x ++ c :: y)
    = luhn_total isEven x + luhn_digit e (c - 48) + luhn_total (negb e) y.
Proof.
  induction x as [|a x IH]; intros isEven.
  - exists isEven. intros c y. cbn. lia.
  - destruct (IH (negb isEven)) as (e & He). exists e. intros c y.
    cbn [app luhn_total]. rewrite He. lia.
Qed.

Lemma luhn_digit_small e d : d <= 9 -> luhn_digit e d <= 9.
Proof.
  unfold luhn_digit. intros Hd. destruct e; [|exact Hd].
  destruct (9 <? d * 2) eqn:E; [apply N.ltb_lt in E | apply N.ltb_ge in E]; lia.
Qed.

Lemma luhn_digit_inj e d d' :
  d <= 9 -> d' <= 9 -> luhn_digit e d = luhn_digit e d' -> d = d'.
Proof.
  unfold luhn_digit. intros Hd Hd'. destruct e; [|auto].
  destruct (9 <? d * 2) eqn:E; destruct (9 <? d' * 2) eqn:E';
    repeat match goal with
    | H : (_ <? _) = true |- _ => apply N.ltb_lt in H
    | H : (_ <? _) = false |- _ => apply N.ltb_ge in H
    end; lia.
Qed.

Lemma digit_value (c : char) : is_digit c = true -> 48 <= c /\ c - 48 <= 9.
Proof.
  unfold is_digit, in_range. intros Hc. apply andb_prop in Hc as [H1 H2].
  apply N.leb_le in H1, H2. lia.
Qed.

Lemma forallb_reverse (p : char -> bool) (l : str) : forallb p (reverse l) = forallb p l.
Proof.
  unfold str, char in *. induction l as [|c l IH]; [reflexivity|].
  rewrite reverse_cons, forallb_app, IH. cbn [forallb].
  rewrite andb_true_r. apply andb_comm.
Qed.

(** What an accepted card number is: 13 to 19 digits, white space aside,
    whose Luhn sum is a multiple of 10. *)
Lemma validateCardNumber_digits (s : str) :
  validateCardNumber s = true ->
  let clean := filter (fun c => is_space c = false) s in
  (13 <= length clean <= 19)%nat
  /\ forallb is_digit clean = true
  /\ luhn_total false (reverse clean) mod 10 = 0.
Proof.
  intros Hv clean. unfold validateCardNumber, cardRegex in Hv. fold clean in Hv.
  rewrite regex_test_between in Hv.
  destruct ((13 <=? length clean)%nat && (length clean <=? 13 + 6)%nat
            && forallb is_digit clean) eqn:Hre; [|discriminate Hv].
  apply andb_prop in Hre as [Hre Hd]. apply andb_prop in Hre as [H13 H19].
  apply Nat.leb_le in H13, H19. cbn [negb] in Hv.
  rewrite luhn_fold in Hv.
  - split; [lia | split; [exact Hd|]]. apply N.eqb_eq in Hv. exact Hv.
  - now rewrite forallb_reverse.
Qed.

End PaymentFacts.

(** X4. [validateCardNumber] detects every change of one digit: if a card
    number is accepted, the same number with one of its digits replaced
    by another digit is refused, wherever the digit stands and whatever
    white space the number has. *)
Theorem luhn_detects_single_digit_change (l1 l2 : str) (c d : char) :
  is_digit c = true -> is_digit d = true -> c <> d ->
  Payment.validateCardNumber (l1 ++ c :: l2) = true ->
  Payment.validateCardNumber (l1 ++ d :: l2) = false.
Proof.
  intros Hc Hd Hne Hv.
  apply PaymentFacts.validateCardNumber_digits in Hv. cbv zeta in Hv.
  unfold Payment.validateCardNumber, Payment.cardRegex.
  unfold str, char in *.
  rewrite filter_app, filter_cons_True in Hv |- *
    by (now apply PaymentFacts.digit_not_space).
  set (A := filter (fun c : N => is_space c = false) l1) in *.
  set (B := filter (fun c : N => is_space c = false) l2) in *.
  destruct Hv as (Hlen & Hdig & Hsum).
  assert (Hlen' : length (A ++ d :: B) = length (A ++ c :: B))
    by (rewrite !length_app; reflexivity).
  assert (Hdig' : forallb is_digit (A ++ d :: B) = true).
  { rewrite forallb_app in Hdig |- *. cbn [forallb] in Hdig |- *.
    rewrite Hc in Hdig. now rewrite Hd. }
  rewrite regex_test_between, Hlen', Hdig'.
  replace ((13 <=? length (A ++ c :: B))%nat && (length (A ++ c :: B) <=? 13 + 6)%nat)
    with true
    by (symmetry; apply andb_true_intro; split; apply Nat.leb_le; lia).
  cbn [andb negb].
  rewrite PaymentFacts.luhn_fold by (now rewrite PaymentFacts.forallb_reverse).
  assert (Hrev : forall x : N, reverse (A ++ x :: B) = reverse B ++ x :: reverse A).
  { intros x. rewrite reverse_app, reverse_cons, <- app_assoc. reflexivity. }
  rewrite Hrev in Hsum |- *.
  destruct (PaymentFacts.luhn_total_split (reverse B) false) as (e & He).
  rewrite He in Hsum |- *. rewrite N.add_0_l.
  apply N.eqb_neq. intros Hsum'.
  destruct (PaymentFacts.digit_value c Hc) as [Hc1 Hc2].
  destruct (PaymentFacts.digit_value d Hd) as [Hd1 Hd2].
  pose proof (PaymentFacts.luhn_digit_small e _ Hc2) as Sc.
  pose proof (PaymentFacts.luhn_digit_small e _ Hd2) as Sd.
  assert (Heq : Payment.luhn_digit e (c - 48) = Payment.luhn_digit e (d - 48)).
  { set (x := Payment.luhn_digit e (c - 48)) in *.
    set (y := Payment.luhn_digit e (d - 48)) in *.
    set (K := Payment.luhn_total false (reverse B)) in *.
    set (R := Payment.luhn_total (negb e) (reverse A)) in *.
    pose proof (N.Div0.div_mod (K + x + R) 10) as D1.
    pose proof (N.Div0.div_mod (K + y + R) 10) as D2.
    rewrite Hsum in D1. rewrite Hsum' in D2. lia. }
  apply PaymentFacts.luhn_digit_inj in Heq; [|assumption|assumption].
  apply Hne. lia.
Qed.

Lemma luhn_detects_single_digit_change_witness :
  Payment.validateCardNumber "4111 1111 1111 1111" = true
  /\ Payment.validateCardNumber "4111 1111 1711 1111" = false.
Proof.
  split; [vm_compute; reflexivity|].
  apply (luhn_detects_single_digit_change "4111 1111 1" "11 1111" 49 55);
    [reflexivity | reflexivity | discriminate | vm_compute; reflexivity].
Defined.

Module ExpiryFacts.
Import ServerValidation Payment.

Lemma regex_test_Empty (s : str) : regex_test Empty s = false.
Proof. unfold regex_test. now rewrite deriv_Empty_all. Qed.

Lemma regex_test_Class_Cat (p : char -> bool) (r : regex) (s : str) :
  regex_test (Cat (Class p) r) s
  = match s with [] => false | c :: s' => p c && regex_test r s' end.
Proof.
  destruct s as [|c s]; [reflexivity|].
  unfold regex_test. cbn [fold_left deriv nullable].
  destruct (p c); cbn [andb].
  - now rewrite cat_Eps_l.
  - cbn [cat]. now rewrite deriv_Empty_all.
Qed.

(** The pattern of an expiry date, character by character. *)
Lemma expiryRegex_spec (s : str) :
  regex_test expiryRegex s = true
  <-> exists a b d e,
        s = [a; b; 47; d; e]
        /\ ((a = 48 /\ 49 <= b <= 57) \/ (a = 49 /\ 48 <= b <= 50))
        /\ is_digit d = true /\ is_digit e = true.
Proof.
  set (rest := Cat (Lit 47) (Rep 2 (Class is_digit))).
  assert (Hrest : forall t, regex_test rest t = true
                   <-> exists d e, t = [47; d; e] /\ is_digit d = true /\ is_digit e = true).
  { intros t. unfold rest, Lit. rewrite regex_test_Class_Cat.
    destruct t as [|c t]; [split; [discriminate | intros (d & e & E & _); discriminate E]|].
    rewrite regex_test_Rep_Class. split.
    - intros Ht. apply andb_prop in Ht as [Hc Ht]. apply andb_prop in Ht as [Hl Hd].
      apply N.eqb_eq in Hc. apply Nat.eqb_eq in Hl. subst c.
      destruct t as [|d [|e [|? ?]]]; try discriminate Hl.
      cbn [forallb] in Hd. apply andb_prop in Hd as [Hd He]. rewrite andb_true_r in He.
      exists d, e. auto.
    - intros (d & e & [= -> ->] & Hd & He). cbn [length forallb].
      now rewrite Hd, He. }
  assert (Hhead : forall a t,
            regex_test expiryRegex (a :: t)
            = if 48 =? a then regex_test (Cat (Class (in_range 49 57)) rest) t
              else if 49 =? a then regex_test (Cat (Class (in_range 48 50)) rest) t
              else false).
  { intros a t. unfold regex_test, expiryRegex, Lit. fold rest.
    cbn [fold_left deriv nullable orb andb].
    destruct (48 =? a) eqn:E0.
    - apply N.eqb_eq in E0. subst a. reflexivity.
    - destruct (49 =? a) eqn:E1; [reflexivity|]. cbn [cat alt].
      now rewrite deriv_Empty_all. }
  split.
  - destruct s as [|a t]; [discriminate|]. rewrite Hhead.
    destruct (48 =? a) eqn:E0; [|destruct (49 =? a) eqn:E1; [|discriminate]].
    + apply N.eqb_eq in E0. subst a. rewrite regex_test_Class_Cat.
      destruct t as [|b t]; [discriminate|]. intros Ht.
      apply andb_prop in Ht as [Hb Ht]. apply Hrest in Ht as (d & e & -> & Hd & He).
      unfold in_range in Hb. apply andb_prop in Hb as [B1 B2].
      apply N.leb_le in B1, B2. exists 48, b, d, e.
      split; [reflexivity | split; [left; auto | auto]].
    + apply N.eqb_eq in E1. subst a. rewrite regex_test_Class_Cat.
      destruct t as [|b t]; [discriminate|]. intros Ht.
      apply andb_prop in Ht as [Hb Ht]. apply Hrest in Ht as (d & e & -> & Hd & He).
      unfold in_range in Hb. apply andb_prop in Hb as [B1 B2].
      apply N.leb_le in B1, B2. exists 49, b, d, e.
      split; [reflexivity | split; [right; auto | auto]].
  - intros (a & b & d & e & -> & Hab & Hd & He). rewrite Hhead.
    assert (Ht : regex_test rest [47; d; e] = true) by (apply Hrest; eauto).
    destruct Hab as [[-> [B1 B2]] | [-> [B1 B2]]]; cbn [N.eqb Pos.eqb];
      rewrite regex_test_Class_Cat, Ht, andb_true_r; unfold in_range;
      apply andb_true_intro; split; apply N.leb_le; assumption.
Qed.

Lemma parseInt_two_digits (d e : char) :
  is_digit d = true -> parseInt [d; e] = (if is_digit e
                                           then Some (Z.of_N (10 * (d - 48) + (e - 48)))
                                           else Some (Z.of_N (d - 48))).
Proof.
  intros Hd. unfold parseInt. rewrite Hd. cbn [leading_digits]. rewrite Hd.
  destruct (is_digit e); do 2 f_equal; lia.
Qed.

End ExpiryFacts.

(** X5. [validateExpiryDate] accepts exactly the strings [MM/YY] with a
    month from 01 to 12 whose two-digit year is after the current year
    modulo 100, or is that year with a month not before the current one.
    There is no upper bound on the year, and the comparison is between
    years modulo 100. *)
Theorem expiry_date_window (fullYear monthIndex : Z) (s : str) :
  Payment.validateExpiryDate fullYear monthIndex s = true
  <-> exists a b d e,
        s = [a; b; 47; d; e]
        /\ ((a = 48 /\ 49 <= b <= 57) \/ (a = 49 /\ 48 <= b <= 50))
        /\ is_digit d = true /\ is_digit e = true
        /\ (Z.rem fullYear 100 < Z.of_N (10 * (d - 48) + (e - 48))
            \/ (Z.of_N (10 * (d - 48) + (e - 48)) = Z.rem fullYear 100
                /\ monthIndex + 1 <= Z.of_N (10 * (a - 48) + (b - 48))))%Z.
Proof.
  assert (Hbody : forall a b d e,
            ((a = 48 /\ 49 <= b <= 57) \/ (a = 49 /\ 48 <= b <= 50)) ->
            is_digit d = true -> is_digit e = true ->
            Payment.validateExpiryDate fullYear monthIndex [a; b; 47; d; e]
            = negb (Payment.js_lt (Some (Z.of_N (10 * (d - 48) + (e - 48))))
                      (Z.rem fullYear 100)
                    || Payment.js_eq (Some (Z.of_N (10 * (d - 48) + (e - 48))))
                         (Z.rem fullYear 100)
                       && Payment.js_lt (Some (Z.of_N (10 * (a - 48) + (b - 48))))
                            (monthIndex + 1))).
  { intros a b d e Hab Hd He. unfold Payment.validateExpiryDate.
    replace (regex_test Payment.expiryRegex [a; b; 47; d; e]) with true
      by (symmetry; apply ExpiryFacts.expiryRegex_spec; eauto 10).
    cbn [negb].
    assert (Ha : is_digit a = true /\ is_digit b = true).
    { unfold is_digit, in_range.
      destruct Hab as [[-> [B1 B2]] | [-> [B1 B2]]]; split; try reflexivity;
        apply andb_true_intro; split; apply N.leb_le; lia. }
    destruct Ha as [Ha Hb].
    assert (Hsep : forall x, is_digit x = true -> (x =? 47) = false).
    { intros x Hx. apply PaymentFacts.digit_value in Hx. apply N.eqb_neq. lia. }
    cbn [js_split]. rewrite (Hsep a Ha), (Hsep b Hb), (Hsep d Hd), (Hsep e He).
    cbn [N.eqb Pos.eqb lookup list_lookup default]. unfold id.
    rewrite !ExpiryFacts.parseInt_two_digits by assumption. rewrite He, Hb.
    destruct (_ || _); reflexivity. }
  split.
  - intros Hv.
    assert (Hre : regex_test Payment.expiryRegex s = true).
    { unfold Payment.validateExpiryDate in Hv.
      destruct (regex_test Payment.expiryRegex s); [reflexivity | discriminate Hv]. }
    apply ExpiryFacts.expiryRegex_spec in Hre as (a & b & d & e & -> & Hab & Hd & He).
    pose proof (Hbody a b d e Hab Hd He) as Hval. unfold str, char in *.
    rewrite Hval in Hv. clear Hval.
    exists a, b, d, e. split; [reflexivity | split; [exact Hab | split; [exact Hd | split; [exact He|]]]].
    apply negb_true_iff in Hv. apply orb_false_iff in Hv as [Hlt Hrest].
    cbn [Payment.js_lt Payment.js_eq] in Hlt, Hrest.
    apply Z.ltb_ge in Hlt.
    destruct (Z.eqb_spec (Z.of_N (10 * (d - 48) + (e - 48))) (Z.rem fullYear 100)) as [E|E].
    + cbn [andb] in Hrest. apply Z.ltb_ge in Hrest. right. split; [exact E | exact Hrest].
    + left. lia.
  - intros (a & b & d & e & -> & Hab & Hd & He & Hcmp).
    pose proof (Hbody a b d e Hab Hd He) as Hval. unfold str, char in *.
    rewrite Hval. clear Hval. apply negb_true_iff. apply orb_false_iff.
    cbn [Payment.js_lt Payment.js_eq]. split.
    + apply Z.ltb_ge. lia.
    + destruct Hcmp as [Hlt | [Heq Hm]].
      * replace (_ =? _)%Z with false by (symmetry; apply Z.eqb_neq; lia). reflexivity.
      * apply andb_false_iff. right. apply Z.ltb_ge. exact Hm.
Qed.

(** X6. [validateCVV] accepts exactly the values whose text is three or
    four decimal digits; the pattern is applied to the text of the value,
    so a number is accepted like the string of its digits. *)
Theorem cvv_is_three_or_four_digits (cvv : value) :
  Payment.validateCVV cvv = true
  <-> (length (ToString cvv) = 3%nat \/ length (ToString cvv) = 4%nat)
      /\ forallb is_digit (ToString cvv) = true.
Proof.
  unfold Payment.validateCVV, Payment.cvvRegex. rewrite regex_test_between.
  split.
  - intros Hv. apply andb_prop in Hv as [Hv Hd]. apply andb_prop in Hv as [H3 H4].
    apply Nat.leb_le in H3, H4. split; [lia | exact Hd].
  - intros [Hl Hd]. rewrite Hd, andb_true_r.
    apply andb_true_intro. split; apply Nat.leb_le; lia.
Qed.

(** ** The rate limiter in general *)

(** X7. [checkRateLimit] is a sliding window over the recorded attempts:
    with the attempts [ts] recorded under the key, the call is allowed
    exactly when fewer than [limit] of them are later than
    [now - windowMs].  A refused call changes nothing, so it is not
    recorded itself; an allowed call records the attempts still in the
    window followed by [now], drops the others, reports how many are
    left, and touches no other key. *)
Theorem rate_limit_sliding_window `{HostLaws}
    (identifier action : str) (limit windowMs now : Z) (w : World) (ts : list Z) :
  RateLimiter.recorded w (RateLimiter.rate_key identifier action) ts ->
  let live := filter (fun t => (now - windowMs < t)%Z) ts in
  exists r w',
    ServerValidation.checkRateLimit identifier action limit windowMs now w = (Return r, w')
    /\ (ServerValidation.allowed r = true <-> (Z.of_nat (length live) < limit)%Z)
    /\ (ServerValidation.allowed r = false ->
        w' = w /\ ServerValidation.remaining r = 0%Z)
    /\ (ServerValidation.allowed r = true ->
        RateLimiter.recorded w' (RateLimiter.rate_key identifier action) (live ++ [now])
        /\ ServerValidation.remaining r = (limit - Z.of_nat (length live) - 1)%Z
        /\ journal w' = journal w
        /\ forall k, k <> RateLimiter.rate_key identifier action ->
                     localStorage w' !! k = localStorage w !! k).
Proof.
  intros Hrec live.
  pose proof (RateLimiterFacts.checkRateLimit_recorded identifier action limit windowMs
                now w ts Hrec) as Hc.
  cbv zeta in Hc. fold live in Hc.
  destruct (limit <=? Z.of_nat (length live))%Z eqn:Hl.
  - apply Z.leb_le in Hl. do 2 eexists. split; [exact Hc|].
    cbn [ServerValidation.allowed ServerValidation.remaining].
    split; [split; [discriminate | lia] | split; [auto | discriminate]].
  - apply Z.leb_gt in Hl. do 2 eexists. split; [exact Hc|].
    cbn [ServerValidation.allowed ServerValidation.remaining].
    split; [split; [lia | reflexivity] | split; [discriminate|]].
    intros _. split; [apply RateLimiterFacts.recorded_after | split; [| split]].
    + rewrite length_app. cbn [length]. lia.
    + reflexivity.
    + intros k Hk. cbn. now rewrite lookup_insert_ne by (intros E; now apply Hk).
Qed.

Lemma rate_limit_sliding_window_witness :
  exists r w',
    ServerValidation.checkRateLimit "ada@example.com" "login" 5 60000 1000
      Examples.empty_world = (Return r, w')
    /\ ServerValidation.allowed r = true
    /\ ServerValidation.remaining r = 4%Z.
Proof.
  destruct (rate_limit_sliding_window "ada@example.com" "login" 5 60000 1000
              Examples.empty_world [])
    as (r & w' & Hc & Hiff & _ & Hallowed).
  { right. split; reflexivity. }
  assert (Ha : ServerValidation.allowed r = true) by (apply Hiff; cbn; lia).
  exists r, w'. split; [exact Hc | split; [exact Ha|]].
  destruct (Hallowed Ha) as (_ & Hrem & _). exact Hrem.
Defined.

(** X8. The key of the rate limiter joins the action and the identifier
    with an underscore, so two pairs can share their attempts: a call for
    the action [a] and the identifier [b_c] is the same call as one for
    the action [a_b] and the identifier [c]. *)
Theorem rate_limit_keys_collide `{Host} (a b c : str) (limit windowMs now : Z) (w : World) :
  ServerValidation.checkRateLimit (b ++ js "_" ++ c) a limit windowMs now w
  = ServerValidation.checkRateLimit c (a ++ js "_" ++ b) limit windowMs now w.
Proof.
  unfold ServerValidation.checkRateLimit.
  replace (js "rate_limit_" ++ (a ++ js "_" ++ b) ++ js "_" ++ c)
    with (js "rate_limit_" ++ a ++ js "_" ++ b ++ js "_" ++ c)
    by (now rewrite <- !app_assoc).
  reflexivity.
Qed.

(** ** Encryption and the generic secure store *)

Module CryptoShape.
Section Facts.
Context `{Host}.

Lemma encryptUserData_shape (rnd : entropy) (data : value) (p : str) (w : World) :
  exists o,
    WaxEncountersSecurity.encryptUserData rnd data p w
    = (o, Crypto.journalled w [call_encryptUserData])
    /\ match o with
       | Return _ => True
       | Throw e => e = Error "Failed to encrypt user data"
       end.
Proof.
  unfold WaxEncountersSecurity.encryptUserData, bind at 1, record_call, try_catch.
  fold (Crypto.journalled w [call_encryptUserData]).
  destruct (btoa _); cbn [or_throw]; eexists; (split; [reflexivity|]); exact I || reflexivity.
Qed.

Lemma decryptUserData_shape (x : value) (p : str) (w : World) :
  exists o,
    WaxEncountersSecurity.decryptUserData x p w
    = (o, Crypto.journalled w [call_decryptUserData])
    /\ match o with
       | Return _ => True
       | Throw e => e = Error "Failed to decrypt user data"
       end.
Proof.
  unfold WaxEncountersSecurity.decryptUserData, bind at 1, record_call, try_catch.
  fold (Crypto.journalled w [call_decryptUserData]).
  unfold bind at 1. destruct (atob _); cbn [or_throw];
    [|eexists; split; reflexivity].
  unfold ret at 1, bind. destruct (aes_gcm_decrypt _ _ _ _); cbn [or_throw];
    [|eexists; split; reflexivity].
  unfold ret at 1. destruct (JSON_parse _); eexists; (split; [reflexivity|]);
    exact I || reflexivity.
Qed.

Lemma verifyDataIntegrity_returns data expected w :
  WaxEncountersSecurity.verifyDataIntegrity data expected w
  = (Return (strict_eq_str (hex (sha256 (WaxEncountersSecurity.encode_json data))) expected),
     Crypto.journalled w [call_verifyDataIntegrity; call_generateDataHash]).
Proof.
  unfold WaxEncountersSecurity.verifyDataIntegrity, WaxEncountersSecurity.generateDataHash,
    bind, record_call, ret, Crypto.journalled.
  cbn [localStorage journal]. rewrite <- app_assoc. reflexivity.
Qed.

End Facts.
End CryptoShape.

(** X9. Whatever goes wrong inside [encryptUserData] or [decryptUserData]
    (text that is not base64, a tag that does not verify, a plaintext
    that is not JSON), the caller sees one error per method and nothing
    else: the methods return, or throw their own [Error]; they record
    their call and leave the storage alone. *)
Theorem crypto_errors_are_uniform `{Host}
    (rnd : entropy) (data x : value) (p : str) (w : World) :
  ((exists text, WaxEncountersSecurity.encryptUserData rnd data p w
                 = (Return text, Crypto.journalled w [call_encryptUserData]))
   \/ WaxEncountersSecurity.encryptUserData rnd data p w
      = (Throw (Error "Failed to encrypt user data"),
         Crypto.journalled w [call_encryptUserData]))
  /\ ((exists v, WaxEncountersSecurity.decryptUserData x p w
                 = (Return v, Crypto.journalled w [call_decryptUserData]))
      \/ WaxEncountersSecurity.decryptUserData x p w
         = (Throw (Error "Failed to decrypt user data"),
            Crypto.journalled w [call_decryptUserData])).
Proof.
  split.
  - destruct (CryptoShape.encryptUserData_shape rnd data p w) as ([text|e] & He & Hshape);
      [left; eauto | right; now subst e].
  - destruct (CryptoShape.decryptUserData_shape x p w) as ([v|e] & Hd & Hshape);
      [left; eauto | right; now subst e].
Qed.

(** X10. The integrity hash: [generateDataHash] returns two lower-case
    hexadecimal digits per byte of the digest and leaves the storage
    alone; [verifyDataIntegrity] accepts the string that
    [generateDataHash] returned for the same data, and accepts nothing
    else. *)
Theorem integrity_hash_verifies_itself `{Host} (data expected : value) (w : World) :
  exists h w1,
    WaxEncountersSecurity.generateDataHash data w = (Return h, w1)
    /\ localStorage w1 = localStorage w
    /\ length h = (2 * length (sha256 (WaxEncountersSecurity.encode_json data)))%nat
    /\ forallb SessionToken.is_lower_hex h = true
    /\ (exists w2, WaxEncountersSecurity.verifyDataIntegrity data (VStr h) w1
                   = (Return true, w2))
    /\ (forall w2, WaxEncountersSecurity.verifyDataIntegrity data expected w
                   = (Return true, w2) ->
                   expected = VStr h).
Proof.
  do 2 eexists. split; [reflexivity | split; [reflexivity | split; [| split; [| split]]]].
  - apply SessionTokenFacts.hex_length.
  - apply SessionTokenFacts.hex_lower.
  - eexists. rewrite CryptoShape.verifyDataIntegrity_returns.
    cbn [strict_eq_str]. now rewrite bool_decide_eq_true_2.
  - intros w2. rewrite CryptoShape.verifyDataIntegrity_returns.
    intros [= Heq _]. destruct expected; try discriminate Heq.
    cbn [strict_eq_str] in Heq. apply bool_decide_eq_true_1 in Heq. now subst.
Qed.

Module SecureDataFacts.
Import WaxEncountersSecurity SecureData Crypto.
Section Facts.
Context `{HostLaws}.

Lemma entry_parses text now : JSON_parse (JSON_stringify (entry text now)) = Some (entry text now).
Proof. rewrite json_roundtrip by discriminate. reflexivity. Qed.

Lemma storeSecureData_returns rnd now key data password w :
  exists text,
    atob text = Some (fromCharCode (CryptoFacts.sealed_bytes rnd data password))
    /\ storeSecureData rnd now key data password w
       = (Return true,
          {| localStorage := <[key := JSON_stringify (entry text now)]> (localStorage w);
             journal := journal w ++ [call_encryptUserData] |}).
Proof.
  destruct (CryptoFacts.encryptUserData_returns rnd data password w) as (text & _ & Ha & He).
  exists text. split; [exact Ha|].
  unfold storeSecureData. erewrite StorageFacts.try_Return; [reflexivity|].
  erewrite StorageFacts.bind_Return by exact He. reflexivity.
Qed.

Lemma retrieveSecureData_entry rnd now key data password w text :
  data <> VUndef ->
  atob text = Some (fromCharCode (CryptoFacts.sealed_bytes rnd data password)) ->
  localStorage w !! key = Some (JSON_stringify (entry text now)) ->
  retrieveSecureData key password w
  = (Return (jsonify data), journalled w [call_decryptUserData]).
Proof.
  intros Hd Ha Hl. unfold retrieveSecureData.
  erewrite StorageFacts.try_Return; [reflexivity|].
  erewrite StorageFacts.bind_Return by (unfold getItem; rewrite Hl; reflexivity).
  assert (Hne : JSON_stringify (entry text now) <> [])
    by (apply RateLimiterFacts.stringify_not_empty; discriminate).
  replace (absent (Some (JSON_stringify (entry text now)))) with false
    by (destruct (JSON_stringify (entry text now)); [contradiction | reflexivity]).
  erewrite StorageFacts.bind_Return
    by (cbn [from_option]; unfold id; rewrite entry_parses; reflexivity).
  erewrite StorageFacts.bind_Return by reflexivity.
  cbn [lookup_prop entry]. rewrite bool_decide_eq_true_2 by reflexivity.
  now apply (CryptoFacts.decryptUserData_sealed rnd).
Qed.

End Facts.
End SecureDataFacts.

(** X11. What [storeSecureData] stores under a key, [retrieveSecureData]
    returns with the same password: a JSON-serializable value comes back
    unchanged, and the entry is the only thing written. *)
Theorem secure_data_round_trip `{HostLaws}
    (rnd : entropy) (now : Z) (key : str) (d : value) (p : str) (w : World) :
  Crypto.json_serializable d ->
  exists w1 w2,
    SecureData.storeSecureData rnd now key d p w = (Return true, w1)
    /\ SecureData.retrieveSecureData key p w1 = (Return d, w2)
    /\ (forall k, k <> key -> localStorage w1 !! k = localStorage w !! k)
    /\ localStorage w2 = localStorage w1.
Proof.
  intros [Hd Hj].
  destruct (SecureDataFacts.storeSecureData_returns rnd now key d p w) as (text & Ha & Hs).
  do 2 eexists. split; [exact Hs | split; [| split]].
  - erewrite (SecureDataFacts.retrieveSecureData_entry rnd now key d p _ text Hd Ha).
    + rewrite Hj. reflexivity.
    + cbn. apply lookup_insert_eq.
  - intros k Hk. cbn. now rewrite lookup_insert_ne by (intros E; now apply Hk).
  - reflexivity.
Qed.

Lemma secure_data_round_trip_witness :
  exists w1 w2,
    SecureData.storeSecureData Examples.rnd0 1000 "cart" Examples.payload "Secret1!"
      Examples.empty_world = (Return true, w1)
    /\ SecureData.retrieveSecureData "cart" "Secret1!" w1 = (Return Examples.payload, w2).
Proof.
  destruct (secure_data_round_trip Examples.rnd0 1000 "cart" Examples.payload "Secret1!"
              Examples.empty_world)
    as (w1 & w2 & Hs & Hr & _).
  { split; [discriminate | reflexivity]. }
  exists w1, w2. split; [exact Hs | exact Hr].
Defined.

(** X12. [retrieveSecureData] never throws and never writes: it returns a
    value, which is [null] when the key holds nothing and, in particular,
    after [clearSecureData]. *)
Theorem retrieve_secure_data_is_total `{Host} (key : str) (p : str) (w : World) :
  (exists v w', SecureData.retrieveSecureData key p w = (Return v, w')
                /\ localStorage w' = localStorage w)
  /\ (absent (localStorage w !! key) = true ->
      SecureData.retrieveSecureData key p w = (Return VNull, w))
  /\ SecureData.retrieveSecureData key p (SecureData.clearSecureData key w).2
     = (Return VNull, (SecureData.clearSecureData key w).2).
Proof.
  assert (Habsent : forall w0, absent (localStorage w0 !! key) = true ->
                     SecureData.retrieveSecureData key p w0 = (Return VNull, w0)).
  { intros w0 Ha. unfold SecureData.retrieveSecureData, try_catch, bind, getItem.
    now rewrite Ha. }
  split; [| split].
  - unfold SecureData.retrieveSecureData, try_catch, bind at 1, getItem.
    destruct (absent (localStorage w !! key)); [do 2 eexists; split; reflexivity|].
    unfold bind at 1. destruct (JSON_parse _) as [parsed|]; cbn [or_throw];
      [|do 2 eexists; split; reflexivity].
    unfold ret at 1, bind.
    destruct (get_prop "encrypted" parsed) as [encrypted|]; cbn [or_throw];
      [|do 2 eexists; split; reflexivity].
    unfold ret at 1.
    destruct (CryptoShape.decryptUserData_shape encrypted p w) as (o & Hd & _).
    rewrite Hd. destruct o; do 2 eexists; split; reflexivity.
  - apply Habsent.
  - apply Habsent. cbn. now rewrite lookup_delete_eq.
Qed.

(** ** The storage manager: what a call leaves behind *)

Module RetrievalFacts.
Import WaxEncountersSecurity SecureStorageManager Crypto Storage StorageFacts.
Section Facts.
Context `{Host}.

(** [updateSession] returns after writing at most the session key, or
    throws without writing. *)
Lemma updateSession_cases b now w :
  (exists w', updateSession b now w = (Return tt, w')
              /\ journal w' = journal w
              /\ forall k, k <> sessKey -> localStorage w' !! k = localStorage w !! k)
  \/ (exists e, updateSession b now w = (Throw e, w)).
Proof.
  unfold updateSession. destruct (getSession_world w) as ([v|e] & Hg).
  - erewrite bind_Return by exact Hg.
    destruct (truthy v); [|left; exists w; auto].
    destruct v; try (right; eexists; reflexivity);
      left; eexists; (split; [reflexivity|]); (split; [reflexivity|]);
      intros k Hk; cbn [setSession setItem localStorage snd];
      apply lookup_insert_ne; intros E; apply Hk; symmetry; exact E.
  - right. exists e. erewrite bind_Throw by exact Hg. reflexivity.
Qed.

(** The three ways [retrieveUserData] ends. *)
Lemma retrieve_cases password now w :
  exists res w',
    retrieveUserData password now w = (Return res, w')
    /\ ((res = failure (Error "No user data found") /\ w' = w
         /\ absent (localStorage w !! dataKey) = true)
        \/ (res = failure (Error "Failed to retrieve user data")
            /\ localStorage w' = localStorage w
            /\ absent (localStorage w !! dataKey) = false)
        \/ (exists x y w1,
              res = success [ ("data" : str, VObj (spread2 x y)) ]
              /\ absent (localStorage w !! dataKey) = false
              /\ localStorage w1 = localStorage w
              /\ updateSession true now w1 = (Return tt, w'))).
Proof.
  destruct (absent (localStorage w !! dataKey)) eqn:Ha.
  { do 2 eexists. split; [apply retrieveUserData_absent; exact Ha | left; auto]. }
  destruct (localStorage w !! dataKey) as [text|] eqn:Hl; [|discriminate Ha].
  assert (Hget : getItem dataKey w = (Return (Some text), w))
    by (unfold getItem; now rewrite Hl).
  unfold retrieveUserData. fold dataKey.
  destruct (JSON_parse text) as [parsed|] eqn:Hp.
  2: { do 2 eexists. split; [| right; left; split; [reflexivity | split; reflexivity]].
       erewrite try_Throw; [reflexivity|].
       erewrite bind_Return by exact Hget. rewrite Ha.
       erewrite bind_Throw; [reflexivity|]. cbn [from_option]. unfold id.
       rewrite Hp. reflexivity. }
  assert (Hparse : or_throw SyntaxError (JSON_parse (default [] (Some text))) w
                   = (Return parsed, w))
    by (cbn [from_option]; unfold id; rewrite Hp; reflexivity).
  destruct (get_prop "dataHash" parsed) as [dataHash|] eqn:Hh.
  2: { do 2 eexists. split; [| right; left; split; [reflexivity | split; reflexivity]].
       erewrite try_Throw; [reflexivity|].
       erewrite bind_Return by exact Hget. rewrite Ha.
       erewrite bind_Return by exact Hparse.
       erewrite bind_Throw; [reflexivity|]. rewrite Hh. reflexivity. }
  set (wj := journalled w [call_verifyDataIntegrity; call_generateDataHash]).
  destruct (strict_eq_str (hex (sha256 (encode_json
              (VObj (rest_without "dataHash" parsed))))) dataHash) eqn:Hv.
  2: { exists (failure (Error "Failed to retrieve user data")), wj.
       split; [| right; left; split; [reflexivity | split; reflexivity]].
       erewrite try_Throw; [reflexivity|].
       erewrite bind_Return by exact Hget. rewrite Ha.
       erewrite bind_Return by exact Hparse.
       erewrite bind_Return by (rewrite Hh; reflexivity).
       erewrite bind_Return by apply CryptoShape.verifyDataIntegrity_returns.
       rewrite Hv. reflexivity. }
  destruct (CryptoShape.decryptUserData_shape
              (default VUndef (get_prop "encryptedData" parsed)) password wj)
    as ([decrypted|e] & Hd & _).
  2: { exists (failure (Error "Failed to retrieve user data")),
              (journalled wj [call_decryptUserData]).
       split; [| right; left; split; [reflexivity | split; reflexivity]].
       erewrite try_Throw; [reflexivity|].
       erewrite bind_Return by exact Hget. rewrite Ha.
       erewrite bind_Return by exact Hparse.
       erewrite bind_Return by (rewrite Hh; reflexivity).
       erewrite bind_Return by apply CryptoShape.verifyDataIntegrity_returns.
       rewrite Hv. cbn [negb].
       erewrite bind_Throw by exact Hd. reflexivity. }
  destruct (updateSession_cases true now (journalled wj [call_decryptUserData]))
    as [(w' & Hu & _ & _) | (e & Hu)].
  - exists (success [ ("data" : str,
                       VObj (spread2 decrypted
                               (default VUndef (get_prop "nonSensitiveData" parsed)))) ]), w'.
    split.
    + erewrite try_Return; [reflexivity|].
      erewrite bind_Return by exact Hget. rewrite Ha.
      erewrite bind_Return by exact Hparse.
      erewrite bind_Return by (rewrite Hh; reflexivity).
      erewrite bind_Return by apply CryptoShape.verifyDataIntegrity_returns.
      rewrite Hv. cbn [negb].
      erewrite bind_Return by exact Hd.
      erewrite bind_Return by exact Hu. reflexivity.
    + right; right. do 3 eexists. split; [reflexivity | split; [reflexivity | split; [|exact Hu]]].
      reflexivity.
  - exists (failure (Error "Failed to retrieve user data")),
           (journalled wj [call_decryptUserData]).
    split; [| right; left; split; [reflexivity | split; reflexivity]].
    erewrite try_Throw; [reflexivity|].
    erewrite bind_Return by exact Hget. rewrite Ha.
    erewrite bind_Return by exact Hparse.
    erewrite bind_Return by (rewrite Hh; reflexivity).
    erewrite bind_Return by apply CryptoShape.verifyDataIntegrity_returns.
    rewrite Hv. cbn [negb].
    erewrite bind_Return by exact Hd.
    erewrite bind_Throw by exact Hu. reflexivity.
Qed.

End Facts.
End RetrievalFacts.

(** X13. [retrieveUserData] never throws.  It answers in one of three
    ways: the failure [No user data found], exactly when the user-data
    key holds nothing or the empty string; the failure [Failed to
    retrieve user data]; or a success whose [data] is a merge of two
    values.  A failure writes nothing to the storage, and no call
    changes what the user-data key holds. *)
Theorem retrieve_always_answers `{Host} (p : str) (now : Z) (w : World) :
  exists res w',
    SecureStorageManager.retrieveUserData p now w = (Return res, w')
    /\ (res = failure (Error "No user data found")
        \/ res = failure (Error "Failed to retrieve user data")
        \/ exists x y, res = success [ ("data" : str, VObj (spread2 x y)) ])
    /\ (res = failure (Error "No user data found")
        <-> absent (localStorage w !! Storage.dataKey) = true)
    /\ (Storage.is_failure res -> localStorage w' = localStorage w)
    /\ localStorage w' !! Storage.dataKey = localStorage w !! Storage.dataKey.
Proof.
  destruct (RetrievalFacts.retrieve_cases p now w)
    as (res & w' & Hr & [(-> & -> & Ha) | [(-> & Hw & Ha) | (x & y & w1 & -> & Ha & Hw & Hu)]]).
  - exists (failure (Error "No user data found")), w.
    split; [exact Hr | split; [auto | split; [tauto | split; [reflexivity | reflexivity]]]].
  - exists (failure (Error "Failed to retrieve user data")), w'.
    split; [exact Hr | split; [auto | split; [| split; [auto | now rewrite Hw]]]].
    split; [discriminate | intros Ha'; rewrite Ha in Ha'; discriminate Ha'].
  - exists (success [ ("data" : str, VObj (spread2 x y)) ]), w'.
    split; [exact Hr | split; [eauto | split; [| split; [intros [] |]]]].
    + split; [discriminate | intros Ha'; rewrite Ha in Ha'; discriminate Ha'].
    + destruct (RetrievalFacts.updateSession_cases true now w1)
        as [(w2 & Hu2 & _ & Hk) | (e & Hu2)]; rewrite Hu in Hu2; [|discriminate Hu2].
      injection Hu2 as <-. rewrite Hk by apply StorageFacts.dataKey_sessKey.
      now rewrite Hw.
Qed.

(** X14. [hasUserData] and [retrieveUserData] disagree on an empty entry:
    [hasUserData] says there are data whenever the user-data key exists,
    [retrieveUserData] says [No user data found] also when it holds the
    empty string.  When [hasUserData] says no, [retrieveUserData] finds
    nothing. *)
Theorem has_user_data_counts_empty_entry `{Host} (p : str) (now : Z) (w : World) :
  (exists b, StorageMaintenance.hasUserData w = (Return b, w)
             /\ (b = false <-> localStorage w !! Storage.dataKey = None))
  /\ (StorageMaintenance.hasUserData w = (Return false, w) ->
      SecureStorageManager.retrieveUserData p now w
      = (Return (failure (Error "No user data found")), w))
  /\ (localStorage w !! Storage.dataKey = Some [] ->
      StorageMaintenance.hasUserData w = (Return true, w)
      /\ SecureStorageManager.retrieveUserData p now w
         = (Return (failure (Error "No user data found")), w)).
Proof.
  assert (Hh : StorageMaintenance.hasUserData w
               = (Return (match localStorage w !! Storage.dataKey with
                          | Some _ => true
                          | None => false
                          end), w)) by reflexivity.
  rewrite Hh. clear Hh.
  destruct (localStorage w !! Storage.dataKey) as [text|] eqn:Hl.
  - split; [| split].
    + exists true. split; [reflexivity | split; discriminate].
    + discriminate.
    + intros [= ->]. split; [reflexivity|].
      apply StorageFacts.retrieveUserData_absent. now rewrite Hl.
  - split; [| split].
    + exists false. split; [reflexivity | split; reflexivity].
    + intros _. apply StorageFacts.retrieveUserData_absent. now rewrite Hl.
    + discriminate.
Qed.

Lemma has_user_data_counts_empty_entry_witness :
  StorageMaintenance.hasUserData Examples.empty_world = (Return false, Examples.empty_world)
  /\ SecureStorageManager.retrieveUserData "Secret1!" 1000 Examples.empty_world
     = (Return (failure (Error "No user data found")), Examples.empty_world).
Proof.
  split; [reflexivity|].
  apply (proj1 (proj2 (has_user_data_counts_empty_entry "Secret1!" 1000
                         Examples.empty_world))).
  reflexivity.
Defined.

(** X15. [deleteUserData] always succeeds and removes the user data and
    the session, nothing else.  Afterwards there is no user data to
    retrieve, the session is not valid, and deleting again changes
    nothing. *)
Theorem delete_leaves_nothing `{Host} (p : str) (now : Z) (w : World) :
  exists w',
    SecureStorageManager.deleteUserData w
    = (Return (success [ ("message" : str, VStr "User data deleted successfully") ]), w')
    /\ localStorage w' = delete Storage.sessKey (delete Storage.dataKey (localStorage w))
    /\ journal w' = journal w
    /\ SecureStorageManager.retrieveUserData p now w'
       = (Return (failure (Error "No user data found")), w')
    /\ SecureStorageManager.isSessionValid now w' = (Return (VBool false), w')
    /\ SecureStorageManager.deleteUserData w'
       = (Return (success [ ("message" : str, VStr "User data deleted successfully") ]), w').
Proof.
  eexists. split; [reflexivity|].
  cbn [localStorage journal].
  change (SecureStorageManager.storagePrefix ++ SecureStorageManager.userDataKey)
    with Storage.dataKey.
  change (SecureStorageManager.storagePrefix ++ SecureStorageManager.sessionKey)
    with Storage.sessKey.
  split; [reflexivity | split; [reflexivity | split; [| split]]].
  - apply StorageFacts.retrieveUserData_absent. cbn [localStorage].
    rewrite lookup_delete_ne by (intros E; symmetry in E; now apply StorageFacts.dataKey_sessKey in E).
    now rewrite lookup_delete_eq.
  - apply StorageFacts.isSessionValid_none. cbn [localStorage].
    now rewrite lookup_delete_eq.
  - unfold SecureStorageManager.deleteUserData, SecureStorageManager.clearSession,
      try_catch, bind, removeItem, ret.
    cbn [localStorage journal].
    change (SecureStorageManager.storagePrefix ++ SecureStorageManager.userDataKey)
      with Storage.dataKey.
    change (SecureStorageManager.storagePrefix ++ SecureStorageManager.sessionKey)
      with Storage.sessKey.
    do 2 f_equal.
    rewrite (delete_delete (delete Storage.dataKey (localStorage w))
               Storage.dataKey Storage.sessKey).
    now rewrite !delete_delete_eq.
Qed.

(** X16. A record that does not pass the gate is rejected before anything
    happens: [storeUserData] returns a failure, and the storage and the
    journal of calls are as they were.  The error is [Invalid user data
    provided], or a TypeError when the record is [null] or [undefined]. *)
Theorem store_rejection_changes_nothing `{Host}
    (rnd : entropy) (now : Z) (r : value) (p : str) (w : World) :
  ~ Storage.acceptable r ->
  exists e,
    SecureStorageManager.storeUserData rnd now r p w = (Return (failure e), w)
    /\ (e = Error "Invalid user data provided"
        \/ (e = TypeError /\ (r = VUndef \/ r = VNull))).
Proof.
  intros Hno. destruct (StorageFacts.validateUserData_spec r w) as [Hnull Hval].
  assert (Hcases : (r = VUndef \/ r = VNull) \/ (r <> VUndef /\ r <> VNull))
    by (destruct r; first [left; auto; fail | right; split; discriminate]).
  destruct Hcases as [Hn | [HU HN]].
  - exists TypeError. split; [| right; auto].
    unfold SecureStorageManager.storeUserData.
    erewrite StorageFacts.try_Throw; [reflexivity|].
    erewrite StorageFacts.bind_Throw; [reflexivity | now apply Hnull].
  - destruct (Hval HU HN) as (b & Hv & Hb).
    destruct b; [exfalso; apply Hno; now apply Hb|].
    exists (Error "Invalid user data provided"). split; [| left; reflexivity].
    unfold SecureStorageManager.storeUserData.
    erewrite StorageFacts.try_Throw; [reflexivity|].
    erewrite StorageFacts.bind_Return by exact Hv. reflexivity.
Qed.

Lemma store_rejection_changes_nothing_witness :
  SecureStorageManager.storeUserData Examples.rnd0 2000 Examples.ada_without_password
    "Secret1!" Examples.fresh_world
  = (Return (failure (Error "Invalid user data provided")), Examples.fresh_world).
Proof.
  destruct (store_rejection_changes_nothing Examples.rnd0 2000
              Examples.ada_without_password "Secret1!" Examples.fresh_world)
    as (e & Hs & [-> | [_ [Hr | Hr]]]).
  - intros [(_ & _ & _ & _ & _ & _ & _ & (s & Hs & _)) _]. vm_compute in Hs. discriminate Hs.
  - exact Hs.
  - discriminate Hr.
  - discriminate Hr.
Defined.

Module SessionFacts.
Import WaxEncountersSecurity SecureStorageManager Crypto Storage StorageFacts.
Section Facts.
Context `{HostLaws}.

(** The first binding of a key survives JSON when it is not [undefined]. *)
Lemma find_json_props_first k (o : object) x :
  find_prop k o = Some x -> x <> VUndef -> find_prop k (json_props o) = Some (jsonify x).
Proof.
  induction o as [|[k' v] o IH]; [discriminate|].
  cbn [find_prop]. rewrite json_props_cons.
  destruct (bool_decide (k = k')) eqn:E.
  - intros [= ->] Hx. destruct x; try congruence; cbn [find_prop]; rewrite E; reflexivity.
  - intros Hf Hx. destruct v; cbn [find_prop]; rewrite ?E; auto.
Qed.

Lemma refreshed_is_typed w now session :
  typed_session (session_written w now session) true now.
Proof.
  destruct (session_stored_written w now session) as (s' & Hj & Hs').
  rewrite jsonify_VObj in Hj. injection Hj as <-.
  exists (json_props (refreshed now session)). split; [exact Hs'|].
  rewrite !lookup_find_prop. unfold refreshed. split.
  - rewrite (find_json_props_first _ _ (VBool true)); [reflexivity | | discriminate].
    rewrite find_set_prop. now rewrite bool_decide_eq_true_2.
  - rewrite (find_json_props_first _ _ (VNum now)); [reflexivity | | discriminate].
    rewrite !find_set_prop. rewrite bool_decide_eq_false_2 by discriminate.
    now rewrite bool_decide_eq_true_2.
Qed.

Lemma typed_session_valid w t :
  typed_session w true t ->
  forall now', isSessionValid now' w
               = (Return (VBool (now' - t <? 24 * 60 * 60 * 1000)%Z), w).
Proof. intros Ht now'. now rewrite (isSessionValid_typed now' w true t Ht). Qed.

(** The end of [storeUserData] reports the [sessionId] of the stored
    session. *)
Lemma report_session_id now w session :
  session_stored w session ->
  report_session now w
  = (Return (success [ ("sessionId" : str,
                        lookup_prop "sessionId" (json_props (refreshed now session)));
                       ("message" : str, VStr "User data stored securely") ]),
     session_written w now session).
Proof.
  intros Hs. destruct (session_stored_written w now session) as (session' & Hj & Hs').
  rewrite jsonify_VObj in Hj. injection Hj as <-.
  unfold report_session.
  erewrite bind_Return by (apply updateSession_object; exact Hs).
  erewrite bind_Return by (apply getSession_object; exact Hs').
  reflexivity.
Qed.

(** [storeUserData] on an acceptable record, with a session stored. *)
Lemma store_succeeds rnd now r password w session :
  session_stored w session -> acceptable r ->
  exists enc,
    btoa (fromCharCode (CryptoFacts.sealed_bytes rnd (sensitive r) password)) = Some enc
    /\ atob enc = Some (fromCharCode (CryptoFacts.sealed_bytes rnd (sensitive r) password))
    /\ storeUserData rnd now r password w
       = (Return (success [ ("sessionId" : str,
                             lookup_prop "sessionId" (json_props (refreshed now session)));
                            ("message" : str, VStr "User data stored securely") ]),
          session_written (written w enc now r password) now session).
Proof.
  intros Hs Hok.
  destruct (CryptoFacts.encryptUserData_returns rnd (sensitive r) password w)
    as (enc & Hb & Ha & _).
  exists enc. split; [exact Hb | split; [exact Ha|]].
  rewrite (storeUserData_acceptable rnd now r password w enc Hok Hb).
  erewrite try_Return; [reflexivity|].
  apply report_session_id. now apply session_stored_after_write.
Qed.

Lemma new_session_stored rnd now w :
  session_stored
    {| localStorage := <[sessKey := JSON_stringify (VObj (StorageMaintenance.new_session rnd now))]>
                         (localStorage w);
       journal := journal w |}
    (StorageMaintenance.new_session rnd now).
Proof.
  exists (JSON_stringify (VObj (StorageMaintenance.new_session rnd now))). split.
  - cbn. apply lookup_insert_eq.
  - rewrite json_roundtrip by discriminate. reflexivity.
Qed.

Lemma initializeSession_absent rnd now w :
  absent (localStorage w !! sessKey) = true ->
  initializeSession rnd now w
  = (Return tt,
     {| localStorage := <[sessKey := JSON_stringify (VObj (StorageMaintenance.new_session rnd now))]>
                          (localStorage w);
        journal := journal w |}).
Proof.
  intros Ha. unfold initializeSession.
  erewrite bind_Return by (apply getSession_none; exact Ha). reflexivity.
Qed.

End Facts.
End SessionFacts.

(** X17. What [storeUserData] stored, [retrieveUserData] returns with the
    same password: the eight sensitive fields and the two consent flags of
    the record as JSON keeps them, the registration date of the store, and
    the two fixed fields.  Nothing else comes back; the [password]
    property of the record, in particular, does not. *)
Theorem store_then_retrieve `{HostLaws}
    (rnd : entropy) (now now' : Z) (r : value) (p : str) (w : World) (session : object) :
  Storage.session_stored w session ->
  Storage.acceptable r ->
  exists props w1 record w2,
    SecureStorageManager.storeUserData rnd now r p w = (Return (success props), w1)
    /\ SecureStorageManager.retrieveUserData p now' w1
       = (Return (success [ ("data" : str, VObj record) ]), w2)
    /\ (forall k, k ∈ Storage.carried_fields ->
          lookup_prop k record = as_json (Storage.field k r))
    /\ lookup_prop "registrationDate" record = VStr (toISOString now)
    /\ lookup_prop "emailVerified" record = VBool false
    /\ lookup_prop "accountStatus" record = VStr "pending_verification"
    /\ (forall k, k ∉ Storage.carried_fields ++ Storage.reset_fields ->
          lookup_prop k record = VUndef).
Proof.
  intros Hs Hok.
  destruct (SessionFacts.store_succeeds rnd now r p w session Hs Hok)
    as (enc & Hb & Ha & Hstore).
  destruct (StorageFacts.acceptable_not_nullish r Hok) as [HU _].
  destruct (StorageFacts.retrieve_after_store rnd now now' r p w session enc HU Hb Ha Hs)
    as (w2 & Hr).
  unfold Storage.sensitive, Storage.non_sensitive in Hr.
  rewrite !jsonify_VObj in Hr.
  destruct (StorageFacts.stored_record_fields
              (Storage.field "firstName" r) (Storage.field "lastName" r)
              (Storage.field "email" r) (Storage.field "phone" r)
              (Storage.field "shippingAddress" r) (Storage.field "iban" r)
              (Storage.field "bic" r) (Storage.field "bankAccountOwner" r)
              (Storage.field "termsAccepted" r)
              (Storage.field "privacyAccepted" r) (toISOString now))
    as (Hcarried & Hreg & Hmail & Hstatus & Hother).
  do 4 eexists.
  split; [exact Hstore | split; [exact Hr | split; [| split; [| split; [| split]]]]].
  - intros k Hk. rewrite (Hcarried k Hk). f_equal.
    unfold Storage.carried_fields in Hk.
    repeat (apply elem_of_cons in Hk as [-> | Hk]; [reflexivity|]).
    now apply elem_of_nil in Hk.
  - exact Hreg.
  - exact Hmail.
  - exact Hstatus.
  - exact Hother.
Qed.

Lemma store_then_retrieve_witness :
  exists props w1 record w2,
    SecureStorageManager.storeUserData Examples.rnd0 2000 Examples.ada "Secret1!"
      Examples.fresh_world = (Return (success props), w1)
    /\ SecureStorageManager.retrieveUserData "Secret1!" 3000 w1
       = (Return (success [ ("data" : str, VObj record) ]), w2)
    /\ lookup_prop "password" record = VUndef.
Proof.
  destruct (store_then_retrieve Examples.rnd0 2000 3000 Examples.ada "Secret1!"
              Examples.fresh_world
              (StorageMaintenance.new_session Examples.rnd0 1000))
    as (props & w1 & record & w2 & Hs & Hr & _ & _ & _ & _ & Hother).
  - exists (default [] (localStorage Examples.fresh_world !! Storage.sessKey)).
    split; vm_compute; reflexivity.
  - split; [|repeat split; vm_compute; reflexivity].
    repeat split; (eexists; split; [vm_compute; reflexivity | discriminate]).
  - exists props, w1, record, w2. split; [exact Hs | split; [exact Hr|]].
    apply Hother. intros Hin. revert Hin.
    unfold Storage.carried_fields, Storage.reset_fields. cbn [app].
    rewrite !elem_of_cons, elem_of_nil.
    intros Hin. repeat (destruct Hin as [Hin | Hin]; [discriminate Hin|]). exact Hin.
Defined.

(** X18. A store that succeeds activates the session: afterwards the
    stored session has [isActive] true and [lastActivity] the time of the
    store, and [isSessionValid] answers true exactly during the next 24
    hours. *)
Theorem store_activates_session `{HostLaws}
    (rnd : entropy) (now : Z) (r : value) (p : str) (w : World) (session : object) :
  Storage.session_stored w session ->
  Storage.acceptable r ->
  exists props w1,
    SecureStorageManager.storeUserData rnd now r p w = (Return (success props), w1)
    /\ Storage.typed_session w1 true now
    /\ forall now', SecureStorageManager.isSessionValid now' w1
                    = (Return (VBool (now' - now <? 24 * 60 * 60 * 1000)%Z), w1).
Proof.
  intros Hs Hok.
  destruct (SessionFacts.store_succeeds rnd now r p w session Hs Hok)
    as (enc & _ & _ & Hstore).
  pose proof (SessionFacts.refreshed_is_typed (Storage.written w enc now r p) now session)
    as Ht.
  do 2 eexists. split; [exact Hstore | split; [exact Ht|]].
  now apply SessionFacts.typed_session_valid.
Qed.

Lemma store_activates_session_witness :
  exists props w1,
    SecureStorageManager.storeUserData Examples.rnd0 2000 Examples.ada "Secret1!"
      Examples.fresh_world = (Return (success props), w1)
    /\ SecureStorageManager.isSessionValid (2000 + 23 * 60 * 60 * 1000) w1
       = (Return (VBool true), w1)
    /\ SecureStorageManager.isSessionValid (2000 + 24 * 60 * 60 * 1000) w1
       = (Return (VBool false), w1).
Proof.
  destruct (store_activates_session Examples.rnd0 2000 Examples.ada "Secret1!"
              Examples.fresh_world
              (StorageMaintenance.new_session Examples.rnd0 1000))
    as (props & w1 & Hs & _ & Hv).
  - exists (default [] (localStorage Examples.fresh_world !! Storage.sessKey)).
    split; vm_compute; reflexivity.
  - split; [|repeat split; vm_compute; reflexivity].
    repeat split; (eexists; split; [vm_compute; reflexivity | discriminate]).
  - exists props, w1. split; [exact Hs | split; rewrite Hv; reflexivity].
Defined.

(** X19. A retrieval that succeeds refreshes the session in the same way;
    the session that was stored is the one refreshed. *)
Theorem retrieval_refreshes_session `{HostLaws}
    (p : str) (now : Z) (w w' : World) (session props : object) :
  Storage.session_stored w session ->
  SecureStorageManager.retrieveUserData p now w = (Return (success props), w') ->
  Storage.typed_session w' true now
  /\ localStorage w' = <[Storage.sessKey :=
                           JSON_stringify (VObj (StorageFacts.refreshed now session))]>
                         (localStorage w)
  /\ forall now', SecureStorageManager.isSessionValid now' w'
                  = (Return (VBool (now' - now <? 24 * 60 * 60 * 1000)%Z), w').
Proof.
  intros Hs Hr.
  destruct (RetrievalFacts.retrieve_cases p now w)
    as (res & w2 & Hr2 & Hcases).
  rewrite Hr in Hr2. injection Hr2 as <- <-.
  destruct Hcases as [(E & _) | [(E & _) | (x & y & w1 & _ & _ & Hw & Hu)]];
    try discriminate E.
  assert (Hs1 : Storage.session_stored w1 session).
  { destruct Hs as (text & Hl & Hp). exists text. split; [now rewrite Hw | exact Hp]. }
  rewrite (StorageFacts.updateSession_object now w1 session Hs1) in Hu.
  injection Hu as <-.
  pose proof (SessionFacts.refreshed_is_typed w1 now session) as Ht.
  split; [exact Ht | split; [cbn; now rewrite Hw|]].
  now apply SessionFacts.typed_session_valid.
Qed.

Lemma retrieval_refreshes_session_witness :
  SecureStorageManager.isSessionValid (3000 + 23 * 60 * 60 * 1000) Examples.retrieved.2
  = (Return (VBool true), Examples.retrieved.2).
Proof.
  destruct (retrieval_refreshes_session "Secret1!" 3000 Examples.stored_world
              Examples.retrieved.2 Examples.stored_session Examples.retrieved_props)
    as (_ & _ & Hv).
  - exists (default [] (localStorage Examples.stored_world !! Storage.sessKey)).
    split; vm_compute; reflexivity.
  - vm_compute. reflexivity.
  - rewrite Hv. reflexivity.
Defined.

(** The token that [generateSessionToken] returns has the accepted
    format. *)
Lemma fresh_token_accepted (rnd : entropy) :
  ServerValidation.validateSessionToken
    (VStr (WaxEncountersSecurity.generateSessionToken rnd)) = true.
Proof.
  unfold ServerValidation.validateSessionToken, ServerValidation.tokenRegex.
  assert (Hlen : length (WaxEncountersSecurity.generateSessionToken rnd) = 64%nat).
  { unfold WaxEncountersSecurity.generateSessionToken.
    now rewrite SessionTokenFacts.hex_length, SessionTokenFacts.getRandomValues_length. }
  cbn [truthy is_string negb orb ToString].
  rewrite bool_decide_eq_false_2 by (intros E; rewrite E in Hlen; discriminate Hlen).
  cbn [negb orb]. rewrite regex_test_Rep_Class, Hlen.
  apply SessionTokenFacts.hex_lower.
Qed.

(** X20. [initializeSession] creates a session only when none is stored:
    with the session key empty it writes a session with a fresh token,
    created and last active now, and not active, so that the session is
    not valid until a store or a retrieval succeeds; with a session object
    stored it does nothing. *)
Theorem initialize_session_creates_or_keeps `{HostLaws}
    (rnd : entropy) (now : Z) (w : World) :
  (absent (localStorage w !! Storage.sessKey) = true ->
   exists w',
     SecureStorageManager.initializeSession rnd now w = (Return tt, w')
     /\ Storage.session_stored w' (StorageMaintenance.new_session rnd now)
     /\ ServerValidation.validateSessionToken
          (lookup_prop "sessionId" (StorageMaintenance.new_session rnd now)) = true
     /\ (forall now', SecureStorageManager.isSessionValid now' w' = (Return (VBool false), w'))
     /\ (forall k, k <> Storage.sessKey -> localStorage w' !! k = localStorage w !! k))
  /\ (forall session,
        Storage.session_stored w session ->
        SecureStorageManager.initializeSession rnd now w = (Return tt, w)).
Proof.
  split.
  - intros Ha. eexists. split; [apply SessionFacts.initializeSession_absent; exact Ha|].
    pose proof (SessionFacts.new_session_stored rnd now w) as Hs.
    split; [exact Hs | split; [| split]].
    + cbn [lookup_prop StorageMaintenance.new_session].
      rewrite bool_decide_eq_true_2 by reflexivity.
      apply fresh_token_accepted.
    + intros now'.
      rewrite (StorageFacts.isSessionValid_typed now' _ false now); [reflexivity|].
      exists (StorageMaintenance.new_session rnd now).
      split; [exact Hs | split; reflexivity].
    + intros k Hk. cbn. apply lookup_insert_ne. intros E. apply Hk. symmetry. exact E.
  - intros session Hs. unfold SecureStorageManager.initializeSession.
    erewrite StorageFacts.bind_Return by (apply StorageFacts.getSession_object; exact Hs).
    reflexivity.
Qed.

Lemma initialize_session_creates_or_keeps_witness :
  exists w',
    SecureStorageManager.initializeSession Examples.rnd0 1000 Examples.empty_world
    = (Return tt, w')
    /\ Storage.session_stored w' (StorageMaintenance.new_session Examples.rnd0 1000)
    /\ SecureStorageManager.initializeSession Examples.rnd0 5000 w' = (Return tt, w').
Proof.
  destruct (proj1 (initialize_session_creates_or_keeps Examples.rnd0 1000
                     Examples.empty_world))
    as (w' & Hi & Hs & _); [reflexivity|].
  exists w'. split; [exact Hi | split; [exact Hs|]].
  exact (proj2 (initialize_session_creates_or_keeps Examples.rnd0 5000 w') _ Hs).
Defined.

(** X21. After [initializeSession] on a storage without session,
    [storeUserData] on an acceptable record succeeds, and the [sessionId]
    it reports is the token that [initializeSession] generated. *)
Theorem initialize_then_store_succeeds `{HostLaws}
    (rnd rnd' : entropy) (now now' : Z) (r : value) (p : str) (w : World) :
  absent (localStorage w !! Storage.sessKey) = true ->
  Storage.acceptable r ->
  exists w1 w2,
    SecureStorageManager.initializeSession rnd now w = (Return tt, w1)
    /\ SecureStorageManager.storeUserData rnd' now' r p w1
       = (Return (success
            [ ("sessionId" : str, VStr (WaxEncountersSecurity.generateSessionToken rnd));
              ("message" : str, VStr "User data stored securely") ]), w2).
Proof.
  intros Ha Hok.
  pose proof (SessionFacts.new_session_stored rnd now w) as Hs.
  destruct (SessionFacts.store_succeeds rnd' now' r p _ _ Hs Hok) as (enc & _ & _ & Hstore).
  do 2 eexists. split; [apply SessionFacts.initializeSession_absent; exact Ha|].
  assert (Hid : lookup_prop "sessionId"
                  (json_props (StorageFacts.refreshed now'
                                 (StorageMaintenance.new_session rnd now)))
                = VStr (WaxEncountersSecurity.generateSessionToken rnd)).
  { rewrite lookup_find_prop.
    rewrite (SessionFacts.find_json_props_first _ _
               (VStr (WaxEncountersSecurity.generateSessionToken rnd)));
      [reflexivity | | discriminate].
    unfold StorageFacts.refreshed. rewrite !find_set_prop.
    rewrite !bool_decide_eq_false_2 by discriminate. reflexivity. }
  rewrite Hstore, Hid. reflexivity.
Qed.

Lemma initialize_then_store_succeeds_witness :
  exists w1 w2,
    SecureStorageManager.initializeSession Examples.rnd0 1000 Examples.empty_world
    = (Return tt, w1)
    /\ SecureStorageManager.storeUserData Examples.rnd0 2000 Examples.ada "Secret1!" w1
       = (Return (success
            [ ("sessionId" : str,
               VStr (WaxEncountersSecurity.generateSessionToken Examples.rnd0));
              ("message" : str, VStr "User data stored securely") ]), w2).
Proof.
  apply (initialize_then_store_succeeds Examples.rnd0 Examples.rnd0 1000 2000
           Examples.ada "Secret1!" Examples.empty_world).
  - reflexivity.
  - split; [|repeat split; vm_compute; reflexivity].
    repeat split; (eexists; split; [vm_compute; reflexivity | discriminate]).
Defined.

(** X22. [storeUserData] reads ten properties of the record and no other:
    two acceptable records that agree on the eight sensitive fields and
    the two consent flags are stored identically.  The [password] property
    has to be present, but its value is not used (the key and the stored
    hash come from the password argument), and any further property is
    dropped. *)
Theorem store_reads_only_listed_fields `{HostLaws}
    (rnd : entropy) (now : Z) (r r' : value) (p : str) (w : World) :
  Storage.acceptable r ->
  Storage.acceptable r' ->
  (forall k, k ∈ Storage.carried_fields -> Storage.field k r = Storage.field k r') ->
  SecureStorageManager.storeUserData rnd now r p w
  = SecureStorageManager.storeUserData rnd now r' p w.
Proof.
  intros Hok Hok' Hsame.
  assert (Hin : forall k, k ∈ Storage.carried_fields -> Storage.field k r = Storage.field k r')
    by exact Hsame.
  unfold Storage.carried_fields in Hin.
  assert (Hsens : Storage.sensitive r = Storage.sensitive r').
  { unfold Storage.sensitive.
    repeat match goal with
    | |- context [Storage.field ?k r] =>
        rewrite (Hin k) by (rewrite !elem_of_cons; auto 20)
    end. reflexivity. }
  assert (Hnon : Storage.non_sensitive now r = Storage.non_sensitive now r').
  { unfold Storage.non_sensitive.
    repeat match goal with
    | |- context [Storage.field ?k r] =>
        rewrite (Hin k) by (rewrite !elem_of_cons; auto 20)
    end. reflexivity. }
  destruct (CryptoFacts.encryptUserData_returns rnd (Storage.sensitive r) p w)
    as (enc & Hb & _ & _).
  rewrite (StorageFacts.storeUserData_acceptable rnd now r p w enc Hok Hb).
  rewrite Hsens in Hb.
  rewrite (StorageFacts.storeUserData_acceptable rnd now r' p w enc Hok' Hb).
  unfold Storage.written, Storage.envelope, Storage.storage_object, Storage.secure_data.
  now rewrite Hnon.
Qed.

Lemma store_reads_only_listed_fields_witness :
  SecureStorageManager.storeUserData Examples.rnd0 2000 Examples.ada "Secret1!"
    Examples.fresh_world
  = SecureStorageManager.storeUserData Examples.rnd0 2000 MoreExamples.ada_with_extras
      "Secret1!" Examples.fresh_world.
Proof.
  apply store_reads_only_listed_fields.
  - split; [|repeat split; vm_compute; reflexivity].
    repeat split; (eexists; split; [vm_compute; reflexivity | discriminate]).
  - split; [|repeat split; vm_compute; reflexivity].
    repeat split; (eexists; split; [vm_compute; reflexivity | discriminate]).
  - intros k Hk. unfold Storage.carried_fields in Hk.
    repeat (apply elem_of_cons in Hk as [-> | Hk]; [vm_compute; reflexivity|]).
    now apply elem_of_nil in Hk.
Defined.

(** ** Start-up: the clean-up and the session *)

Module CleanupFacts.
Import WaxEncountersSecurity SecureStorageManager StorageMaintenance Crypto Storage StorageFacts.
Section Facts.
Context `{Host}.

Lemma to_remove_spec now key text w :
  localStorage w !! key = Some text ->
  to_remove now key w = (Return (removed_by_cleanup now key text), w).
Proof.
  intros Hl. unfold to_remove, removed_by_cleanup.
  destruct (negb (bool_decide (key = [])) && startsWith storagePrefix key); [|reflexivity].
  cbn [andb]. unfold try_catch, bind, getItem. rewrite Hl.
  cbn [from_option]. unfold id.
  destruct (JSON_parse text) as [data|]; [|reflexivity]. cbn [or_throw]. unfold ret at 1.
  destruct (get_prop "storedAt" data); reflexivity.
Qed.

Lemma collect_pure {A} (p : A -> M bool) (q : A -> bool) (l : list A) w :
  (forall x, x ∈ l -> p x w = (Return (q x), w)) ->
  collect p l w = (Return (filter (fun x => q x = true) l), w).
Proof.
  induction l as [|a l IH]; intros Hp; [reflexivity|].
  cbn [collect].
  erewrite bind_Return by (apply Hp; apply elem_of_cons; left; reflexivity).
  erewrite bind_Return
    by (apply IH; intros x Hx; apply Hp; apply elem_of_cons; right; exact Hx).
  unfold ret. rewrite filter_cons. destruct (q a); destruct (decide _); congruence.
Qed.

Lemma for_each_removeItem (l : list str) : forall w,
  for_each l removeItem w
  = (Return tt,
     {| localStorage := fold_left (fun m k => delete k m) l (localStorage w);
        journal := journal w |}).
Proof.
  induction l as [|k l IH]; intros w.
  - destruct w; reflexivity.
  - cbn [for_each fold_left]. unfold bind, removeItem. rewrite IH. reflexivity.
Qed.

Lemma lookup_fold_delete (l : list str) : forall (m : gmap str str) key,
  fold_left (fun m k => delete k m) l m !! key
  = if bool_decide (key ∈ l) then None else m !! key.
Proof.
  induction l as [|k l IH]; intros m key; [reflexivity|].
  cbn [fold_left]. rewrite IH.
  destruct (decide (key = k)) as [->|Hne].
  - rewrite lookup_delete_eq.
    rewrite (bool_decide_eq_true_2 (k ∈ k :: l)) by (apply elem_of_cons; now left).
    now destruct (bool_decide (k ∈ l)).
  - rewrite lookup_delete_ne by (intros E; now apply Hne).
    destruct (bool_decide (key ∈ l)) eqn:E.
    + apply bool_decide_eq_true_1 in E.
      now rewrite bool_decide_eq_true_2 by (apply elem_of_cons; now right).
    + apply bool_decide_eq_false_1 in E.
      rewrite bool_decide_eq_false_2; [reflexivity|].
      intros Hin. apply elem_of_cons in Hin as [Hin | Hin]; [now apply Hne | now apply E].
Qed.

(** [cleanupExpiredData] removes the entries that the loop marks, and no
    other. *)
Lemma cleanup_spec now w :
  exists w',
    cleanupExpiredData now w = (Return tt, w')
    /\ journal w' = journal w
    /\ forall key,
         localStorage w' !! key
         = match localStorage w !! key with
           | Some text => if removed_by_cleanup now key text then None else Some text
           | None => None
           end.
Proof.
  set (q := fun key => match localStorage w !! key with
                       | Some text => removed_by_cleanup now key text
                       | None => false
                       end).
  set (keys := (map_to_list (localStorage w)).*1).
  assert (Hkeys : forall key, key ∈ keys <-> exists text, localStorage w !! key = Some text).
  { intros key. unfold keys. rewrite list_elem_of_fmap. split.
    - intros ([k text] & -> & Hin). apply elem_of_map_to_list in Hin. eauto.
    - intros (text & Hl). exists (key, text). split; [reflexivity|].
      now apply elem_of_map_to_list. }
  assert (Hcollect : collect (to_remove now) keys w
                     = (Return (filter (fun key => q key = true) keys), w)).
  { apply collect_pure. intros key Hin. apply Hkeys in Hin as (text & Hl).
    unfold q. rewrite Hl. now apply to_remove_spec. }
  eexists. split; [| split].
  - unfold cleanupExpiredData. erewrite try_Return; [reflexivity|].
    erewrite bind_Return by reflexivity. fold keys.
    erewrite bind_Return by exact Hcollect.
    apply for_each_removeItem.
  - reflexivity.
  - intros key. cbn [localStorage]. rewrite lookup_fold_delete.
    destruct (localStorage w !! key) as [text|] eqn:Hl.
    + destruct (removed_by_cleanup now key text) eqn:Hq.
      * rewrite bool_decide_eq_true_2; [reflexivity|].
        apply list_elem_of_filter. split; [unfold q; now rewrite Hl | apply Hkeys; eauto].
      * rewrite bool_decide_eq_false_2; [reflexivity|].
        intros Hin. apply list_elem_of_filter in Hin as [Hin _].
        unfold q in Hin. rewrite Hl in Hin. congruence.
    + now destruct (bool_decide _).
Qed.

End Facts.
End CleanupFacts.

(** X23. [cleanupExpiredData] never fails and decides entry by entry: an
    entry goes exactly when its key starts with [wax_encounters_] and its
    text does not parse, or parses to [null], or has a truthy [storedAt]
    more than 30 days before now.  Every other entry stays as it is; an
    entry under another prefix, such as the attempts of the rate limiter,
    is never touched. *)
Theorem cleanup_removes_marked_entries `{Host} (now : Z) (w : World) :
  exists w',
    StorageMaintenance.cleanupExpiredData now w = (Return tt, w')
    /\ journal w' = journal w
    /\ (forall key,
          localStorage w' !! key
          = match localStorage w !! key with
            | Some text =>
                if StorageMaintenance.removed_by_cleanup now key text then None
                else Some text
            | None => None
            end)
    /\ (forall key,
          startsWith SecureStorageManager.storagePrefix key = false ->
          localStorage w' !! key = localStorage w !! key).
Proof.
  destruct (CleanupFacts.cleanup_spec now w) as (w' & Hc & Hj & Hl).
  exists w'. split; [exact Hc | split; [exact Hj | split; [exact Hl|]]].
  intros key Hp. rewrite Hl. destruct (localStorage w !! key) as [text|]; [|reflexivity].
  unfold StorageMaintenance.removed_by_cleanup. rewrite Hp.
  now rewrite andb_false_r.
Qed.

Module EnvelopeFacts.
Import WaxEncountersSecurity SecureStorageManager StorageMaintenance Crypto Storage StorageFacts.
Section Facts.
Context `{HostLaws}.

Lemma envelope_stored w enc t r p session :
  localStorage (session_written (written w enc t r p) t session) !! dataKey
  = Some (JSON_stringify (VObj (envelope enc t r p))).
Proof.
  cbn. rewrite lookup_insert_ne by (intros E; symmetry in E; now apply dataKey_sessKey in E).
  apply lookup_insert_eq.
Qed.

Lemma session_text_stored w t session :
  localStorage (session_written w t session) !! sessKey
  = Some (JSON_stringify (VObj (refreshed t session))).
Proof. cbn. apply lookup_insert_eq. Qed.

Lemma envelope_parses enc t r p :
  JSON_parse (JSON_stringify (VObj (envelope enc t r p)))
  = Some (VObj (json_props (envelope enc t r p))).
Proof. now rewrite json_roundtrip. Qed.

(** The properties of the stored envelope that are read without the
    password. *)
Lemma envelope_metadata enc t r p :
  let env := json_props (envelope enc t r p) in
  lookup_prop "storedAt" env = VNum t
  /\ lookup_prop "version" env = VStr "1.0"
  /\ lookup_prop "nonSensitiveData" env = jsonify (non_sensitive t r)
  /\ lookup_prop "securityMetadata" env = security_metadata t.
Proof.
  destruct (envelope_parts enc t r p) as (Hnd & _).
  cbv zeta. rewrite !lookup_json_props by exact Hnd.
  split; [reflexivity | split; [reflexivity | split; reflexivity]].
Qed.

Lemma set_prop_key_elem k k' v (o : object) :
  k ∈ (set_prop k' v o).*1 -> k ∈ o.*1 \/ k = k'.
Proof.
  rewrite set_prop_keys. destruct (bool_decide (k' ∈ o.*1)); [auto|].
  rewrite elem_of_app, list_elem_of_singleton. tauto.
Qed.

Lemma refreshed_has_no_storedAt t (session : object) :
  (js "storedAt") ∉ session.*1 ->
  lookup_prop "storedAt" (json_props (refreshed t session)) = VUndef.
Proof.
  intros Hno. rewrite lookup_find_prop.
  replace (find_prop "storedAt" (json_props (refreshed t session))) with (@None value);
    [reflexivity|].
  symmetry. apply find_prop_None. intros Hin. apply json_props_keys in Hin.
  unfold refreshed in Hin.
  apply set_prop_key_elem in Hin as [Hin | Hin]; [|discriminate Hin].
  apply set_prop_key_elem in Hin as [Hin | Hin]; [|discriminate Hin].
  now apply Hno.
Qed.

Lemma envelope_removed now enc t r p :
  removed_by_cleanup now dataKey (JSON_stringify (VObj (envelope enc t r p)))
  = (negb (t =? 0) && (maxStorageAge <? now - t))%Z.
Proof.
  unfold removed_by_cleanup. rewrite envelope_parses.
  rewrite bool_decide_eq_false_2 by discriminate.
  replace (startsWith storagePrefix dataKey) with true by (vm_compute; reflexivity).
  cbn [negb andb get_prop].
  destruct (envelope_metadata enc t r p) as (Hat & _). cbv zeta in Hat. rewrite Hat.
  reflexivity.
Qed.

Lemma session_kept now t (session : object) :
  (js "storedAt") ∉ session.*1 ->
  removed_by_cleanup now sessKey (JSON_stringify (VObj (refreshed t session))) = false.
Proof.
  intros Hno. unfold removed_by_cleanup.
  rewrite json_roundtrip by discriminate. rewrite jsonify_VObj.
  cbn [get_prop]. rewrite (refreshed_has_no_storedAt t session Hno).
  cbn [truthy andb]. apply andb_false_r.
Qed.

End Facts.
End EnvelopeFacts.

(** X24. The clean-up after a store: the envelope that [storeUserData]
    wrote at time [t] is removed by [cleanupExpiredData] at time [now]
    exactly when [t] is not 0 and [now - t] exceeds 30 days (a [storedAt]
    of 0 is falsy and never expires), and the session, which carries no
    [storedAt], stays however old it is. *)
Theorem cleanup_expires_envelope_keeps_session `{HostLaws}
    (rnd : entropy) (t now : Z) (r : value) (p : str) (w : World) (session : object) :
  Storage.session_stored w session ->
  (js "storedAt") ∉ session.*1 ->
  Storage.acceptable r ->
  exists props w1 w2,
    SecureStorageManager.storeUserData rnd t r p w = (Return (success props), w1)
    /\ StorageMaintenance.cleanupExpiredData now w1 = (Return tt, w2)
    /\ localStorage w2 !! Storage.sessKey = localStorage w1 !! Storage.sessKey
    /\ localStorage w2 !! Storage.dataKey
       = if (negb (t =? 0) && (SecureStorageManager.maxStorageAge <? now - t))%Z
         then None
         else localStorage w1 !! Storage.dataKey.
Proof.
  intros Hs Hno Hok.
  destruct (SessionFacts.store_succeeds rnd t r p w session Hs Hok)
    as (enc & _ & _ & Hstore).
  destruct (CleanupFacts.cleanup_spec now
              (StorageFacts.session_written (Storage.written w enc t r p) t session))
    as (w2 & Hc & _ & Hl).
  do 3 eexists. split; [exact Hstore | split; [exact Hc | split]].
  - rewrite Hl, EnvelopeFacts.session_text_stored.
    now rewrite (EnvelopeFacts.session_kept now t session Hno).
  - rewrite Hl, EnvelopeFacts.envelope_stored, EnvelopeFacts.envelope_removed.
    now destruct (negb (t =? 0) && (SecureStorageManager.maxStorageAge <? now - t))%Z.
Qed.

Lemma cleanup_expires_envelope_keeps_session_witness :
  exists props w1 w2,
    SecureStorageManager.storeUserData Examples.rnd0 2000 Examples.ada "Secret1!"
      Examples.fresh_world = (Return (success props), w1)
    /\ StorageMaintenance.cleanupExpiredData (2000 + 31 * 24 * 60 * 60 * 1000) w1
       = (Return tt, w2)
    /\ localStorage w2 !! Storage.sessKey = localStorage w1 !! Storage.sessKey
    /\ localStorage w2 !! Storage.dataKey = None.
Proof.
  destruct (cleanup_expires_envelope_keeps_session Examples.rnd0 2000
              (2000 + 31 * 24 * 60 * 60 * 1000) Examples.ada "Secret1!"
              Examples.fresh_world (StorageMaintenance.new_session Examples.rnd0 1000))
    as (props & w1 & w2 & Hs & Hc & Hsess & Hdata).
  - exists (default [] (localStorage Examples.fresh_world !! Storage.sessKey)).
    split; vm_compute; reflexivity.
  - cbn [StorageMaintenance.new_session fmap list_fmap fst].
    rewrite !elem_of_cons, elem_of_nil.
    intros Hin. repeat (destruct Hin as [Hin | Hin]; [discriminate Hin|]). exact Hin.
  - split; [|repeat split; vm_compute; reflexivity].
    repeat split; (eexists; split; [vm_compute; reflexivity | discriminate]).
  - exists props, w1, w2.
    split; [exact Hs | split; [exact Hc | split; [exact Hsess | exact Hdata]]].
Defined.

(** X25. The metadata of the stored user data are read without the
    password and without the integrity check: after a store,
    [getUserDataMetadata] returns the time of the store, the version and
    the non-sensitive half of the record, changes nothing and calls
    neither [verifyDataIntegrity] nor [decryptUserData]. *)
Theorem metadata_after_store `{HostLaws}
    (rnd : entropy) (t : Z) (r : value) (p : str) (w : World) (session : object) :
  Storage.session_stored w session ->
  Storage.acceptable r ->
  exists props w1,
    SecureStorageManager.storeUserData rnd t r p w = (Return (success props), w1)
    /\ StorageMaintenance.getUserDataMetadata w1
       = (Return (VObj [ ("storedAt" : str, VNum t);
                         ("version" : str, VStr "1.0");
                         ("nonSensitiveData" : str, jsonify (Storage.non_sensitive t r));
                         ("securityMetadata" : str,
                          StorageMaintenance.security_metadata t) ]), w1).
Proof.
  intros Hs Hok.
  destruct (SessionFacts.store_succeeds rnd t r p w session Hs Hok)
    as (enc & _ & _ & Hstore).
  destruct (EnvelopeFacts.envelope_metadata enc t r p) as (Hat & Hversion & Hns & Hmd).
  cbv zeta in Hat, Hversion, Hns, Hmd.
  do 2 eexists. split; [exact Hstore|].
  unfold StorageMaintenance.getUserDataMetadata.
  erewrite StorageFacts.try_Return; [reflexivity|].
  erewrite StorageFacts.bind_Return
    by (unfold getItem; fold Storage.dataKey;
        rewrite EnvelopeFacts.envelope_stored; reflexivity).
  assert (Hne : JSON_stringify (VObj (Storage.envelope enc t r p)) <> [])
    by (apply RateLimiterFacts.stringify_not_empty; discriminate).
  replace (absent (Some (JSON_stringify (VObj (Storage.envelope enc t r p))))) with false
    by (destruct (JSON_stringify (VObj (Storage.envelope enc t r p)));
        [contradiction | reflexivity]).
  erewrite StorageFacts.bind_Return
    by (cbn [from_option]; unfold id; rewrite EnvelopeFacts.envelope_parses; reflexivity).
  cbn [get_prop or_throw from_option]. unfold id, bind at 1, ret at 1.
  rewrite Hat, Hversion, Hns, Hmd. reflexivity.
Qed.

Lemma metadata_after_store_witness :
  exists props w1,
    SecureStorageManager.storeUserData Examples.rnd0 2000 Examples.ada "Secret1!"
      Examples.fresh_world = (Return (success props), w1)
    /\ StorageMaintenance.getUserDataMetadata w1
       = (Return (VObj [ ("storedAt" : str, VNum 2000);
                         ("version" : str, VStr "1.0");
                         ("nonSensitiveData" : str,
                          jsonify (Storage.non_sensitive 2000 Examples.ada));
                         ("securityMetadata" : str,
                          StorageMaintenance.security_metadata 2000) ]), w1).
Proof.
  apply (metadata_after_store Examples.rnd0 2000 Examples.ada "Secret1!"
           Examples.fresh_world (StorageMaintenance.new_session Examples.rnd0 1000)).
  - exists (default [] (localStorage Examples.fresh_world !! Storage.sessKey)).
    split; vm_compute; reflexivity.
  - split; [|repeat split; vm_compute; reflexivity].
    repeat split; (eexists; split; [vm_compute; reflexivity | discriminate]).
Defined.

(** X26. [exportUserData] is a retrieval with another wrapping: it never
    throws, leaves the world as [retrieveUserData] leaves it, wraps the
    retrieved record with the export date on success, and reports the one
    error [Cannot retrieve user data] whether there were no data or the
    retrieval failed. *)
Theorem export_follows_retrieval `{Host} (p : str) (now : Z) (w : World) :
  exists res w',
    SecureStorageManager.retrieveUserData p now w = (Return res, w')
    /\ StorageMaintenance.exportUserData p now w
       = (Return
            match res with
            | success props =>
                success [ ("data" : str,
                           VObj [ ("userData" : str, lookup_prop "data" props);
                                  ("exportDate" : str, VStr (toISOString now));
                                  ("version" : str, VStr "1.0");
                                  ("format" : str, VStr "JSON") ]) ]
            | failure _ => failure (Error "Cannot retrieve user data")
            end, w').
Proof.
  destruct (RetrievalFacts.retrieve_cases p now w) as (res & w' & Hr & _).
  exists res, w'. split; [exact Hr|].
  unfold StorageMaintenance.exportUserData.
  destruct res as [props | e].
  - erewrite StorageFacts.try_Return; [reflexivity|].
    erewrite StorageFacts.bind_Return by exact Hr. reflexivity.
  - erewrite StorageFacts.try_Throw; [reflexivity|].
    erewrite StorageFacts.bind_Return by exact Hr. reflexivity.
Qed.

Module InitializeFacts.
Import WaxEncountersSecurity SecureStorageManager StorageMaintenance Crypto Storage StorageFacts.
Section Facts.
Context `{HostLaws}.

Lemma isStorageAvailable_returns w : isStorageAvailable w = (Return true, probed w).
Proof. reflexivity. Qed.

(** A session entry that the clean-up has left parses to a value other
    than [null]. *)
Lemma kept_session_parses now text :
  text <> [] ->
  removed_by_cleanup now sessKey text = false ->
  exists data, JSON_parse text = Some data.
Proof.
  intros Hne. unfold removed_by_cleanup.
  rewrite bool_decide_eq_false_2 by discriminate.
  replace (startsWith storagePrefix sessKey) with true by (vm_compute; reflexivity).
  cbn [negb andb]. destruct (JSON_parse text) as [data|]; [eauto | discriminate].
Qed.

(** Once the clean-up has run, [initializeSession] returns, and a truthy
    session is stored afterwards. *)
Lemma initializeSession_after_cleanup rnd now w0 w :
  (forall key,
     localStorage w !! key
     = match localStorage w0 !! key with
       | Some text => if removed_by_cleanup now key text then None else Some text
       | None => None
       end) ->
  exists w',
    initializeSession rnd now w = (Return tt, w')
    /\ (forall key, key <> sessKey -> localStorage w' !! key = localStorage w !! key)
    /\ exists session, getSession w' = (Return session, w') /\ truthy session = true.
Proof.
  intros Hl.
  assert (Hfresh :
    exists w',
      setSession (VObj (new_session rnd now)) w = (Return tt, w')
      /\ (forall key, key <> sessKey -> localStorage w' !! key = localStorage w !! key)
      /\ exists session, getSession w' = (Return session, w') /\ truthy session = true).
  { eexists. split; [reflexivity | split].
    - intros key Hk. cbn. apply lookup_insert_ne. intros E. apply Hk. symmetry. exact E.
    - exists (VObj (new_session rnd now)). split; [|reflexivity].
      apply getSession_object. apply SessionFacts.new_session_stored. }
  destruct (absent (localStorage w !! sessKey)) eqn:Ha.
  - destruct Hfresh as (w' & Hset & Hrest).
    exists w'. split; [|exact Hrest].
    rewrite (SessionFacts.initializeSession_absent rnd now w Ha). exact Hset.
  - destruct (localStorage w !! sessKey) as [text|] eqn:Hw; [|discriminate Ha].
    assert (Hne : text <> []) by (intros ->; discriminate Ha).
    pose proof (Hl sessKey) as Hk. rewrite Hw in Hk.
    destruct (localStorage w0 !! sessKey) as [text0|]; [|discriminate Hk].
    destruct (removed_by_cleanup now sessKey text0) eqn:Hrem; [discriminate Hk|].
    injection Hk as ->.
    destruct (kept_session_parses now text0 Hne Hrem) as (data & Hp).
    assert (Hg : getSession w = (Return data, w)).
    { unfold getSession, bind, getItem. fold sessKey. rewrite Hw, Ha.
      cbn [from_option]. unfold id. now rewrite Hp. }
    unfold initializeSession. erewrite bind_Return by exact Hg.
    destruct (truthy data) eqn:Ht; cbn [negb].
    + exists w. split; [reflexivity | split; [reflexivity | eauto]].
    + exact Hfresh.
Qed.

End Facts.
End InitializeFacts.

(** X27. [initialize] always returns true, whatever the storage holds:
    the clean-up removes a session entry that does not parse before
    [initializeSession] reads it.  Afterwards [getSession] returns a
    truthy session, and the key [__storage_test__], which
    [isStorageAvailable] writes and removes, is gone whether or not it was
    there before. *)
Theorem initialize_always_succeeds `{HostLaws} (rnd : entropy) (now : Z) (w : World) :
  exists w',
    StorageMaintenance.initialize rnd now w = (Return true, w')
    /\ localStorage w' !! StorageMaintenance.test_key = None
    /\ exists session,
         SecureStorageManager.getSession w' = (Return session, w')
         /\ truthy session = true.
Proof.
  destruct (CleanupFacts.cleanup_spec now (StorageMaintenance.probed w)) as (wc & Hc & _ & Hl).
  destruct (InitializeFacts.initializeSession_after_cleanup rnd now
              (StorageMaintenance.probed w) wc Hl)
    as (w' & Hi & Hother & Hsession).
  exists w'. split; [| split; [| exact Hsession]].
  - unfold StorageMaintenance.initialize.
    erewrite StorageFacts.try_Return; [reflexivity|].
    erewrite StorageFacts.bind_Return by apply InitializeFacts.isStorageAvailable_returns.
    cbn [negb].
    erewrite StorageFacts.bind_Return by exact Hc.
    erewrite StorageFacts.bind_Return by exact Hi.
    reflexivity.
  - rewrite Hother by discriminate. rewrite Hl. cbn [StorageMaintenance.probed localStorage].
    now rewrite lookup_delete_eq.
Qed.

Lemma initialize_always_succeeds_witness :
  exists w',
    StorageMaintenance.initialize Examples.rnd0 1000 MoreExamples.corrupt_world
    = (Return true, w')
    /\ localStorage w' !! StorageMaintenance.test_key = None
    /\ exists session,
         SecureStorageManager.getSession w' = (Return session, w')
         /\ truthy session = true.
Proof.
  exact (initialize_always_succeeds Examples.rnd0 1000 MoreExamples.corrupt_world).
Defined.

(** X28. [updateUserData] without a successful retrieval (no data, a
    wrong password, a broken envelope) reports [Cannot retrieve existing
    data] and writes nothing to the storage. *)
Theorem update_without_retrieval_changes_nothing `{Host}
    (rnd : entropy) (now : Z) (u : value) (p : str) (w w' : World) (res : result) :
  SecureStorageManager.retrieveUserData p now w = (Return res, w') ->
  Storage.is_failure res ->
  SecureStorageManager.updateUserData rnd now u p w
  = (Return (failure (Error "Cannot retrieve existing data")), w')
  /\ localStorage w' = localStorage w.
Proof.
  intros Hr Hf. destruct res as [props | e]; [destruct Hf|]. split.
  - unfold SecureStorageManager.updateUserData.
    erewrite StorageFacts.try_Throw; [reflexivity|].
    erewrite StorageFacts.bind_Return by exact Hr. reflexivity.
  - destruct (RetrievalFacts.retrieve_cases p now w) as (res2 & w2 & Hr2 & Hcases).
    rewrite Hr in Hr2. injection Hr2 as <- <-.
    destruct Hcases as [(_ & -> & _) | [(_ & Hw & _) | (x & y & w1 & E & _)]];
      [reflexivity | exact Hw | discriminate E].
Qed.

Lemma update_without_retrieval_changes_nothing_witness :
  SecureStorageManager.updateUserData Examples.rnd0 3000 Examples.new_phone "Secret1!"
    Examples.tampered_world
  = (Return (failure (Error "Cannot retrieve existing data")),
     (SecureStorageManager.retrieveUserData "Secret1!" 3000 Examples.tampered_world).2)
  /\ localStorage (SecureStorageManager.retrieveUserData "Secret1!" 3000
                     Examples.tampered_world).2
     = localStorage Examples.tampered_world.
Proof.
  apply (update_without_retrieval_changes_nothing Examples.rnd0 3000 Examples.new_phone
           "Secret1!" Examples.tampered_world _
           (failure (Error "Failed to retrieve user data"))).
  - vm_compute. reflexivity.
  - exact I.
Defined.

(** ** An update must name the password again *)

Module UpdateFacts.
Import WaxEncountersSecurity SecureStorageManager Storage StorageFacts.
Section Facts.
Context `{HostLaws}.

(** A key that the source does not have is as it was in the target. *)
Lemma find_assign_other k (s t : object) :
  find_prop k s = None -> find_prop k (assign t s) = find_prop k t.
Proof.
  unfold assign. revert t. induction s as [|[k' v] s IH]; intros t; [reflexivity|].
  cbn [find_prop fold_left fst snd].
  destruct (bool_decide_reflect (k = k')) as [|Hne]; [discriminate|].
  intros Hs. rewrite (IH _ Hs), find_set_prop. now rewrite bool_decide_eq_false_2.
Qed.

(** When the partial record has no [password], the merged record has the
    one of the stored record. *)
Lemma merged_password (record : object) (u : value) :
  NoDup record.*1 ->
  find_prop "password" (own_props u) = None ->
  field "password" (VObj (spread2 (VObj record) u)) = lookup_prop "password" record.
Proof.
  intros Hnd Hu. unfold field, spread2. cbn [get_prop from_option own_props]. unfold id.
  rewrite !lookup_find_prop, (find_assign_other _ _ _ Hu), (find_assign _ _ _ Hnd).
  cbn [find_prop]. now destruct (find_prop "password" record).
Qed.

(** The gate turns an object away before anything is written. *)
Lemma store_rejects_object rnd now (o : object) password w :
  ~ acceptable (VObj o) ->
  storeUserData rnd now (VObj o) password w
  = (Return (failure (Error "Invalid user data provided")), w).
Proof.
  intros Hno. destruct (validateUserData_spec (VObj o) w) as [_ Hval].
  destruct Hval as (b & Hv & Hb); [discriminate | discriminate |].
  destruct b; [exfalso; apply Hno; now apply Hb|].
  unfold storeUserData. erewrite try_Throw; [reflexivity|].
  erewrite bind_Return by exact Hv. reflexivity.
Qed.

(** A successful retrieval leaves the envelope where it is. *)
Lemma retrieval_keeps_envelope password now w props w' :
  retrieveUserData password now w = (Return (success props), w') ->
  localStorage w' !! dataKey = localStorage w !! dataKey.
Proof.
  intros Hr. destruct (RetrievalFacts.retrieve_cases password now w) as (res & w2 & Hr2 & Hc).
  rewrite Hr in Hr2. injection Hr2 as <- <-.
  destruct Hc as [(E & _) | [(E & _) | (x & y & w1 & _ & _ & Hw1 & Hu)]];
    [discriminate E | discriminate E |].
  destruct (RetrievalFacts.updateSession_cases true now w1)
    as [(w3 & Hu3 & _ & Hk) | (e & Hu3)]; rewrite Hu in Hu3; [|discriminate Hu3].
  injection Hu3 as <-. rewrite <- Hw1. apply Hk, dataKey_sessKey.
Qed.

End Facts.
End UpdateFacts.

(** C4.  An envelope that [storeUserData] created with the password [p]
    can be read back with [p], and the record read back has no [password]
    field.  [updateUserData(u, p)] with a partial record [u] that has no
    [password] property of its own therefore does not succeed: the merged
    record fails the gate of [storeUserData], the result is the failure
    [Invalid user data provided], and the envelope stays as it was.  The
    update leaves the world as its retrieval left it. *)
Theorem update_needs_password_in_partial `{HostLaws}
    (rnd rnd' : entropy) (now now' : Z) (r u : value) (p : str)
    (w : World) (session : object) :
  Storage.session_stored w session ->
  Storage.acceptable r ->
  find_prop "password" (own_props u) = None ->
  exists props w1 record w2,
    SecureStorageManager.storeUserData rnd now r p w = (Return (success props), w1)
    /\ SecureStorageManager.retrieveUserData p now' w1
       = (Return (success [ ("data" : str, VObj record) ]), w2)
    /\ lookup_prop "password" record = VUndef
    /\ ~ Storage.acceptable (VObj (spread2 (VObj record) u))
    /\ SecureStorageManager.updateUserData rnd' now' u p w1
       = (Return (failure (Error "Invalid user data provided")), w2)
    /\ localStorage w2 !! Storage.dataKey = localStorage w1 !! Storage.dataKey.
Proof.
  intros Hs Hok Hu.
  destruct (SessionFacts.store_succeeds rnd now r p w session Hs Hok)
    as (enc & Hb & Ha & Hstore).
  destruct (StorageFacts.acceptable_not_nullish r Hok) as [HU _].
  destruct (StorageFacts.retrieve_after_store rnd now now' r p w session enc HU Hb Ha Hs)
    as (w2 & Hr).
  unfold Storage.sensitive, Storage.non_sensitive in Hr.
  rewrite !jsonify_VObj in Hr.
  destruct (StorageFacts.stored_record_fields
              (Storage.field "firstName" r) (Storage.field "lastName" r)
              (Storage.field "email" r) (Storage.field "phone" r)
              (Storage.field "shippingAddress" r) (Storage.field "iban" r)
              (Storage.field "bic" r) (Storage.field "bankAccountOwner" r)
              (Storage.field "termsAccepted" r)
              (Storage.field "privacyAccepted" r) (toISOString now))
    as (_ & _ & _ & _ & Hother).
  match type of Hr with
  | _ = (Return (success [ (_, VObj ?rec) ]), _) => set (record := rec) in *
  end.
  assert (Hpw : lookup_prop "password" record = VUndef).
  { apply Hother. intros Hin. revert Hin.
    unfold Storage.carried_fields, Storage.reset_fields. cbn [app].
    rewrite !elem_of_cons, elem_of_nil.
    intros Hin. repeat (destruct Hin as [Hin | Hin]; [discriminate Hin|]). exact Hin. }
  assert (Hno : ~ Storage.acceptable (VObj (spread2 (VObj record) u))).
  { intros [(_ & _ & _ & _ & _ & _ & _ & (x & Hx & _)) _].
    rewrite (UpdateFacts.merged_password record u (StorageFacts.spread2_NoDup _ _) Hu), Hpw in Hx.
    discriminate Hx. }
  do 4 eexists.
  split; [exact Hstore | split; [exact Hr | split; [exact Hpw | split; [exact Hno | split]]]].
  - unfold SecureStorageManager.updateUserData.
    erewrite StorageFacts.try_Return; [reflexivity|].
    erewrite StorageFacts.bind_Return by exact Hr. cbv beta iota.
    change (lookup_prop "data" [("data" : str, VObj record)]) with (VObj record).
    now apply UpdateFacts.store_rejects_object.
  - exact (UpdateFacts.retrieval_keeps_envelope p now' _ _ w2 Hr).
Qed.

Lemma update_needs_password_in_partial_witness :
  exists props record w2,
    SecureStorageManager.storeUserData Examples.rnd0 2000 Examples.ada "Secret1!"
      Examples.fresh_world = (Return (success props), Examples.stored_world)
    /\ SecureStorageManager.retrieveUserData "Secret1!" 3000 Examples.stored_world
       = (Return (success [ ("data" : str, VObj record) ]), w2)
    /\ lookup_prop "password" record = VUndef
    /\ SecureStorageManager.updateUserData Examples.rnd0 3000 Examples.new_phone
         "Secret1!" Examples.stored_world
       = (Return (failure (Error "Invalid user data provided")), w2)
    /\ localStorage w2 !! Storage.dataKey
       = localStorage Examples.stored_world !! Storage.dataKey.
Proof.
  destruct (update_needs_password_in_partial Examples.rnd0 Examples.rnd0 2000 3000
              Examples.ada Examples.new_phone "Secret1!" Examples.fresh_world
              (StorageMaintenance.new_session Examples.rnd0 1000))
    as (props & w1 & record & w2 & Hs & Hr & Hpw & _ & Hu & Hk).
  - exists (default [] (localStorage Examples.fresh_world !! Storage.sessKey)).
    split; vm_compute; reflexivity.
  - split; [|repeat split; vm_compute; reflexivity].
    repeat split; (eexists; split; [vm_compute; reflexivity | discriminate]).
  - reflexivity.
  - assert (Hw1 : w1 = Examples.stored_world)
      by (unfold Examples.stored_world; now rewrite Hs).
    subst w1. exists props, record, w2.
    split; [exact Hs | split; [exact Hr | split; [exact Hpw | split; [exact Hu | exact Hk]]]].
Defined.

(** ** The IBAN checksum detects every single-digit error *)

Module IBANErrorFacts.
Import ServerValidation IBANChecksum.
Section Facts.
Context `{Host}.

Lemma digit_plain (c : char) :
  is_digit c = true -> upper_ascii c = c /\ is_upper c = false /\ (c <? 128) = true.
Proof.
  intros Hc. apply PaymentFacts.digit_value in Hc as [H1 H2].
  unfold upper_ascii, is_lower, is_upper, in_range.
  replace (97 <=? c) with false by (symmetry; apply N.leb_gt; lia).
  replace (65 <=? c) with false by (symmetry; apply N.leb_gt; lia).
  repeat split. apply N.ltb_lt. lia.
Qed.

(** Moving the first four characters to the end moves one character to
    one place, whatever the character is. *)
Lemma rearrange_split (a b : str) :
  exists x y, forall c, rearrange (a ++ c :: b) = x ++ c :: y.
Proof.
  unfold rearrange. destruct (decide (4 <= length a)%nat) as [Hle | Hgt].
  - exists (drop 4 a), (b ++ take 4 a). intros c.
    rewrite drop_app_le by exact Hle. rewrite take_app_le by exact Hle.
    now rewrite <- app_assoc.
  - remember (4 - length a - 1)%nat as k eqn:Hk.
    exists (drop k b ++ a), (take k b). intros c.
    rewrite drop_app_ge by lia. rewrite take_app_ge by lia.
    replace (4 - length a)%nat with (S k) by lia.
    cbn [skipn firstn]. now rewrite <- app_assoc.
Qed.

Lemma digit_string_split (x y : str) (c : char) :
  is_digit c = true -> digit_string (x ++ c :: y) = digit_string x ++ c :: digit_string y.
Proof.
  intros Hc. unfold digit_string. rewrite flat_map_app. cbn [flat_map].
  destruct (digit_plain c Hc) as (_ & -> & _). reflexivity.
Qed.

Lemma decimal_app (p r : str) : forall acc,
  decimal acc (p ++ r) = match decimal acc p with Some a => decimal a r | None => None end.
Proof.
  induction p as [|c p IH]; intros acc; [reflexivity|].
  cbn [app decimal]. destruct (is_digit c); [apply IH | reflexivity].
Qed.

(** The value of a digit string read after two different numbers. *)
Lemma decimal_shift (q : str) : forall a b va vb,
  decimal a q = Some va -> decimal b q = Some vb ->
  (Z.of_N vb - Z.of_N va = (Z.of_N b - Z.of_N a) * 10 ^ Z.of_nat (length q))%Z.
Proof.
  induction q as [|x q IH]; intros a b va vb Ha Hb.
  - injection Ha as <-. injection Hb as <-. cbn. lia.
  - cbn [decimal] in Ha, Hb. destruct (is_digit x); [|discriminate Ha].
    rewrite (IH _ _ _ _ Ha Hb). cbn [length].
    rewrite Nat2Z.inj_succ, Z.pow_succ_r by lia. lia.
Qed.

Lemma divide_97_cancel_10 (x : Z) : (97 | x * 10)%Z -> (97 | x)%Z.
Proof. intros [k Hk]. exists (68 * k - 7 * x)%Z. lia. Qed.

Lemma divide_97_cancel_pow (x : Z) (n : nat) : (97 | x * 10 ^ Z.of_nat n)%Z -> (97 | x)%Z.
Proof.
  induction n as [|n IH].
  - cbn. now rewrite Z.mul_1_r.
  - rewrite Nat2Z.inj_succ, Z.pow_succ_r by lia. intros Hd. apply IH.
    apply divide_97_cancel_10. now replace (x * 10 ^ Z.of_nat n * 10)%Z
      with (x * (10 * 10 ^ Z.of_nat n))%Z by lia.
Qed.

(** Two texts that differ in one digit do not both leave remainder 1. *)
Lemma mod97_digit_change (l1 l2 : str) (c d : char) :
  forallb (fun x => x <? 128) (filter (fun x => is_space x = false) (l1 ++ l2)) = true ->
  is_digit c = true -> is_digit d = true -> c <> d ->
  mod97_is_1 (l1 ++ c :: l2) -> mod97_is_1 (l1 ++ d :: l2) -> False.
Proof.
  intros Hascii Hc Hd Hne (n & Hn & Hm) (n' & Hn' & Hm').
  unfold str, char in *.
  set (A := filter (fun x : N => is_space x = false) l1) in *.
  set (B := filter (fun x : N => is_space x = false) l2) in *.
  assert (Hclean : forall x : N, is_digit x = true ->
            toUpperCase (filter (fun x : N => is_space x = false) (l1 ++ x :: l2))
            = map upper_ascii A ++ x :: map upper_ascii B).
  { intros x Hx. destruct (digit_plain x Hx) as (Hup & _ & Hlt).
    rewrite filter_app, filter_cons_True by (now apply PaymentFacts.digit_not_space).
    fold A B. unfold toUpperCase.
    rewrite filter_app in Hascii. fold A B in Hascii.
    rewrite forallb_app in Hascii |- *. cbn [forallb].
    apply andb_prop in Hascii as [HA HB]. rewrite HA, HB, Hlt. cbn [andb].
    rewrite map_app. cbn [map]. now rewrite Hup. }
  rewrite (Hclean c Hc) in Hn. rewrite (Hclean d Hd) in Hn'.
  destruct (rearrange_split (map upper_ascii A) (map upper_ascii B))
    as (x & y & Hre).
  unfold str, char in *.
  rewrite Hre in Hn, Hn'.
  rewrite digit_string_split in Hn, Hn' by assumption.
  rewrite decimal_app in Hn, Hn'.
  destruct (decimal 0 (digit_string x)) as [a|];
    [|discriminate Hn].
  cbn [decimal] in Hn, Hn'. rewrite Hc in Hn. rewrite Hd in Hn'.
  pose proof (decimal_shift _ _ _ _ _ Hn Hn') as Hshift.
  destruct (PaymentFacts.digit_value c Hc) as [Hc1 Hc2].
  destruct (PaymentFacts.digit_value d Hd) as [Hd1 Hd2].
  assert (Hdiv : (97 | (Z.of_N d - Z.of_N c)
                       * 10 ^ Z.of_nat (length (digit_string y)))%Z).
  { pose proof (N.Div0.div_mod n 97) as D1. pose proof (N.Div0.div_mod n' 97) as D2.
    rewrite Hm in D1. rewrite Hm' in D2.
    exists (Z.of_N (n' / 97) - Z.of_N (n / 97))%Z.
    replace ((Z.of_N d - Z.of_N c) * 10 ^ Z.of_nat (length (digit_string y)))%Z
      with (Z.of_N n' - Z.of_N n)%Z by (rewrite Hshift; f_equal; lia).
    lia. }
  apply divide_97_cancel_pow in Hdiv as [k Hk].
  apply Hne. lia.
Qed.


End Facts.
End IBANErrorFacts.

(** X29. [validateIBANChecksum] detects every single-digit error: if a
    text passes, the same text with any one of its digits replaced by a
    different digit fails.  (The characters around the digit, white space
    aside, are taken to be ASCII, where upper-casing is the program's
    own.) *)
Theorem iban_checksum_detects_single_digit_change `{Host} (l1 l2 : str) (c d : char) :
  forallb (fun x => x <? 128) (filter (fun x => is_space x = false) (l1 ++ l2)) = true ->
  is_digit c = true -> is_digit d = true -> c <> d ->
  ServerValidation.validateIBANChecksum (l1 ++ c :: l2) = true ->
  ServerValidation.validateIBANChecksum (l1 ++ d :: l2) = false.
Proof.
  intros Hascii Hc Hd Hne Hv.
  destruct (ServerValidation.validateIBANChecksum (l1 ++ d :: l2)) eqn:Hv';
    [exfalso | reflexivity].
  apply IBANChecksumFacts.validateIBANChecksum_spec in Hv, Hv'.
  exact (IBANErrorFacts.mod97_digit_change l1 l2 c d Hascii Hc Hd Hne Hv Hv').
Qed.

Lemma iban_checksum_detects_single_digit_change_witness :
  ServerValidation.validateIBANChecksum "DE89 3704 0044 0532 0130 00" = true
  /\ ServerValidation.validateIBANChecksum "DE89 3704 0044 0532 0130 07" = false.
Proof.
  split; [vm_compute; reflexivity|].
  apply (iban_checksum_detects_single_digit_change "DE89 3704 0044 0532 0130 0" [] 48 55);
    [vm_compute; reflexivity | reflexivity | reflexivity | discriminate
    | vm_compute; reflexivity].
Defined.

(** ** The gate of the storage manager and the checksum *)

Module GateFacts.
Import WaxEncountersSecurity SecureStorageManager Storage.

Lemma indistinct_cat c d a b : indistinct c d a -> indistinct c d b -> indistinct c d (cat a b).
Proof. destruct a, b; cbn; tauto. Qed.

Lemma indistinct_alt c d a b : indistinct c d a -> indistinct c d b -> indistinct c d (alt a b).
Proof. destruct a, b; cbn; tauto. Qed.

Lemma indistinct_deriv c d x r : indistinct c d r -> indistinct c d (deriv x r).
Proof.
  induction r as [| |p|a IHa b IHb|a IHa b IHb|a IHa]; cbn [deriv indistinct].
  - trivial.
  - trivial.
  - intros _. now destruct (p x).
  - intros [Ha Hb]. destruct (nullable a).
    + apply indistinct_alt; [apply indistinct_cat|]; auto.
    + apply indistinct_cat; auto.
  - intros [Ha Hb]. apply indistinct_alt; auto.
  - intros Ha. apply indistinct_cat; auto.
Qed.

Lemma deriv_indistinct c d r : indistinct c d r -> deriv c r = deriv d r.
Proof.
  induction r as [| |p|a IHa b IHb|a IHa b IHb|a IHa]; cbn [deriv indistinct].
  - reflexivity.
  - reflexivity.
  - now intros ->.
  - intros [Ha Hb]. now rewrite (IHa Ha), (IHb Hb).
  - intros [Ha Hb]. now rewrite (IHa Ha), (IHb Hb).
  - intros Ha. now rewrite (IHa Ha).
Qed.

(** A pattern whose classes do not tell [c] from [d] gives the same
    answer on two strings that differ in one place by [c] and [d]. *)
Lemma regex_test_indistinct c d (l1 l2 : str) : forall r,
  indistinct c d r -> regex_test r (l1 ++ c :: l2) = regex_test r (l1 ++ d :: l2).
Proof.
  unfold regex_test. induction l1 as [|x l1 IH]; intros r Hr.
  - cbn [app fold_left]. now rewrite (deriv_indistinct c d r Hr).
  - cbn [app fold_left]. apply IH. now apply indistinct_deriv.
Qed.

Lemma ibanRegex_digits c d :
  is_digit c = true -> is_digit d = true -> indistinct c d ibanRegex.
Proof.
  intros Hc Hd.
  destruct (IBANErrorFacts.digit_plain c Hc) as (_ & Uc & _).
  destruct (IBANErrorFacts.digit_plain d Hd) as (_ & Ud & _).
  assert (HU : is_upper c = is_upper d) by congruence.
  assert (HD : is_digit c = is_digit d) by congruence.
  assert (HA : is_upper_alnum c = is_upper_alnum d)
    by (unfold is_upper_alnum; congruence).
  unfold ibanRegex. cbn [Rep UpTo Opt indistinct]. repeat split; assumption.
Qed.

Lemma validateIBAN_digits (l1 l2 : str) c d :
  is_digit c = true -> is_digit d = true ->
  validateIBAN (l1 ++ c :: l2) = validateIBAN (l1 ++ d :: l2).
Proof.
  intros Hc Hd. unfold validateIBAN. unfold str, char in *.
  rewrite !filter_app, !filter_cons_True by (now apply PaymentFacts.digit_not_space).
  apply regex_test_indistinct. now apply ibanRegex_digits.
Qed.

Lemma field_set_prop k k' v (o : object) :
  field k (VObj (set_prop k' v o)) = if bool_decide (k = k') then v else field k (VObj o).
Proof.
  unfold field. cbn [get_prop from_option]. unfold id.
  rewrite !lookup_find_prop, find_set_prop. now destruct (bool_decide (k = k')).
Qed.

End GateFacts.

(** X30. The gate of [storeUserData] checks the shape of the IBAN and
    not its checksum: when a record is acceptable, the record with any one
    digit of its IBAN replaced by another digit is acceptable too.  Of
    the two IBANs at most one passes [validateIBANChecksum], so a mistyped
    digit is stored without complaint. *)
Theorem store_gate_ignores_iban_checksum `{Host}
    (o : object) (l1 l2 : str) (c d : char) :
  is_digit c = true -> is_digit d = true -> c <> d ->
  forallb (fun x => x <? 128) (filter (fun x => is_space x = false) (l1 ++ l2)) = true ->
  Storage.field "iban" (VObj o) = VStr (l1 ++ c :: l2) ->
  Storage.acceptable (VObj o) ->
  Storage.acceptable (VObj (set_prop "iban" (VStr (l1 ++ d :: l2)) o))
  /\ (ServerValidation.validateIBANChecksum (l1 ++ c :: l2) = true ->
      ServerValidation.validateIBANChecksum (l1 ++ d :: l2) = false).
Proof.
  intros Hc Hd Hne Hascii Hiban Hok. split.
  - destruct Hok as [(H1 & H2 & H3 & H4 & H5 & H6 & H7 & H8) (F1 & F2 & F3)].
    unfold Storage.acceptable, Storage.formats_pass.
    rewrite !GateFacts.field_set_prop.
    repeat match goal with
    | |- context [bool_decide (?a = ?b)] =>
        first [ rewrite (bool_decide_eq_false_2 (a = b)) by discriminate
              | rewrite (bool_decide_eq_true_2 (a = b)) by reflexivity ]
    end.
    split; [repeat split; try assumption | repeat split; try assumption].
    + exists (l1 ++ d :: l2). split; [reflexivity|]. now destruct l1.
    + rewrite Hiban in F2. cbn [ToString] in F2 |- *.
      now rewrite <- (GateFacts.validateIBAN_digits l1 l2 c d Hc Hd).
  - intros Hv.
    destruct (ServerValidation.validateIBANChecksum (l1 ++ d :: l2)) eqn:Hv';
      [exfalso | reflexivity].
    apply IBANChecksumFacts.validateIBANChecksum_spec in Hv, Hv'.
    exact (IBANErrorFacts.mod97_digit_change l1 l2 c d Hascii Hc Hd Hne Hv Hv').
Qed.

Lemma store_gate_ignores_iban_checksum_witness :
  Storage.acceptable MoreExamples.ada_mistyped_iban
  /\ ServerValidation.validateIBANChecksum "DE89370400440532013007" = false.
Proof.
  destruct (store_gate_ignores_iban_checksum
              [ ("firstName" : str, VStr "Ada");
                ("lastName" : str, VStr "Lovelace");
                ("email" : str, VStr "ada@example.com");
                ("shippingAddress" : str, VStr "12 Analytical Row");
                ("iban" : str, VStr "DE89370400440532013000");
                ("bic" : str, VStr "DEUTDEFF");
                ("bankAccountOwner" : str, VStr "Ada Lovelace");
                ("password" : str, VStr "Secret1!");
                ("termsAccepted" : str, VBool true);
                ("privacyAccepted" : str, VBool true) ]
              "DE8937040044053201300" [] 48 55) as [Hok Hsum].
  - reflexivity.
  - reflexivity.
  - discriminate.
  - vm_compute. reflexivity.
  - vm_compute. reflexivity.
  - split; [|repeat split; vm_compute; reflexivity].
    repeat split; (eexists; split; [vm_compute; reflexivity | discriminate]).
  - split; [exact Hok | apply Hsum; vm_compute; reflexivity].
Defined.
